(** * HubSpot -> Databricks bronze connector: a shallow embedding

    The three notebooks of the accelerator are embedded as functions of an
    explicit state-and-exception monad:

    - [00_hubspot_config_and_scopes.py]: [get_access_token], [hs_request],
      [paginate_get], [write_bronze_delta], [get_watermark], [set_watermark];
    - [01_hubspot_full_load.py]: the [load_*] functions and the module-level
      run sequence ([full_load]);
    - [02_hubspot_incremental_load_crm.py]: [crm_search_since],
      [incremental_object].

    Everything the notebooks talk to (the HubSpot token endpoint, the HubSpot
    API, Spark/Delta, the wall clock) is an oracle of the environment [Env];
    what the notebooks did to it is recorded in the [trace] of the state. *)

From Stdlib Require Import ZArith Lia Ascii String List Bool OrderedTypeEx.
From stdpp Require Import base option list gmap strings sorting.
Import ListNotations.

Local Open Scope string_scope.
Local Open Scope list_scope.
Local Open Scope Z_scope.

Set Warnings "-register-all".

(* ===================================================================== *)
(** ** Python values *)
(* ===================================================================== *)

(** A decoded JSON document, as [resp.json()] hands it to the notebooks.
    A Python [str] is a [string] whose characters are code points (the range
    0..255, which is exactly what [http.client] produces for header values);
    numbers are the integers; a [dict] is its list of items in insertion
    order. *)
Inductive json : Type :=
| JNull
| JBool (b : bool)
| JNum (n : Z)
| JStr (s : string)
| JArr (l : list json)
| JObj (o : list (string * json)).

(** [bool(x)]: Python truthiness, as used by [or], [and], [not], [if]. *)
Definition truthy (x : json) : bool :=
  match x with
  | JNull => false
  | JBool b => b
  | JNum n => negb (n =? 0)
  | JStr s => negb (String.eqb s "")
  | JArr l => match l with [] => false | _ => true end
  | JObj o => match o with [] => false | _ => true end
  end.

(** [d.get(k)] on the item list of a dict. *)
Fixpoint items_get (k : string) (o : list (string * json)) : option json :=
  match o with
  | [] => None
  | (k', v) :: o' => if String.eqb k k' then Some v else items_get k o'
  end.

(** [d[k] = v] on the item list of a dict: an existing key keeps its place. *)
Fixpoint items_set (k : string) (v : json) (o : list (string * json))
  : list (string * json) :=
  match o with
  | [] => [(k, v)]
  | (k', v') :: o' =>
      if String.eqb k k' then (k, v) :: o' else (k', v') :: items_set k v o'
  end.

(** [bool] is a subclass of [int]: both compare as integers. *)
Definition as_int (x : json) : option Z :=
  match x with
  | JNum n => Some n
  | JBool true => Some 1
  | JBool false => Some 0
  | _ => None
  end.

(** [a == b]. *)
Fixpoint py_eq (a b : json) {struct a} : bool :=
  match a, b with
  | JNull, JNull => true
  | JStr s, JStr t => String.eqb s t
  | JArr l, JArr m =>
      (fix go (l m : list json) {struct l} : bool :=
         match l, m with
         | [], [] => true
         | x :: l', y :: m' => py_eq x y && go l' m'
         | _, _ => false
         end) l m
  | JObj o, JObj p =>
      Nat.eqb (length o) (length p) &&
      (fix go (o : list (string * json)) {struct o} : bool :=
         match o with
         | [] => true
         | (k, v) :: o' =>
             match items_get k p with
             | Some w => py_eq v w
             | None => false
             end && go o'
         end) o
  | _, _ =>
      match as_int a, as_int b with
      | Some x, Some y => x =? y
      | _, _ => false
      end
  end.

(** [a > b]; [None] is the [TypeError] of an unordered pair of types.
    Strings compare by code point, lists lexicographically. *)
Fixpoint py_gt (a b : json) {struct a} : option bool :=
  match a, b with
  | JStr s, JStr t => Some (String.ltb t s)
  | JArr l, JArr m =>
      (fix go (l m : list json) {struct l} : option bool :=
         match l, m with
         | x :: l', y :: m' => if py_eq x y then go l' m' else py_gt x y
         | _ :: _, [] => Some true
         | [], _ => Some false
         end) l m
  | _, _ =>
      match as_int a, as_int b with
      | Some x, Some y => Some (y <? x)
      | _, _ => None
      end
  end.

(** [c.isdigit()] for one character in the range 0..255: the ASCII digits and
    the three superscript digits U+00B2, U+00B3, U+00B9. *)
Definition is_ascii_digit (c : ascii) : bool :=
  let n := N_of_ascii c in ((48 <=? n) && (n <=? 57))%N.

Definition char_isdigit (c : ascii) : bool :=
  let n := N_of_ascii c in
  is_ascii_digit c || (n =? 178)%N || (n =? 179)%N || (n =? 185)%N.

Fixpoint all_chars (p : ascii -> bool) (s : string) : bool :=
  match s with
  | EmptyString => true
  | String c s' => p c && all_chars p s'
  end.

(** [s.isdigit()]: at least one character, and every character a digit. *)
Definition isdigit (s : string) : bool :=
  negb (String.eqb s "") && all_chars char_isdigit s.

Fixpoint decimal_value (acc : Z) (s : string) : Z :=
  match s with
  | EmptyString => acc
  | String c s' => decimal_value (10 * acc + (Z.of_N (N_of_ascii c) - 48)) s'
  end.

(** The value of a decimal integer: a non-empty run of ASCII digits. *)
Definition decimal (s : string) : option Z :=
  if negb (String.eqb s "") && all_chars is_ascii_digit s
  then Some (decimal_value 0 s) else None.

(** [sys.get_int_max_str_digits()], as CPython sets it. *)
Definition int_max_str_digits : nat := 4300.

(** [int(s)] for a string that passed [isdigit]: the value of a decimal
    integer of at most [int_max_str_digits] digits (leading zeros count).
    [None] is [ValueError]: a superscript digit is a digit for [isdigit] but
    not a decimal digit for [int], and a longer run of digits exceeds the
    limit of the conversion. *)
Definition py_int (s : string) : option Z :=
  match decimal s with
  | Some n =>
      if (String.length s <=? int_max_str_digits)%nat then Some n else None
  | None => None
  end.

(** [s.lower()] on the ASCII letters, for the case-insensitive header dict. *)
Definition lower_char (c : ascii) : ascii :=
  let n := N_of_ascii c in
  if ((65 <=? n) && (n <=? 90))%N then ascii_of_N (n + 32) else c.

Fixpoint lower (s : string) : string :=
  match s with
  | EmptyString => EmptyString
  | String c s' => String (lower_char c) (lower s')
  end.

(* ===================================================================== *)
(** ** The environment and the state *)
(* ===================================================================== *)

(** What [requests] returns: [status_code], [text], [headers] and the result
    of [json()] ([None] when the body does not decode). *)
Record Response : Type := mkResponse {
  status_code : Z;
  text : string;
  headers : list (string * string);
  json_body_of : option json
}.

(** [resp.headers.get(name)]: [requests] keeps headers in a case-insensitive
    dict. *)
Fixpoint headers_get (name : string) (hs : list (string * string))
  : option string :=
  match hs with
  | [] => None
  | (k, v) :: hs' =>
      if String.eqb (lower k) (lower name) then Some v else headers_get name hs'
  end.

(** The callers pass the literals ["GET"] and ["POST"], which
    [method.upper()] leaves as they are. *)
Inductive Method : Type := GET | POST.

Inductive Mode : Type := Append | Overwrite.

(** Where a Spark job of [write_bronze_delta] can raise: before the Delta
    commit of [save] (nothing is persisted) or after it (table registration,
    [df.count()]). *)
Inductive SinkFault : Type := BeforeCommit | AfterCommit.

(** The exceptions the notebooks raise or let through. *)
Inductive Exn : Type :=
| TokenRefreshFailed (status : Z) (body : string)
| HubSpotApiError (status : Z) (path : string) (body : string)
| ValueError (literal : string)
| OverflowError
| JSONDecodeError
| KeyError (key : string)
| TypeError
| AttributeError
| SparkError (fault : SinkFault).

(** The lines the notebooks print. *)
Inductive Log : Type :=
| LogNoRecords (entity : string)
| LogWrote (entity : string) (rows : nat) (target_path : string)
| LogRevenueFailed (guid : json) (e : Exn)
| LogWatermark (entity : string) (value : json)
| LogNoNewRows (entity : string) (since : option string)
| LogFullLoadComplete
| LogIncrementalComplete.

(** One observable action of the notebooks. *)
Inductive Event : Type :=
| EvToken (url : string)
| EvHttp (method : Method) (url : string) (bearer : json)
         (params : option (gmap string json)) (json_body : option json)
         (timeout_s : Z)
| EvSleep (seconds : Z)
| EvSave (target_path : string) (mode : Mode) (records : list json)
| EvSetWatermark (entity watermark_type : string)
                 (watermark_value : option string)
| EvPrint (line : Log).

Record WatermarkRow : Type := mkRow {
  entity : string;
  watermark_type : string;
  watermark_value : option string;
  updated_at : option Z
}.

(** A bronze row: the raw record with its two ingestion columns. *)
Record BronzeRow : Type := mkBronze {
  record : json;
  _ingested_at : Z;
  _entity : string
}.

(** The widgets of the configuration notebook and the oracles of the outside
    world.  The [n]-th call of a kind gets the [n]-th answer. *)
Record Env : Type := mkEnv {
  BASE_URL : string;
  BRONZE_BASE_PATH : string;
  token_response : nat -> Response;
  api_response : nat -> Response;
  sink_fault : nat -> option SinkFault;
  clock : nat -> Z;
  py_repr : json -> string;
  spark_string : json -> string
}.

Record State : Type := mkState {
  trace : list Event;
  token_calls : nat;
  api_calls : nat;
  sink_calls : nat;
  ticks : nat;
  watermarks : list WatermarkRow;
  bronze : gmap string (list BronzeRow)
}.

Definition log_event (e : Event) (s : State) : State :=
  mkState (trace s ++ [e]) (token_calls s) (api_calls s) (sink_calls s)
          (ticks s) (watermarks s) (bronze s).

Definition bump_token (s : State) : State :=
  mkState (trace s) (S (token_calls s)) (api_calls s) (sink_calls s)
          (ticks s) (watermarks s) (bronze s).

Definition bump_api (s : State) : State :=
  mkState (trace s) (token_calls s) (S (api_calls s)) (sink_calls s)
          (ticks s) (watermarks s) (bronze s).

Definition bump_sink (s : State) : State :=
  mkState (trace s) (token_calls s) (api_calls s) (S (sink_calls s))
          (ticks s) (watermarks s) (bronze s).

Definition bump_ticks (s : State) : State :=
  mkState (trace s) (token_calls s) (api_calls s) (sink_calls s)
          (S (ticks s)) (watermarks s) (bronze s).

Definition with_watermarks (w : list WatermarkRow) (s : State) : State :=
  mkState (trace s) (token_calls s) (api_calls s) (sink_calls s)
          (ticks s) w (bronze s).

Definition with_bronze (b : gmap string (list BronzeRow)) (s : State) : State :=
  mkState (trace s) (token_calls s) (api_calls s) (sink_calls s)
          (ticks s) (watermarks s) b.

(* ===================================================================== *)
(** ** The monad: state, exceptions, and a bound on unbounded loops *)
(* ===================================================================== *)

(** [Val] is a normal return, [Exc] a raised exception; [Fuel] says that a
    [while True] of the source ran longer than the bound given to its model. *)
Inductive Result (A : Type) : Type :=
| Val (a : A) (s : State)
| Exc (e : Exn) (s : State)
| Fuel.

Arguments Val {A} a s.
Arguments Exc {A} e s.
Arguments Fuel {A}.

Definition M (A : Type) : Type := State -> Result A.

Definition ret {A} (a : A) : M A := fun s => Val a s.

Definition raise {A} (e : Exn) : M A := fun s => Exc e s.

Definition bind {A B} (m : M A) (k : A -> M B) : M B :=
  fun s =>
    match m s with
    | Val a s' => k a s'
    | Exc e s' => Exc e s'
    | Fuel => Fuel
    end.

(** [try: m  except Exception as e: h e]. *)
Definition try_except {A} (m : M A) (h : Exn -> M A) : M A :=
  fun s =>
    match m s with
    | Val a s' => Val a s'
    | Exc e s' => h e s'
    | Fuel => Fuel
    end.

Definition emit (e : Event) : M unit := fun s => Val tt (log_event e s).

Definition print (l : Log) : M unit := emit (EvPrint l).

Declare Scope py_scope.
Delimit Scope py_scope with py.
Notation "x <- m ;; k" := (bind m (fun x => k))
  (at level 100, m at next level, right associativity) : py_scope.
Notation "m ;;; k" := (bind m (fun _ => k))
  (at level 100, right associativity) : py_scope.
Local Open Scope py_scope.

(* ===================================================================== *)
(** ** 00_hubspot_config_and_scopes *)
(* ===================================================================== *)

(** [requests.post(url, data=payload, ...)] to the token endpoint; the
    three secrets of the payload are read from a scope that answers. *)
Definition post_token (env : Env) : M Response :=
  fun s =>
    Val (token_response env (token_calls s))
        (bump_token (log_event (EvToken (BASE_URL env +:+ "/oauth/v1/token")) s)).

(** [resp.json()["access_token"]]. *)
Definition access_token_of (resp : Response) : M json :=
  match json_body_of resp with
  | None => raise JSONDecodeError
  | Some (JObj o) =>
      match items_get "access_token" o with
      | Some t => ret t
      | None => raise (KeyError "access_token")
      end
  | Some _ => raise TypeError
  end.

Definition get_access_token (env : Env) : M json :=
  resp <- post_token env ;;
  if status_code resp >=? 300
  then raise (TokenRefreshFailed (status_code resp) (text resp))
  else access_token_of resp.

(** [requests.request(method=..., url=..., headers=..., params=...,
    json=..., timeout=...)]. *)
Definition requests_request (env : Env) (method : Method) (url : string)
    (bearer : json) (params : option (gmap string json))
    (json_body : option json) (timeout_s : Z) : M Response :=
  fun s =>
    Val (api_response env (api_calls s))
        (bump_api (log_event (EvHttp method url bearer params json_body timeout_s) s)).

Definition is_transient (status : Z) : bool :=
  (status =? 429) || (status =? 500) || (status =? 502) || (status =? 503)
  || (status =? 504).

(** [int(retry_after) if retry_after and retry_after.isdigit()
     else int(min(60, 2 ** attempt))]. *)
Definition sleep_seconds (resp : Response) (attempt : Z) : M Z :=
  match headers_get "Retry-After" (headers resp) with
  | Some retry_after =>
      if negb (String.eqb retry_after "") && isdigit retry_after
      then match py_int retry_after with
           | Some n => ret n
           | None => raise (ValueError retry_after)
           end
      else ret (Z.min 60 (2 ^ attempt))
  | None => ret (Z.min 60 (2 ^ attempt))
  end.

(** The greatest number of seconds [time.sleep] takes: a longer sleep does
    not fit, in nanoseconds, the signed 64 bits of CPython's [_PyTime_t]. *)
Definition sleep_max : Z := 9223372036.

(** [time.sleep(secs)] for an [int]. *)
Definition time_sleep (secs : Z) : M unit :=
  if secs <? 0 then raise (ValueError "sleep length must be non-negative")
  else if sleep_max <? secs then raise OverflowError
  else emit (EvSleep secs).

(** The [while True] of [hs_request]; [attempt] is the counter on entry to
    an iteration. *)
Fixpoint hs_request_loop (fuel : nat) (env : Env) (method : Method)
    (url path : string) (bearer : json) (params : option (gmap string json))
    (json_body : option json) (max_retries timeout_s : Z) (attempt : Z)
  : M json :=
  match fuel with
  | O => fun _ => Fuel
  | S fuel' =>
      let attempt := attempt + 1 in
      resp <- requests_request env method url bearer params json_body timeout_s ;;
      if status_code resp <? 300 then
        if String.eqb (text resp) "" then ret (JObj [])
        else match json_body_of resp with
             | Some v => ret v
             | None => raise JSONDecodeError
             end
      else if is_transient (status_code resp) && (attempt <=? max_retries) then
        sleep_s <- sleep_seconds resp attempt ;;
        time_sleep sleep_s ;;;
        hs_request_loop fuel' env method url path bearer params json_body
                        max_retries timeout_s attempt
      else raise (HubSpotApiError (status_code resp) path (text resp))
  end.

(** The loop makes at most [max(1, max_retries + 1)] iterations, so this is
    all the fuel it can use. *)
Definition hs_request_fuel (max_retries : Z) : nat := S (Z.to_nat max_retries).

Definition hs_request (env : Env) (method : Method) (path : string)
    (params : option (gmap string json)) (json_body : option json)
    (max_retries timeout_s : Z) : M json :=
  token <- get_access_token env ;;
  let url := BASE_URL env +:+ path in
  hs_request_loop (hs_request_fuel max_retries) env method url path token
                  params json_body max_retries timeout_s 0.

(** [hs_request] with the defaults [max_retries=6], [timeout_s=120], which is
    how every caller in the notebooks uses it. *)
Definition hs_request_default (env : Env) (method : Method) (path : string)
    (params : option (gmap string json)) (json_body : option json) : M json :=
  hs_request env method path params json_body 6 120.

(** [d.get(k)] on a Python value: only a dict has [get]. *)
Definition py_get (d : json) (k : string) : M json :=
  match d with
  | JObj o => ret (default JNull (items_get k o))
  | _ => raise AttributeError
  end.

(** [d.get(page_key, [])]; [page_key] is [None] in the owners fallback, and
    no key of a decoded document is [None]. *)
Definition py_get_list (d : json) (page_key : option string) : M json :=
  match d with
  | JObj o =>
      ret (match page_key with
           | Some k => default (JArr []) (items_get k o)
           | None => JArr []
           end)
  | _ => raise AttributeError
  end.

Fixpoint chars_of (s : string) : list json :=
  match s with
  | EmptyString => []
  | String c s' => JStr (String c EmptyString) :: chars_of s'
  end.

(** Iterating a Python value ([extend], a comprehension): the elements of a
    list, the characters of a string, the keys of a dict. *)
Definition py_iter (x : json) : M (list json) :=
  match x with
  | JArr l => ret l
  | JStr s => ret (chars_of s)
  | JObj o => ret (map (fun kv => JStr (fst kv)) o)
  | _ => raise TypeError
  end.

(** [x or {}]. *)
Definition or_empty (x : json) : json := if truthy x then x else JObj [].

(** [((data.get("paging") or {}).get("next") or {}).get("after")]. *)
Definition next_after (data : json) : M json :=
  paging <- py_get data "paging" ;;
  next <- py_get (or_empty paging) "next" ;;
  py_get (or_empty next) "after".

(** The [while True] of [paginate_get]: [out] and [p] are the two locals the
    loop mutates. *)
Fixpoint paginate_loop (fuel : nat) (env : Env) (path : string)
    (page_key : option string) (out : list json) (p : gmap string json)
  : M (list json) :=
  match fuel with
  | O => fun _ => Fuel
  | S fuel' =>
      data <- hs_request_default env GET path (Some p) None ;;
      page <- py_get_list data page_key ;;
      items <- py_iter page ;;
      let out := out ++ items in
      after <- next_after data ;;
      if negb (truthy after) then ret out
      else paginate_loop fuel' env path page_key out (<["after" := after]> p)
  end.

Definition paginate_get (fuel : nat) (env : Env) (path : string)
    (params : option (gmap string json)) (page_key : option string)
  : M (list json) :=
  paginate_loop fuel env path page_key [] (default ∅ params).

(** [datetime.now(timezone.utc)]. *)
Definition now (env : Env) : M Z :=
  fun s => Val (clock env (ticks s)) (bump_ticks s).

(** The Spark job of one [write_bronze_delta]: which fault, if any, it meets. *)
Definition next_sink_fault (env : Env) : M (option SinkFault) :=
  fun s => Val (sink_fault env (sink_calls s)) (bump_sink s).

(** [df.write.format("delta").mode(mode).save(target_path)], committed. *)
Definition delta_save (target_path : string) (mode : Mode)
    (records : list json) (df : list BronzeRow) : M unit :=
  fun s =>
    let old := default [] (bronze s !! target_path) in
    let new := match mode with Overwrite => df | Append => old ++ df end in
    Val tt (log_event (EvSave target_path mode records)
                      (with_bronze (<[target_path := new]> (bronze s)) s)).

(** [records] is whatever the caller passes: the settings loaders pass the
    decoded document itself when it is not a dict. *)
Definition write_bronze_delta (env : Env) (records : json) (ent : string)
    (mode : Mode) : M unit :=
  if negb (truthy records) then print (LogNoRecords ent)
  else
    ingest_ts <- now env ;;
    rs <- py_iter records ;;
    let df := map (fun r => mkBronze r ingest_ts ent) rs in
    let target_path := BRONZE_BASE_PATH env +:+ "/" +:+ ent in
    fault <- next_sink_fault env ;;
    match fault with
    | Some BeforeCommit => raise (SparkError BeforeCommit)
    | Some AfterCommit =>
        delta_save target_path mode rs df ;;;
        raise (SparkError AfterCommit)
    | None =>
        delta_save target_path mode rs df ;;;
        print (LogWrote ent (length df) target_path)
    end.

(** [F.col("updated_at").desc_nulls_last()]: [a] may come before [b]. *)
Definition desc_nulls_last (a b : option Z) : Prop :=
  match a, b with
  | Some x, Some y => y <= x
  | Some _, None => True
  | None, Some _ => False
  | None, None => True
  end.

Definition by_updated_at (r1 r2 : WatermarkRow) : Prop :=
  desc_nulls_last (updated_at r1) (updated_at r2).

#[global] Instance desc_nulls_last_dec a b : Decision (desc_nulls_last a b).
Proof. destruct a, b; simpl; apply _. Defined.

#[global] Instance by_updated_at_dec r1 r2 : Decision (by_updated_at r1 r2).
Proof. unfold by_updated_at; apply _. Defined.

(** [df.filter(F.col("entity") == entity)]. *)
Definition rows_of (ent : string) (df : list WatermarkRow) : list WatermarkRow :=
  List.filter (fun r => String.eqb (entity r) ent) df.

(** [df.filter(F.col("entity") != entity)]. *)
Definition rows_not_of (ent : string) (df : list WatermarkRow)
  : list WatermarkRow :=
  List.filter (fun r => negb (String.eqb (entity r) ent)) df.

(** The query of [get_watermark] on the control table. *)
Definition latest_watermark (df : list WatermarkRow) (ent : string)
    (default_iso : string) : option string :=
  match take 1 (merge_sort by_updated_at (rows_of ent df)) with
  | row :: _ => watermark_value row
  | [] => Some default_iso
  end.

(** The result is a Python [str], or [None] when the stored value is null. *)
Definition get_watermark (ent : string) (default_iso : string)
  : M (option string) :=
  fun s => Val (latest_watermark (watermarks s) ent default_iso) s.

Definition get_watermark_default (ent : string) : M (option string) :=
  get_watermark ent "1970-01-01T00:00:00.000Z".

(** [spark.createDataFrame([(..., watermark_value, ...)], watermark_schema)]:
    a [StringType] column takes any object; a [str] is stored as it is,
    [None] as null, and anything else as the string form Spark gives it. *)
Definition as_string_column (env : Env) (v : json) : option string :=
  match v with
  | JStr s => Some s
  | JNull => None
  | _ => Some (spark_string env v)
  end.

Definition set_watermark (env : Env) (ent wtype : string) (value : json)
  : M unit :=
  now_ts <- now env ;;
  fun s =>
    let new_row :=
      mkRow ent wtype (as_string_column env value) (Some now_ts) in
    let remaining := rows_not_of ent (watermarks s) in
    let out := remaining ++ [new_row] in
    Val tt (log_event (EvSetWatermark ent wtype (as_string_column env value))
                      (with_watermarks out s)).

(* ===================================================================== *)
(** ** 01_hubspot_full_load *)
(* ===================================================================== *)

(** [str(x)] inside an f-string: a [str] is itself, anything else is its
    [repr]. *)
Definition py_str (env : Env) (x : json) : string :=
  match x with
  | JStr s => s
  | _ => py_repr env x
  end.

(** [paginate_get] returns a list, so the [isinstance(data, dict)] of the
    fallback never holds. *)
Definition load_owners (fuel : nat) (env : Env) : M unit :=
  data <- try_except
            (paginate_get fuel env "/crm/v3/owners/"
                          (Some {[ "limit" := JNum 500 ]}) (Some "results"))
            (fun _ =>
               paginate_get fuel env "/owners/v2/owners"
                            (Some {[ "count" := JNum 500 ]}) None) ;;
  write_bronze_delta env (JArr data) "crm_owners" Overwrite.

Definition load_crm_object (fuel : nat) (env : Env) (object_name ent : string)
  : M unit :=
  rows <- paginate_get fuel env ("/crm/v3/objects/" +:+ object_name)
            (Some (<[ "limit" := JNum 100 ]> {[ "archived" := JStr "false" ]}))
            (Some "results") ;;
  write_bronze_delta env (JArr rows) ent Overwrite.

Definition load_meeting_links (fuel : nat) (env : Env) : M unit :=
  rows <- paginate_get fuel env "/scheduler/v3/meetings/meeting-links"
            (Some {[ "limit" := JNum 100 ]}) (Some "results") ;;
  write_bronze_delta env (JArr rows) "scheduler_meeting_links" Overwrite.

Definition load_campaigns (fuel : nat) (env : Env) : M (list json) :=
  rows <- paginate_get fuel env "/marketing/v3/campaigns"
            (Some {[ "limit" := JNum 100 ]}) (Some "results") ;;
  write_bronze_delta env (JArr rows) "marketing_campaigns" Overwrite ;;;
  ret rows.

(** [rev["_campaignGuid"] = guid]: item assignment with a string key needs a
    dict. *)
Definition py_setitem (d : json) (k : string) (v : json) : M json :=
  match d with
  | JObj o => ret (JObj (items_set k v o))
  | _ => raise TypeError
  end.

Definition revenue_path (env : Env) (guid : json) : string :=
  "/marketing/v3/campaigns/" +:+ py_str env guid +:+ "/reports/revenue".

(** The body of the [try] for one campaign: the dependent fetch. *)
Definition revenue_try (env : Env) (guid : json) (out : list json)
  : M (list json) :=
  rev <- hs_request_default env GET (revenue_path env guid) (Some ∅) None ;;
  rev' <- py_setitem rev "_campaignGuid" guid ;;
  ret (out ++ [rev']).

(** The [try] with its [except Exception as e: print(...)]. *)
Definition fetch_revenue (env : Env) (guid : json) (out : list json)
  : M (list json) :=
  try_except (revenue_try env guid out)
             (fun e => print (LogRevenueFailed guid e) ;;; ret out).

(** The [for c in campaigns] of [load_campaign_revenue]. *)
Fixpoint revenue_loop (env : Env) (campaigns : list json) (out : list json)
  : M (list json) :=
  match campaigns with
  | [] => ret out
  | c :: campaigns' =>
      guid <- py_get c "id" ;;
      if negb (truthy guid) then revenue_loop env campaigns' out
      else
        out' <- fetch_revenue env guid out ;;
        revenue_loop env campaigns' out'
  end.

Definition load_campaign_revenue (env : Env) (campaigns : list json) : M unit :=
  out <- revenue_loop env campaigns [] ;;
  write_bronze_delta env (JArr out) "marketing_campaign_revenue" Overwrite.

(** [data.get("results", []) if isinstance(data, dict) else data]. *)
Definition results_or_self (data : json) : json :=
  match data with
  | JObj o => default (JArr []) (items_get "results" o)
  | _ => data
  end.

(** The four settings loaders differ in path, params and entity only. *)
Definition load_settings (env : Env) (path : string)
    (params : gmap string json) (ent : string) : M unit :=
  data <- hs_request_default env GET path (Some params) None ;;
  write_bronze_delta env (results_or_self data) ent Overwrite.

Definition load_currencies (env : Env) : M unit :=
  load_settings env "/settings/v3/currencies" ∅ "settings_currencies".

Definition load_domains (env : Env) : M unit :=
  load_settings env "/cms/v3/domains" ∅ "cms_domains".

Definition load_tax_rates (env : Env) : M unit :=
  load_settings env "/crm/v3/taxes/tax-rates" ∅ "tax_rates".

Definition load_comm_pref_definitions (env : Env) : M unit :=
  load_settings env "/communication-preferences/v4/definitions"
                {[ "includeTranslations" := JStr "true" ]}
                "comm_pref_definitions".

(** The statements of the run sequence after [load_owners()], in order. *)
Definition loads_after_owners (fuel : nat) (env : Env) : list (M unit) :=
  [ load_crm_object fuel env "marketing_events" "crm_marketing_events";
    load_crm_object fuel env "feedback_submissions" "crm_feedback_submissions";
    load_crm_object fuel env "partner-clients" "crm_partner_clients";
    load_crm_object fuel env "partner-services" "crm_partner_services";
    load_meeting_links fuel env;
    (campaigns <- load_campaigns fuel env ;; load_campaign_revenue env campaigns);
    load_currencies env;
    load_domains env;
    load_tax_rates env;
    load_comm_pref_definitions env ].

(** Statements one after the other: Python stops at the first that raises. *)
Fixpoint run_all (steps : list (M unit)) : M unit :=
  match steps with
  | [] => ret tt
  | step :: steps' => step ;;; run_all steps'
  end.

(** The module-level run sequence of the notebook. *)
Definition full_load (fuel : nat) (env : Env) : M unit :=
  run_all (load_owners fuel env :: loads_after_owners fuel env) ;;;
  print LogFullLoadComplete.

(* ===================================================================== *)
(** ** 02_hubspot_incremental_load_crm *)
(* ===================================================================== *)

Definition json_of_option_string (o : option string) : json :=
  match o with
  | Some s => JStr s
  | None => JNull
  end.

(** The search body of one iteration of [crm_search_since]. *)
Definition search_body (since_iso : option string)
    (properties : option (list string)) (limit : Z) (after : json) : json :=
  let body :=
    [ ("filterGroups",
       JArr [ JObj [ ("filters",
                      JArr [ JObj [ ("propertyName", JStr "hs_lastmodifieddate");
                                    ("operator", JStr "GTE");
                                    ("value", json_of_option_string since_iso) ] ]) ] ]);
      ("sorts", JArr [ JStr "hs_lastmodifieddate" ]);
      ("limit", JNum limit) ] in
  let body :=
    match properties with
    | Some (p :: ps) =>
        items_set "properties" (JArr (map JStr (p :: ps))) body
    | _ => body
    end in
  let body := if truthy after then items_set "after" after body else body in
  JObj body.

(** The [while True] of [crm_search_since]. *)
Fixpoint search_loop (fuel : nat) (env : Env) (object_name : string)
    (since_iso : option string) (properties : option (list string))
    (limit : Z) (after : json) (out : list json) : M (list json) :=
  match fuel with
  | O => fun _ => Fuel
  | S fuel' =>
      let body := search_body since_iso properties limit after in
      data <- hs_request_default env POST
                ("/crm/v3/objects/" +:+ object_name +:+ "/search")
                None (Some body) ;;
      results <- py_get_list data (Some "results") ;;
      items <- py_iter results ;;
      let out := out ++ items in
      after <- next_after data ;;
      if negb (truthy after) then ret out
      else search_loop fuel' env object_name since_iso properties limit after out
  end.

Definition crm_search_since (fuel : nat) (env : Env) (object_name : string)
    (since_iso : option string) (properties : option (list string))
    (limit : Z) : M (list json) :=
  search_loop fuel env object_name since_iso properties limit JNull [].

(** One iteration of [for r in rows]: the new value of [max_wm]
    ([None] while nothing was seen). *)
Definition max_wm_step (max_wm : option json) (r : json) : M (option json) :=
  props <- py_get r "properties" ;;
  v <- py_get (or_empty props) "hs_lastmodifieddate" ;;
  if negb (truthy v) then ret max_wm
  else match max_wm with
       | None => ret (Some v)
       | Some m =>
           match py_gt v m with
           | Some true => ret (Some v)
           | Some false => ret max_wm
           | None => raise TypeError
           end
       end.

Fixpoint max_wm_loop (rows : list json) (max_wm : option json)
  : M (option json) :=
  match rows with
  | [] => ret max_wm
  | r :: rows' =>
      max_wm' <- max_wm_step max_wm r ;;
      max_wm_loop rows' max_wm'
  end.

Definition incremental_object (fuel : nat) (env : Env)
    (object_name ent : string) : M unit :=
  since <- get_watermark_default ent ;;
  rows <- crm_search_since fuel env object_name since None 100 ;;
  write_bronze_delta env (JArr rows) ent Append ;;;
  match rows with
  | _ :: _ =>
      max_wm <- max_wm_loop rows None ;;
      match max_wm with
      | Some m =>
          if truthy m then
            set_watermark env ent "hs_lastmodifieddate" m ;;;
            print (LogWatermark ent m)
          else ret tt
      | None => ret tt
      end
  | [] => print (LogNoNewRows ent since)
  end.

Definition incremental_load (fuel : nat) (env : Env) : M unit :=
  incremental_object fuel env "feedback_submissions" "crm_feedback_submissions" ;;;
  print LogIncrementalComplete.

(* ===================================================================== *)
(** ** Reading runs *)
(* ===================================================================== *)

(** The state a run ends in, when it ends. *)
Definition final {A} (r : Result A) : option State :=
  match r with
  | Val _ s => Some s
  | Exc _ s => Some s
  | Fuel => None
  end.

(** A fresh cluster: nothing called, empty control table, empty bronze. *)
Definition init_state : State := mkState [] 0 0 0 0 [] ∅.

(** A run from the fresh cluster, as the list of what it did. *)
Definition events_of {A} (r : Result A) : list Event :=
  match final r with
  | Some s => trace s
  | None => []
  end.

Definition is_token (e : Event) : bool :=
  match e with EvToken _ => true | _ => false end.

Definition is_http (e : Event) : bool :=
  match e with EvHttp _ _ _ _ _ _ => true | _ => false end.

(** Network traffic and waiting, as opposed to writes and prints. *)
Definition is_api_event (e : Event) : bool :=
  match e with
  | EvToken _ | EvHttp _ _ _ _ _ _ | EvSleep _ => true
  | _ => false
  end.

(** How many times the token endpoint was called. *)
Definition token_fetches (evs : list Event) : nat :=
  length (List.filter is_token evs).

(** How many API requests were sent. *)
Definition http_attempts (evs : list Event) : nat :=
  length (List.filter is_http evs).

(** The bearer credential of each API request, in order. *)
Fixpoint bearers (evs : list Event) : list json :=
  match evs with
  | [] => []
  | EvHttp _ _ b _ _ _ :: evs' => b :: bearers evs'
  | _ :: evs' => bearers evs'
  end.

(** The query parameters of each API request, in order. *)
Fixpoint params_sent (evs : list Event) : list (option (gmap string json)) :=
  match evs with
  | [] => []
  | EvHttp _ _ _ p _ _ :: evs' => p :: params_sent evs'
  | _ :: evs' => params_sent evs'
  end.

(** The seconds of each [time.sleep], in order. *)
Fixpoint sleeps (evs : list Event) : list Z :=
  match evs with
  | [] => []
  | EvSleep n :: evs' => n :: sleeps evs'
  | _ :: evs' => sleeps evs'
  end.

(** The calls of [set_watermark] that reached the control table. *)
Fixpoint watermark_sets (evs : list Event)
  : list (string * string * option string) :=
  match evs with
  | [] => []
  | EvSetWatermark e t v :: evs' => (e, t, v) :: watermark_sets evs'
  | _ :: evs' => watermark_sets evs'
  end.

(** The batches committed to the sink, with their target and mode. *)
Fixpoint saves (evs : list Event) : list (string * Mode * list json) :=
  match evs with
  | [] => []
  | EvSave p m rs :: evs' => (p, m, rs) :: saves evs'
  | _ :: evs' => saves evs'
  end.

(** The lines printed. *)
Fixpoint printed (evs : list Event) : list Log :=
  match evs with
  | [] => []
  | EvPrint l :: evs' => l :: printed evs'
  | _ :: evs' => printed evs'
  end.

(** [v] is what [resp.json() if resp.text else {}] evaluates to. *)
Definition Decodes (resp : Response) (v : json) : Prop :=
  (text resp = "" /\ v = JObj []) \/
  (text resp <> "" /\ json_body_of resp = Some v).

(** How the retry loop of [hs_request] ends: [attempt] is the number of the
    last attempt, [last] its response, [s'] the state it leaves. The loop
    returns the decoded body, or raises for a body that does not decode, for
    a status that is not retried, for a transient status when the budget is
    used up, for a [Retry-After] that [int] does not convert, or for one
    that [time.sleep] does not take. *)
Inductive Ending (path : string) (max_retries : Z) (attempt : Z)
    (last : Response) (s' : State) : Result json -> Prop :=
| EndReturn v :
    status_code last < 300 -> Decodes last v ->
    Ending path max_retries attempt last s' (Val v s')
| EndBadBody :
    status_code last < 300 -> text last <> "" -> json_body_of last = None ->
    Ending path max_retries attempt last s' (Exc JSONDecodeError s')
| EndFatal :
    300 <= status_code last -> is_transient (status_code last) = false ->
    Ending path max_retries attempt last s'
           (Exc (HubSpotApiError (status_code last) path (text last)) s')
| EndExhausted :
    is_transient (status_code last) = true -> max_retries < attempt ->
    Ending path max_retries attempt last s'
           (Exc (HubSpotApiError (status_code last) path (text last)) s')
| EndBadHeader lit :
    is_transient (status_code last) = true -> attempt <= max_retries ->
    headers_get "Retry-After" (headers last) = Some lit ->
    isdigit lit = true -> py_int lit = None ->
    Ending path max_retries attempt last s' (Exc (ValueError lit) s')
| EndLongSleep lit n :
    is_transient (status_code last) = true -> attempt <= max_retries ->
    headers_get "Retry-After" (headers last) = Some lit ->
    py_int lit = Some n -> sleep_max < n ->
    Ending path max_retries attempt last s' (Exc OverflowError s').

(* ===================================================================== *)
(** ** The shape of well-behaved answers *)
(* ===================================================================== *)

(** The token endpoint answers a refresh with the token [tok]. *)
Definition TokenOk (resp : Response) (tok : json) : Prop :=
  status_code resp < 300 /\
  exists o, json_body_of resp = Some (JObj o) /\
            items_get "access_token" o = Some tok.

(** The [n]-th API answer is a success whose body decodes to [doc]. *)
Definition Serves (env : Env) (n : nat) (doc : json) : Prop :=
  status_code (api_response env n) < 300 /\ Decodes (api_response env n) doc.

(** A key that is missing, or present with a falsy value. *)
Definition absent (x : option json) : Prop :=
  match x with
  | None => True
  | Some v => truthy v = false
  end.

(** The envelope [o] carries the cursor [c] at [paging.next.after]. *)
Definition HasCursor (o : list (string * json)) (c : json) : Prop :=
  exists po no,
    items_get "paging" o = Some (JObj po) /\
    items_get "next" po = Some (JObj no) /\
    items_get "after" no = Some c /\ truthy c = true.

(** The envelope [o] carries no cursor: [paging], [next] or [after] is
    missing, null or empty. *)
Definition NoCursor (o : list (string * json)) : Prop :=
  absent (items_get "paging" o) \/
  exists po, items_get "paging" o = Some (JObj po) /\
    (absent (items_get "next" po) \/
     exists no, items_get "next" po = Some (JObj no) /\
                absent (items_get "after" no)).

(** [doc] is a page envelope with the records [results] under [key], and the
    cursor [cursor] if it has one. *)
Definition Page (key : string) (doc : json) (results : list json)
    (cursor : option json) : Prop :=
  exists o,
    doc = JObj o /\
    (items_get key o = Some (JArr results) \/
     (items_get key o = None /\ results = [])) /\
    match cursor with
    | Some c => HasCursor o c
    | None => NoCursor o
    end.

(** An operation that only computes: it ends in the state it started in. *)
Definition Pure {A} (m : M A) : Prop := forall s, final (m s) = Some s.

(** [max_wm] is the greatest of the values [seen] so far ([None] while none
    was seen). *)
Definition Best (max_wm : option json) (seen : list string) : Prop :=
  match max_wm with
  | None => seen = []
  | Some j =>
      exists m, j = JStr m /\ m <> "" /\ In m seen /\
                forall v, In v seen -> String.leb v m = true
  end.

(** The retry delay in the words of the specification: the [Retry-After]
    value when the header is there and is a decimal integer, and
    [min(60, 2^attempt)] otherwise. *)
Definition spec_delay (resp : Response) (attempt : Z) : Z :=
  match headers_get "Retry-After" (headers resp) with
  | Some v =>
      match decimal v with
      | Some n => n
      | None => Z.min 60 (2 ^ attempt)
      end
  | None => Z.min 60 (2 ^ attempt)
  end.

(** The [Retry-After] of [resp], if [isdigit] accepts it, is a delay the code
    can sleep: a decimal integer that [int] converts (at most
    [int_max_str_digits] digits) and [time.sleep] takes (at most [sleep_max]
    seconds). *)
Definition SaneRetryAfter (resp : Response) : Prop :=
  forall v, headers_get "Retry-After" (headers resp) = Some v ->
            isdigit v = true -> exists n, py_int v = Some n /\ n <= sleep_max.

(** A Python dict. *)
Definition IsDict (x : json) : Prop := exists o, x = JObj o.

(** [s'] comes after [s] without a write to the control table: the table is
    the same and the trace grew by events that are no [set_watermark]. *)
Definition Untouched (s s' : State) : Prop :=
  watermarks s' = watermarks s /\
  exists evs, trace s' = trace s ++ evs /\ watermark_sets evs = [].

(** [r] is a record whose change-tracking field [hs_lastmodifieddate] holds
    the string [v]; [None] when the record carries no value there (no or
    empty [properties], no field, or a null or empty field). *)
Definition Modified (r : json) (v : option string) : Prop :=
  exists o,
    r = JObj o /\
    ((absent (items_get "properties" o) /\ v = None) \/
     exists po,
       items_get "properties" o = Some (JObj po) /\
       match v with
       | Some m => items_get "hs_lastmodifieddate" po = Some (JStr m) /\ m <> ""
       | None => absent (items_get "hs_lastmodifieddate" po)
       end).

(** The values that are there. *)
Definition present (vals : list (option string)) : list string :=
  omap id vals.

(** [r] is a record that carries the non-empty string [m] in its
    change-tracking field, [properties.hs_lastmodifieddate]. *)
Definition Carries (r : json) (m : string) : Prop :=
  exists o po,
    r = JObj o /\ items_get "properties" o = Some (JObj po) /\
    items_get "hs_lastmodifieddate" po = Some (JStr m) /\ m <> "".

(** From its [n]-th answer on, the API serves the pages [firsts] one after
    the other: each is a success that decodes to the envelope [doc], which
    holds the records [rs] and the cursor [c]. *)
Fixpoint PagesServed (env : Env) (key : string) (n : nat)
    (firsts : list (json * list json * json)) : Prop :=
  match firsts with
  | [] => True
  | (doc, rs, c) :: rest =>
      Serves env n doc /\ Page key doc rs (Some c) /\
      PagesServed env key (S n) rest
  end.

Definition records_of (firsts : list (json * list json * json)) : list json :=
  concat (map (fun x => snd (fst x)) firsts).

Definition cursors_of (firsts : list (json * list json * json)) : list json :=
  map snd firsts.

(* ===================================================================== *)
(** ** Concrete environments *)
(* ===================================================================== *)

(** Scripted answers: the [n]-th call gets the [n]-th element, and [d] once
    the script is over. *)
Definition script {A} (l : list A) (d : A) : nat -> A := fun n => nth n l d.

(** A token endpoint that hands out the token ["tok"]. *)
Definition token_ok : Response :=
  mkResponse 200 "{...}" [] (Some (JObj [("access_token", JStr "tok")])).

(** A 200 whose body decodes to [v]. *)
Definition ok_with (v : json) : Response := mkResponse 200 "{...}" [] (Some v).

(** A failure with the given status and headers, and no body. *)
Definition failure (status : Z) (hs : list (string * string)) : Response :=
  mkResponse status "" hs None.

(** An account whose token endpoint always answers and whose Spark jobs meet
    the faults of [faults]. *)
Definition account (api : nat -> Response) (faults : nat -> option SinkFault)
  : Env :=
  mkEnv "https://api.hubapi.com" "dbfs:/mnt/datalake/bronze/hubspot"
        (fun _ => token_ok) api faults (fun n => Z.of_nat n) (fun _ => "?")
        (fun _ => "?").

Definition no_faults : nat -> option SinkFault := fun _ => None.

(** A page envelope [{"results": [...], "paging": {"next": {"after": c}}}];
    without a cursor the ["paging"] key is absent. *)
Definition page (results : list json) (cursor : option json) : json :=
  JObj (("results", JArr results) ::
        match cursor with
        | Some c => [("paging", JObj [("next", JObj [("after", c)])])]
        | None => []
        end).

(** A CRM record with the given id and [hs_lastmodifieddate]. *)
Definition crm_record (id : string) (modified : string) : json :=
  JObj [("id", JStr id);
        ("properties", JObj [("hs_lastmodifieddate", JStr modified)])].

(** The one-character string U+00B2 (superscript two). *)
Definition superscript_two : string := String (ascii_of_N 178) EmptyString.

(** An API that answers 503 once and 200 from then on. *)
Definition api_503_then_200 : nat -> Response :=
  script [failure 503 []] (ok_with (JObj [("ok", JBool true)])).

(** An API that answers 429 with [Retry-After: U+00B2] once and 200 from then
    on. *)
Definition api_429_superscript : nat -> Response :=
  script [failure 429 [("Retry-After", superscript_two)]]
         (ok_with (JObj [("ok", JBool true)])).

(** An API that answers 429 with [Retry-After: 7], then 503 without the
    header, then 200. *)
Definition api_429_503_200 : nat -> Response :=
  script [failure 429 [("retry-after", "7")]; failure 503 []]
         (ok_with (JObj [("ok", JBool true)])).

(** An API that answers 429 with [Retry-After: 99999999999999999999] once
    and 200 from then on. *)
Definition api_429_long_sleep : nat -> Response :=
  script [failure 429 [("Retry-After", "99999999999999999999")]]
         (ok_with (JObj [("ok", JBool true)])).

(** A run of 4301 nines. *)
Definition nines_4301 : string := string_of_list_ascii (repeat "9"%char 4301).

(** An API that answers 503 with a [Retry-After] of 4301 digits once and 200
    from then on. *)
Definition api_503_long_number : nat -> Response :=
  script [failure 503 [("Retry-After", nines_4301)]]
         (ok_with (JObj [("ok", JBool true)])).

(** The pages P1 (cursor ["a"]), P2 (cursor ["b"]) and P3 (no cursor). *)
Definition page1 : json :=
  page [crm_record "1" "2024-05-01T10:00:00.000Z"] (Some (JStr "a")).

Definition page2 : json :=
  page [crm_record "2" "2024-05-03T10:00:00.000Z";
        crm_record "3" "2024-05-02T10:00:00.000Z"] (Some (JStr "b")).

Definition page3 : json :=
  page [crm_record "4" "2024-05-02T12:00:00.000Z"] None.

Definition api_three_pages : nat -> Response :=
  script [ok_with page1; ok_with page2] (ok_with page3).

(** A control table with two entities, one of them with a history. *)
Definition control_table : list WatermarkRow :=
  [ mkRow "crm_feedback_submissions" "hs_lastmodifieddate"
          (Some "2024-04-01T00:00:00.000Z") (Some 10);
    mkRow "crm_contacts" "hs_lastmodifieddate"
          (Some "2024-03-01T00:00:00.000Z") (Some 11);
    mkRow "crm_feedback_submissions" "hs_lastmodifieddate"
          (Some "2024-02-01T00:00:00.000Z") None ].

(** The state a run ended in (the fresh cluster if it did not end). *)
Definition state_after {A} (r : Result A) : State := default init_state (final r).

(** The URL of each API request, in order. *)
Fixpoint urls_requested (evs : list Event) : list string :=
  match evs with
  | [] => []
  | EvHttp _ u _ _ _ _ :: evs' => u :: urls_requested evs'
  | _ :: evs' => urls_requested evs'
  end.

(** Three campaigns; the revenue report of the second one is a 404. *)
Definition campaign (id : string) : list (string * json) :=
  [("id", JStr id); ("name", JStr "launch")].

Definition revenue_report (amount : Z) : json :=
  JObj [("revenueAmount", JNum amount)].

Definition api_second_report_fails : nat -> Response :=
  script [ok_with (revenue_report 10); failure 404 []]
         (ok_with (revenue_report 30)).

(** The owners list answers with one page; every later request is a 404. *)
Definition api_owners_then_404 : nat -> Response :=
  script [ok_with (page [JObj [("id", JStr "owner-1")]] None)] (failure 404 []).

(** The watermark the incremental examples start from. *)
Definition watermark_before : string := "2024-04-01T00:00:00.000Z".

Definition fail_first_write : nat -> option SinkFault :=
  script [Some BeforeCommit] None.

(** A search answer whose only record has no [properties]. *)
Definition api_record_without_properties : nat -> Response :=
  script [] (ok_with (page [JObj [("id", JStr "1")]] None)).

(** A search answer with three records, the second without [properties]. *)
Definition api_record_among_others : nat -> Response :=
  script [] (ok_with (page [crm_record "1" "2024-05-02T10:00:00.000Z";
                            JObj [("id", JStr "2")];
                            crm_record "3" "2024-05-01T10:00:00.000Z"] None)).

(* ===================================================================== *)
(** ** Frames: what a run leaves alone *)
(* ===================================================================== *)

(** [s'] comes after [s] by network traffic only: the trace grew by token
    refreshes, requests and sleeps, and neither the control table, nor the
    sink, nor the clock was used. *)
Definition ApiOnly (s s' : State) : Prop :=
  (exists evs, trace s' = trace s ++ evs /\
               Forall (fun e => is_api_event e = true) evs) /\
  watermarks s' = watermarks s /\ bronze s' = bronze s /\
  sink_calls s' = sink_calls s /\ ticks s' = ticks s.

(** Every run of [m] that ends relates the state it started in to the state
    it ended in by [R], whether it returned or raised. *)
Definition Frame (R : State -> State -> Prop) {A} (m : M A) : Prop :=
  forall s s', final (m s) = Some s' -> R s s'.

(** The rows of [ent] in the control table are the same. *)
Definition SameRows (ent : string) (s s' : State) : Prop :=
  rows_of ent (watermarks s') = rows_of ent (watermarks s).

(** The sink is as it was: same datasets, no Spark job started, no commit in
    the trace. *)
Definition SinkIdle (s s' : State) : Prop :=
  bronze s' = bronze s /\ sink_calls s' = sink_calls s /\
  exists evs, trace s' = trace s ++ evs /\ saves evs = [].

(** The JSON body of each API request, in order. *)
Fixpoint bodies_sent (evs : list Event) : list (option json) :=
  match evs with
  | [] => []
  | EvHttp _ _ _ _ b _ :: evs' => b :: bodies_sent evs'
  | _ :: evs' => bodies_sent evs'
  end.

(** The method of each API request, in order. *)
Fixpoint methods_sent (evs : list Event) : list Method :=
  match evs with
  | [] => []
  | EvHttp m _ _ _ _ _ :: evs' => m :: methods_sent evs'
  | _ :: evs' => methods_sent evs'
  end.

(** An account whose token endpoint refuses the refresh with a 401. *)
Definition locked_out (api : nat -> Response) : Env :=
  mkEnv "https://api.hubapi.com" "dbfs:/mnt/datalake/bronze/hubspot"
        (fun _ => mkResponse 401 "BAD_REFRESH_TOKEN" [] None)
        api no_faults (fun n => Z.of_nat n) (fun _ => "?") (fun _ => "?").

(** An API that is down: 503 without [Retry-After], always. *)
Definition api_always_503 : nat -> Response := script [] (failure 503 []).

(** An API that answers every request with the same page and the same
    cursor. *)
Definition api_same_cursor : nat -> Response := script [] (ok_with page1).

(** An API that serves page P1 and answers every later request with 404. *)
Definition api_page_then_404 : nat -> Response :=
  script [ok_with page1] (failure 404 []).





(** The campaign [c] is a dict with the id [guid], which is not empty. *)
Definition HasId (c : json) (guid : json) : Prop :=
  exists o, c = JObj o /\ items_get "id" o = Some guid /\ truthy guid = true.







(** Settings answers: a top-level list, and a dict with ["results"]. *)
Definition api_currency_list : nat -> Response :=
  script [] (ok_with (JArr [JObj [("code", JStr "EUR")]; JObj [("code", JStr "USD")]])).

(* ===================================================================== *)
(** * Theorems *)
(* ===================================================================== *)

(** ** The retry loop of [hs_request] *)

Lemma is_transient_ge_300 (status : Z) :
  is_transient status = true -> 300 <= status.
Proof.
  unfold is_transient. rewrite !orb_true_iff, !Z.eqb_eq. lia.
Qed.

Lemma decimal_value_nonneg (s : string) :
  forall acc, 0 <= acc -> all_chars is_ascii_digit s = true ->
              0 <= decimal_value acc s.
Proof.
  induction s as [|c s IH]; intros acc Hacc Hd; [exact Hacc|].
  simpl in Hd |- *. apply andb_true_iff in Hd as [Hc Hs].
  apply IH; [|exact Hs].
  unfold is_ascii_digit in Hc. apply andb_true_iff in Hc as [Hlo _].
  apply N.leb_le in Hlo. lia.
Qed.

Lemma decimal_nonneg (s : string) (n : Z) : decimal s = Some n -> 0 <= n.
Proof.
  unfold decimal.
  destruct (negb (String.eqb s "") && all_chars is_ascii_digit s) eqn:Hd;
    [|discriminate].
  intros [= <-]. apply andb_true_iff in Hd as [_ Hd].
  apply decimal_value_nonneg; [lia|exact Hd].
Qed.

(** What [int] converts is a decimal integer. *)
Lemma py_int_decimal (s : string) (n : Z) :
  py_int s = Some n -> decimal s = Some n.
Proof.
  unfold py_int. destruct (decimal s) as [m|]; [|discriminate].
  destruct (String.length s <=? int_max_str_digits)%nat; [|discriminate].
  intros [= <-]. reflexivity.
Qed.

Lemma py_int_nonneg (s : string) (n : Z) : py_int s = Some n -> 0 <= n.
Proof. intros H. eapply decimal_nonneg, py_int_decimal, H. Qed.

Lemma pow2_min_bounds (attempt : Z) : 0 <= Z.min 60 (2 ^ attempt) <= 60.
Proof. pose proof (Z.pow_nonneg 2 attempt). lia. Qed.

(** The delay the code computes is never negative; a delay of more than 60
    seconds is the [Retry-After] value. The computation raises only when
    [isdigit] accepts a header that [int] rejects. *)
Lemma sleep_seconds_cases (resp : Response) (attempt : Z) (s : State) :
  (exists n, sleep_seconds resp attempt s = Val n s /\ 0 <= n /\
             (n <= 60 \/
              exists lit, headers_get "Retry-After" (headers resp) = Some lit /\
                          py_int lit = Some n)) \/
  (exists lit, headers_get "Retry-After" (headers resp) = Some lit /\
               isdigit lit = true /\ py_int lit = None /\
               sleep_seconds resp attempt s = Exc (ValueError lit) s).
Proof.
  pose proof (pow2_min_bounds attempt) as Hpow.
  unfold sleep_seconds.
  destruct (headers_get "Retry-After" (headers resp)) as [lit|];
    [|left; eexists; split; [reflexivity|split; [lia|left; lia]]].
  destruct (negb (String.eqb lit "") && isdigit lit) eqn:Hd;
    [|left; eexists; split; [reflexivity|split; [lia|left; lia]]].
  apply andb_true_iff in Hd as [_ Hd].
  destruct (py_int lit) as [n|] eqn:Hi.
  - left. exists n. split; [reflexivity|].
    split; [eapply py_int_nonneg; exact Hi|]. right. exists lit. auto.
  - right. exists lit. auto.
Qed.

(** [time.sleep] of a delay that is not negative sleeps it, or overflows. *)
Lemma time_sleep_cases (n : Z) (s : State) :
  0 <= n ->
  (n <= sleep_max /\ time_sleep n s = Val tt (log_event (EvSleep n) s)) \/
  (sleep_max < n /\ time_sleep n s = Exc OverflowError s).
Proof.
  intros Hn. unfold time_sleep.
  replace (n <? 0) with false by (symmetry; apply Z.ltb_ge; exact Hn).
  destruct (sleep_max <? n) eqn:E.
  - right. apply Z.ltb_lt in E. auto.
  - left. apply Z.ltb_ge in E. auto.
Qed.

Section RetryLoop.
Variables (env : Env) (method : Method) (url path : string) (bearer : json).
Variables (params : option (gmap string json)) (json_body : option json).
Variables (max_retries timeout_s : Z).

Let loop fuel attempt :=
  hs_request_loop fuel env method url path bearer params json_body
                  max_retries timeout_s attempt.

(** With fuel for every retry the budget allows, the loop ends after [k]
    attempts of which all but the last met a transient status, and the last
    response decides the result. *)
Lemma hs_request_loop_ends (fuel : nat) :
  forall (attempt : Z) (s : State),
    (1 <= fuel)%nat -> max_retries - attempt < Z.of_nat fuel ->
    exists (k : nat) (s' : State),
      (1 <= k)%nat /\
      (k = 1%nat \/ attempt + Z.of_nat k <= max_retries + 1) /\
      api_calls s' = (api_calls s + k)%nat /\
      token_calls s' = token_calls s /\
      (forall j, (j < k - 1)%nat ->
         is_transient (status_code (api_response env (api_calls s + j))) = true) /\
      Ending path max_retries (attempt + Z.of_nat k)
             (api_response env (api_calls s + k - 1)) s'
             (loop fuel attempt s).
Proof.
  induction fuel as [|f IH]; intros attempt s Hf Hm; [lia|].
  unfold loop; simpl. unfold bind at 1, requests_request.
  set (resp := api_response env (api_calls s)).
  set (s1 := bump_api _).
  assert (Hlast : api_response env (api_calls s + 1 - 1) = resp)
    by (unfold resp; f_equal; lia).
  destruct (status_code resp <? 300) eqn:E300.
  { apply Z.ltb_lt in E300.
    exists 1%nat, s1. rewrite Hlast.
    split; [lia|]. split; [auto|]. split; [simpl; lia|]. split; [reflexivity|].
    split; [intros j Hj; lia|].
    destruct (String.eqb (text resp) "") eqn:Et.
    - apply String.eqb_eq in Et. apply EndReturn; [lia|left; auto].
    - apply String.eqb_neq in Et.
      destruct (json_body_of resp) as [v|] eqn:Hj.
      + apply EndReturn; [lia|right; auto].
      + apply EndBadBody; auto. }
  apply Z.ltb_ge in E300.
  destruct (is_transient (status_code resp)) eqn:Etr; simpl.
  2:{ exists 1%nat, s1. rewrite Hlast.
      split; [lia|]. split; [auto|]. split; [simpl; lia|]. split; [reflexivity|].
      split; [intros j Hj; lia|]. apply EndFatal; auto. }
  destruct (attempt + 1 <=? max_retries) eqn:Ele.
  2:{ apply Z.leb_gt in Ele.
      exists 1%nat, s1. rewrite Hlast.
      split; [lia|]. split; [auto|]. split; [simpl; lia|]. split; [reflexivity|].
      split; [intros j Hj; lia|]. apply EndExhausted; [auto|lia]. }
  apply Z.leb_le in Ele.
  unfold bind at 1.
  destruct (sleep_seconds_cases resp (attempt + 1) s1)
    as [(n & Hn & Hn0 & Hfrom)|(lit & Hh & Hd & Hi & Hn)]; rewrite Hn.
  2:{ exists 1%nat, s1. rewrite Hlast.
      split; [lia|]. split; [auto|]. split; [simpl; lia|]. split; [reflexivity|].
      split; [intros j Hj; lia|]. eapply EndBadHeader; eauto; lia. }
  unfold bind at 1.
  destruct (time_sleep_cases n s1 Hn0) as [[Hle Hsl]|[Hgt Hsl]]; rewrite Hsl.
  2:{ exists 1%nat, s1. rewrite Hlast.
      split; [lia|]. split; [auto|]. split; [simpl; lia|]. split; [reflexivity|].
      split; [intros j Hj; lia|].
      destruct Hfrom as [H60|(lit & Hh & Hi)]; [unfold sleep_max in Hgt; lia|].
      eapply EndLongSleep; eauto; lia. }
  set (s2 := log_event (EvSleep n) s1).
  destruct (IH (attempt + 1) s2) as (k & s' & Hk1 & Hk & Hapi & Htok & Hall & Hend);
    [lia|lia|].
  assert (Hs2 : api_calls s2 = S (api_calls s)) by reflexivity.
  exists (S k), s'.
  split; [lia|]. split; [right; lia|].
  split; [rewrite Hapi, Hs2; lia|]. split; [rewrite Htok; reflexivity|].
  split.
  - intros j Hj. destruct j as [|j].
    + rewrite Nat.add_0_r. exact Etr.
    + replace (api_calls s + S j)%nat with (api_calls s2 + j)%nat
        by (rewrite Hs2; lia).
      apply Hall. lia.
  - replace (attempt + Z.of_nat (S k)) with (attempt + 1 + Z.of_nat k) by lia.
    replace (api_calls s + S k - 1)%nat with (api_calls s2 + k - 1)%nat
      by (rewrite Hs2; lia).
    exact Hend.
Qed.

(** What the loop adds to the trace: requests that all carry [bearer], and
    sleeps; it never calls the token endpoint. *)
Lemma hs_request_loop_trace (fuel : nat) :
  forall (attempt : Z) (s s' : State),
    final (loop fuel attempt s) = Some s' ->
    exists evs,
      trace s' = trace s ++ evs /\
      token_fetches evs = 0%nat /\
      Forall (fun e => is_api_event e = true) evs /\
      bearers evs = replicate (api_calls s' - api_calls s) bearer /\
      (api_calls s <= api_calls s')%nat /\
      watermarks s' = watermarks s /\ bronze s' = bronze s /\
      sink_calls s' = sink_calls s /\ ticks s' = ticks s.
Proof.
  induction fuel as [|f IH]; intros attempt s s' Hfin; [discriminate|].
  unfold loop in Hfin; simpl in Hfin.
  unfold bind at 1, requests_request in Hfin.
  set (resp := api_response env (api_calls s)) in *.
  set (ev := EvHttp method url bearer params json_body timeout_s) in *.
  set (s1 := bump_api (log_event ev s)) in *.
  assert (Hone : forall r : Result json, final r = Some s' ->
            final r = Some s1 ->
            exists evs, trace s' = trace s ++ evs /\
              token_fetches evs = 0%nat /\
              Forall (fun e => is_api_event e = true) evs /\
              bearers evs = replicate (api_calls s' - api_calls s) bearer /\
              (api_calls s <= api_calls s')%nat /\
              watermarks s' = watermarks s /\ bronze s' = bronze s /\
              sink_calls s' = sink_calls s /\ ticks s' = ticks s).
  { intros r H1 H2. rewrite H1 in H2. injection H2 as ->.
    exists [ev]. simpl.
    replace (S (api_calls s) - api_calls s)%nat with 1%nat by lia.
    repeat split; auto. }
  destruct (status_code resp <? 300).
  { eapply Hone; [exact Hfin|].
    destruct (String.eqb (text resp) ""); [reflexivity|].
    destruct (json_body_of resp); reflexivity. }
  destruct (is_transient (status_code resp) && (attempt + 1 <=? max_retries)).
  2:{ eapply Hone; [exact Hfin|reflexivity]. }
  unfold bind at 1 in Hfin.
  destruct (sleep_seconds_cases resp (attempt + 1) s1)
    as [(n & Hn & Hn0 & _)|(lit & _ & _ & _ & Hn)]; rewrite Hn in Hfin.
  2:{ eapply Hone; [exact Hfin|reflexivity]. }
  unfold bind at 1 in Hfin.
  destruct (time_sleep_cases n s1 Hn0) as [[_ Hsl]|[_ Hsl]]; rewrite Hsl in Hfin.
  2:{ eapply Hone; [exact Hfin|reflexivity]. }
  set (s2 := log_event (EvSleep n) s1) in *.
  apply IH in Hfin as (evs & Htr & Htok & Hev & Hb & Hle & Hw & Hbr & Hsk & Htk).
  assert (Hs2 : api_calls s2 = S (api_calls s)) by reflexivity.
  exists (ev :: EvSleep n :: evs).
  split; [rewrite Htr; simpl; rewrite <- !app_assoc; reflexivity|].
  split; [exact Htok|].
  split; [repeat constructor; exact Hev|].
  split.
  - simpl. rewrite Hb, Hs2.
    replace (api_calls s' - api_calls s)%nat
      with (S (api_calls s' - S (api_calls s)))%nat by lia.
    reflexivity.
  - split; [lia|]. rewrite Hw, Hbr, Hsk, Htk. repeat split; reflexivity.
Qed.
End RetryLoop.

(** ** [hs_request] *)

Lemma bearers_length (evs : list Event) :
  length (bearers evs) = http_attempts evs.
Proof.
  unfold http_attempts.
  induction evs as [|ev evs IH]; [reflexivity|].
  destruct ev; simpl; auto.
Qed.

Lemma Ending_final path max_retries attempt last s' (r : Result json) :
  Ending path max_retries attempt last s' r -> final r = Some s'.
Proof. intros H; inversion H; reflexivity. Qed.

(** The token refresh is one call of the token endpoint, whatever it
    answers. *)
Lemma get_access_token_cases (env : Env) (s : State) :
  let s1 := bump_token (log_event (EvToken (BASE_URL env +:+ "/oauth/v1/token")) s) in
  (exists tok, get_access_token env s = Val tok s1) \/
  (exists e, get_access_token env s = Exc e s1).
Proof.
  unfold get_access_token, bind, post_token; simpl.
  destruct (status_code (token_response env (token_calls s)) >=? 300);
    [right; eauto|].
  unfold access_token_of.
  destruct (json_body_of (token_response env (token_calls s))) as [[| | | | |o]|];
    try (right; eexists; reflexivity).
  destruct (items_get "access_token" o); [left|right]; eexists; reflexivity.
Qed.

(** C10. [hs_request] ends for every sequence of responses: either the token
    refresh raises before any attempt, or the loop makes [k] attempts with
    [1 <= k <= max_retries + 1], all but the last one answered with a
    transient status, and the last response decides:
    a status below 300 returns the decoded body (or raises if it does not
    decode), a non-retryable status or an exhausted budget raises the API
    error, a [Retry-After] that [isdigit] accepts and [int] rejects (a
    superscript digit, more than 4300 digits) raises [ValueError], and a
    [Retry-After] of more seconds than [time.sleep] takes raises
    [OverflowError]. *)
Theorem hs_request_terminates (env : Env) (method : Method) (path : string)
    (params : option (gmap string json)) (json_body : option json)
    (max_retries timeout_s : Z) (s : State) :
  0 <= max_retries ->
  let run := hs_request env method path params json_body
                             max_retries timeout_s s in
  (exists e s', run = Exc e s' /\ get_access_token env s = Exc e s' /\
                api_calls s' = api_calls s) \/
  (exists (k : nat) (s' : State),
      (1 <= k)%nat /\ Z.of_nat k <= max_retries + 1 /\
      api_calls s' = (api_calls s + k)%nat /\
      (forall j, (j < k - 1)%nat ->
         is_transient (status_code (api_response env (api_calls s + j))) = true) /\
      Ending path max_retries (Z.of_nat k)
             (api_response env (api_calls s + k - 1)) s' run).
Proof.
  intros Hmax run. unfold run, hs_request, bind.
  destruct (get_access_token_cases env s) as [[tok Ht]|[e Ht]]; rewrite Ht.
  2:{ left. exists e. eexists. split; [reflexivity|]. split; reflexivity. }
  right.
  set (s1 := bump_token _).
  destruct (hs_request_loop_ends env method (BASE_URL env +:+ path) path tok
              params json_body max_retries timeout_s
              (hs_request_fuel max_retries) 0 s1)
    as (k & s' & Hk1 & Hk & Hapi & _ & Hall & Hend).
  { unfold hs_request_fuel; lia. }
  { unfold hs_request_fuel; lia. }
  exists k, s'. split; [exact Hk1|]. split; [lia|].
  split; [exact Hapi|]. split; [exact Hall|]. exact Hend.
Qed.

(** The same without a bound on [max_retries]: the model's fuel is never the
    reason a call of [hs_request] stops. *)
Lemma hs_request_final (env : Env) (method : Method) (path : string)
    (params : option (gmap string json)) (json_body : option json)
    (max_retries timeout_s : Z) (s : State) :
  exists s', final (hs_request env method path params json_body
                                    max_retries timeout_s s) = Some s'.
Proof.
  unfold hs_request, bind.
  destruct (get_access_token_cases env s) as [[tok Ht]|[e Ht]]; rewrite Ht;
    [|eexists; reflexivity].
  set (s1 := bump_token _).
  destruct (hs_request_loop_ends env method (BASE_URL env +:+ path) path tok
              params json_body max_retries timeout_s
              (hs_request_fuel max_retries) 0 s1)
    as (k & s' & _ & _ & _ & _ & _ & Hend);
    [unfold hs_request_fuel; lia|unfold hs_request_fuel; lia|].
  exists s'. eapply Ending_final; exact Hend.
Qed.

(** Everything a call of [hs_request] does: one token refresh, then attempts
    and sleeps; it touches neither the control table nor the sink. *)
Lemma hs_request_run (env : Env) (method : Method)
    (path : string) (params : option (gmap string json))
    (json_body : option json) (max_retries timeout_s : Z) (s : State) :
  exists (s' : State) (evs : list Event) (tok : json),
    final (hs_request env method path params json_body
                           max_retries timeout_s s) = Some s' /\
    trace s' = trace s ++ EvToken (BASE_URL env +:+ "/oauth/v1/token") :: evs /\
    token_fetches evs = 0%nat /\
    Forall (fun e => is_api_event e = true) evs /\
    token_calls s' = S (token_calls s) /\
    bearers evs = replicate (api_calls s' - api_calls s) tok /\
    ((0 < api_calls s' - api_calls s)%nat ->
     exists s1, get_access_token env s = Val tok s1) /\
    watermarks s' = watermarks s /\ bronze s' = bronze s /\
    sink_calls s' = sink_calls s /\ ticks s' = ticks s.
Proof.
  destruct (hs_request_final env method path params json_body
              max_retries timeout_s s) as [s' Hfin].
  exists s'. revert Hfin. unfold hs_request, bind.
  destruct (get_access_token_cases env s) as [[tok Ht]|[e Ht]]; rewrite Ht.
  2:{ simpl. intros [= <-]. exists [], JNull. simpl.
      rewrite Nat.sub_diag. repeat split; auto. intros; lia. }
  set (s1 := bump_token _). intros Hfin.
  pose proof Hfin as Hfin'.
  apply hs_request_loop_trace in Hfin'
    as (evs & Htr & Htok & Hev & Hb & Hle & Hw & Hbr & Hsk & Htk).
  exists evs, tok. split; [exact Hfin|].
  split; [rewrite Htr; simpl; rewrite <- app_assoc; reflexivity|].
  split; [exact Htok|]. split; [exact Hev|].
  assert (Htc : token_calls s' = token_calls s1).
  { destruct (hs_request_loop_ends env method (BASE_URL env +:+ path) path tok
                params json_body max_retries timeout_s
                (hs_request_fuel max_retries) 0 s1)
      as (k & s'' & _ & _ & _ & Htc & _ & Hend);
      [unfold hs_request_fuel; lia|unfold hs_request_fuel; lia|].
    apply Ending_final in Hend. rewrite Hend in Hfin. injection Hfin as <-.
    exact Htc. }
  split; [rewrite Htc; reflexivity|].
  split; [exact Hb|].
  split; [intros _; eexists; reflexivity|].
  rewrite Hw, Hbr, Hsk, Htk. repeat split; reflexivity.
Qed.

(** C1, as the code has it. A call of [hs_request] refreshes the token exactly
    once, before the first attempt; every attempt of the call, retries
    included, carries that one token. *)
Theorem hs_request_one_token_per_call (env : Env) (method : Method)
    (path : string) (params : option (gmap string json))
    (json_body : option json) (max_retries timeout_s : Z) (s : State) :
  exists (s' : State) (evs : list Event) (tok : json),
    final (hs_request env method path params json_body
                           max_retries timeout_s s) = Some s' /\
    trace s' = trace s ++ EvToken (BASE_URL env +:+ "/oauth/v1/token") :: evs /\
    token_fetches evs = 0%nat /\
    token_calls s' = S (token_calls s) /\
    bearers evs = replicate (api_calls s' - api_calls s) tok /\
    http_attempts evs = (api_calls s' - api_calls s)%nat /\
    ((0 < api_calls s' - api_calls s)%nat ->
     exists s1, get_access_token env s = Val tok s1).
Proof.
  destruct (hs_request_run env method path params json_body
              max_retries timeout_s s)
    as (s' & evs & tok & Hfin & Htr & Htok & _ & Htc & Hb & Hget & _).
  exists s', evs, tok.
  split; [exact Hfin|]. split; [exact Htr|]. split; [exact Htok|].
  split; [exact Htc|]. split; [exact Hb|]. split; [|exact Hget].
  rewrite <- bearers_length, Hb. apply length_replicate.
Qed.

(** C1, as the specification words it, fails: with one 503 before the 200 the
    call makes two attempts and refreshes the token once. *)
Lemma hs_request_retry_reuses_token :
  let evs := events_of (hs_request_default (account api_503_then_200 no_faults)
                                   GET "/crm/v3/owners/" None None init_state) in
  http_attempts evs = 2%nat /\ token_fetches evs = 1%nat /\
  token_fetches evs <> http_attempts evs.
Proof. vm_compute. repeat split; discriminate. Qed.

Lemma hs_request_terminates_witness :
  0 <= 6 /\
  let env := account api_429_503_200 no_faults in
  let run := hs_request env GET "/crm/v3/owners/" None None 6 120 init_state in
  (exists e s', run = Exc e s' /\ get_access_token env init_state = Exc e s' /\
                api_calls s' = api_calls init_state) \/
  (exists (k : nat) (s' : State),
      (1 <= k)%nat /\ Z.of_nat k <= 6 + 1 /\
      api_calls s' = (api_calls init_state + k)%nat /\
      (forall j, (j < k - 1)%nat ->
         is_transient (status_code (api_response env (api_calls init_state + j))) = true) /\
      Ending "/crm/v3/owners/" 6 (Z.of_nat k)
             (api_response env (api_calls init_state + k - 1)) s' run).
Proof.
  split; [lia|].
  apply (hs_request_terminates (account api_429_503_200 no_faults) GET
           "/crm/v3/owners/" None None 6 120 init_state); lia.
Defined.

(** C5 at the failing input. The first answer is a 429 whose [Retry-After] is
    the superscript digit U+00B2: [isdigit] accepts it, [int] does not, and
    the call raises [ValueError] after one attempt, without sleeping and
    without ever sending the request that the 200 would answer. *)
Theorem hs_request_superscript_retry_after :
  isdigit superscript_two = true /\ py_int superscript_two = None /\
  exists s',
    hs_request_default (account api_429_superscript no_faults) GET "/crm/v3/owners/"
               None None init_state = Exc (ValueError superscript_two) s' /\
    http_attempts (trace s') = 1%nat /\ sleeps (trace s') = [].
Proof.
  split; [reflexivity|]. split; [reflexivity|].
  eexists. split; [vm_compute; reflexivity|]. split; reflexivity.
Qed.

(** ** The watermark store *)

#[global] Instance by_updated_at_total : Total by_updated_at.
Proof.
  intros r1 r2. unfold by_updated_at, desc_nulls_last.
  destruct (updated_at r1), (updated_at r2); simpl; auto; lia.
Qed.

#[global] Instance by_updated_at_trans : Transitive by_updated_at.
Proof.
  intros r1 r2 r3. unfold by_updated_at, desc_nulls_last.
  destruct (updated_at r1), (updated_at r2), (updated_at r3); simpl; auto;
    try lia; contradiction.
Qed.

Lemma by_updated_at_refl (r : WatermarkRow) : by_updated_at r r.
Proof. unfold by_updated_at, desc_nulls_last. destruct (updated_at r); auto; lia. Qed.

Lemma rows_of_In (ent : string) (df : list WatermarkRow) (r : WatermarkRow) :
  In r (rows_of ent df) <-> In r df /\ entity r = ent.
Proof.
  unfold rows_of. rewrite filter_In. rewrite String.eqb_eq. reflexivity.
Qed.

(** The first row of the sorted rows of an entity is one of its rows, and no
    row of the entity comes strictly before it. *)
Lemma merge_sort_head (rows : list WatermarkRow) (row : WatermarkRow)
    (rest : list WatermarkRow) :
  merge_sort by_updated_at rows = row :: rest ->
  In row rows /\ forall r, In r rows -> by_updated_at row r.
Proof.
  intros Hs.
  pose proof (merge_sort_Permutation by_updated_at rows) as Hp.
  pose proof (StronglySorted_merge_sort by_updated_at rows) as Hss.
  rewrite Hs in Hp, Hss.
  split.
  - eapply Permutation_in; [exact Hp|left; reflexivity].
  - intros r Hr.
    apply (Permutation_in _ (Permutation_sym Hp)) in Hr as [<-|Hr].
    + apply by_updated_at_refl.
    + apply StronglySorted_inv in Hss as [_ Hall].
      rewrite List.Forall_forall in Hall. apply Hall; exact Hr.
Qed.

(** C8. [get_watermark] returns, without raising and without touching the
    state, the caller's default when the control table has no row of the
    entity, and otherwise the [watermark_value] of a row of the entity whose
    [updated_at] is greatest, a null [updated_at] counting as smallest. *)
Theorem get_watermark_latest (ent default_iso : string) (s : State) :
  exists v,
    get_watermark ent default_iso s = Val v s /\
    (((forall r, In r (watermarks s) -> entity r <> ent) /\
      v = Some default_iso) \/
     (exists row,
        In row (watermarks s) /\ entity row = ent /\
        v = watermark_value row /\
        forall r, In r (watermarks s) -> entity r = ent ->
                  desc_nulls_last (updated_at row) (updated_at r))).
Proof.
  exists (latest_watermark (watermarks s) ent default_iso).
  split; [reflexivity|].
  unfold latest_watermark.
  destruct (merge_sort by_updated_at (rows_of ent (watermarks s)))
    as [|row rest] eqn:Hs; simpl.
  - left. split; [|reflexivity].
    intros r Hr He.
    pose proof (merge_sort_Permutation by_updated_at (rows_of ent (watermarks s)))
      as Hp.
    rewrite Hs in Hp. apply Permutation_nil in Hp.
    assert (Hin : In r (rows_of ent (watermarks s)))
      by (apply rows_of_In; auto).
    rewrite Hp in Hin. exact Hin.
  - right. exists row.
    apply merge_sort_head in Hs as [Hin Hmax].
    apply rows_of_In in Hin as [Hin He].
    split; [exact Hin|]. split; [exact He|]. split; [reflexivity|].
    intros r Hr Her. apply (Hmax r). apply rows_of_In; auto.
Qed.

Lemma rows_of_not_of_same (ent : string) (df : list WatermarkRow) :
  rows_of ent (rows_not_of ent df) = [].
Proof.
  unfold rows_of, rows_not_of.
  induction df as [|r df IH]; [reflexivity|]. simpl.
  destruct (String.eqb (entity r) ent) eqn:E; simpl; [exact IH|].
  rewrite E. exact IH.
Qed.

Lemma rows_of_not_of_other (ent ent' : string) (df : list WatermarkRow) :
  ent' <> ent -> rows_of ent' (rows_not_of ent df) = rows_of ent' df.
Proof.
  intros Hne. unfold rows_of, rows_not_of.
  induction df as [|r df IH]; [reflexivity|]. simpl.
  destruct (String.eqb (entity r) ent) eqn:E; simpl.
  - apply String.eqb_eq in E.
    destruct (String.eqb (entity r) ent') eqn:E'; [|exact IH].
    apply String.eqb_eq in E'. congruence.
  - rewrite IH. reflexivity.
Qed.

Lemma rows_of_upsert_same (ent : string) (df : list WatermarkRow)
    (wtype : string) (v : option string) (ts : option Z) :
  rows_of ent (rows_not_of ent df ++ [mkRow ent wtype v ts])
  = [mkRow ent wtype v ts].
Proof.
  unfold rows_of at 1. rewrite List.filter_app.
  fold (rows_of ent (rows_not_of ent df)). rewrite rows_of_not_of_same.
  simpl. rewrite String.eqb_refl. reflexivity.
Qed.

Lemma rows_of_upsert_other (ent ent' : string) (df : list WatermarkRow)
    (wtype : string) (v : option string) (ts : option Z) :
  ent' <> ent ->
  rows_of ent' (rows_not_of ent df ++ [mkRow ent wtype v ts])
  = rows_of ent' df.
Proof.
  intros Hne. unfold rows_of at 1. rewrite List.filter_app.
  fold (rows_of ent' (rows_not_of ent df)).
  rewrite rows_of_not_of_other by exact Hne.
  simpl. destruct (String.eqb ent ent') eqn:E.
  - apply String.eqb_eq in E. congruence.
  - apply app_nil_r.
Qed.

(** C7. After [set_watermark] for [ent] the next [get_watermark] of [ent]
    returns the value just set, whatever the table held; the rows of any
    other entity are the rows it had, and [get_watermark] of that entity
    returns what it returned before. *)
Theorem set_watermark_then_get (env : Env) (ent wtype value : string)
    (ent' default_iso default_iso' : string) (s : State) :
  ent' <> ent ->
  exists s',
    set_watermark env ent wtype (JStr value) s = Val tt s' /\
    get_watermark ent default_iso s' = Val (Some value) s' /\
    rows_of ent' (watermarks s') = rows_of ent' (watermarks s) /\
    exists v, get_watermark ent' default_iso' s = Val v s /\
              get_watermark ent' default_iso' s' = Val v s'.
Proof.
  intros Hne. eexists. split; [reflexivity|].
  unfold get_watermark, latest_watermark.
  cbn [watermarks with_watermarks log_event bump_ticks].
  rewrite rows_of_upsert_same, rows_of_upsert_other by exact Hne.
  split; [reflexivity|]. split; [reflexivity|].
  eexists. split; reflexivity.
Qed.

(** ** Retries that end well *)

Lemma ascii_digits_isdigit (s : string) :
  all_chars is_ascii_digit s = true -> all_chars char_isdigit s = true.
Proof.
  induction s as [|c s IH]; [reflexivity|]. simpl.
  rewrite !andb_true_iff. intros [Hc Hs]. split; [|apply IH; exact Hs].
  unfold char_isdigit. rewrite Hc. reflexivity.
Qed.

(** [isdigit] accepts every decimal integer. *)
Lemma decimal_isdigit (s : string) (n : Z) :
  decimal s = Some n -> isdigit s = true.
Proof.
  unfold decimal, isdigit.
  destruct (negb (String.eqb s "") && all_chars is_ascii_digit s) eqn:Ha;
    [|discriminate].
  intros _. apply andb_true_iff in Ha as [Hne Ha].
  rewrite Hne, (ascii_digits_isdigit s Ha). reflexivity.
Qed.

(** On a sane header the code computes the delay of the specification, and
    [time.sleep] takes it. *)
Lemma sleep_seconds_spec (resp : Response) (attempt : Z) (s : State) :
  SaneRetryAfter resp ->
  sleep_seconds resp attempt s = Val (spec_delay resp attempt) s /\
  0 <= spec_delay resp attempt <= sleep_max.
Proof.
  intros Hsane. pose proof (pow2_min_bounds attempt) as Hpow.
  unfold sleep_seconds, spec_delay.
  destruct (headers_get "Retry-After" (headers resp)) as [v|] eqn:Hv;
    [|unfold sleep_max; split; [reflexivity|lia]].
  destruct (negb (String.eqb v "") && isdigit v) eqn:Hd.
  - apply andb_true_iff in Hd as [_ Hd].
    destruct (Hsane v Hv Hd) as (n & Hi & Hle).
    rewrite Hi, (py_int_decimal v n Hi).
    split; [reflexivity|]. split; [eapply py_int_nonneg; exact Hi|exact Hle].
  - destruct (decimal v) as [n|] eqn:Hi;
      [|unfold sleep_max; split; [reflexivity|lia]].
    exfalso. rewrite (decimal_isdigit v n Hi), andb_true_r in Hd.
    unfold decimal in Hi. destruct (negb (String.eqb v "")); discriminate.
Qed.

(** A delay that [time.sleep] takes is slept. *)
Lemma time_sleep_ok (n : Z) (s : State) :
  0 <= n <= sleep_max -> time_sleep n s = Val tt (log_event (EvSleep n) s).
Proof.
  intros Hn. destruct (time_sleep_cases n s) as [[_ H]|[Hgt _]]; [lia|exact H|lia].
Qed.

Section Retries.
Variables (env : Env) (method : Method) (url path : string) (bearer : json).
Variables (params : option (gmap string json)) (json_body : option json).
Variables (max_retries timeout_s : Z) (v : json).

(** [n] transient failures within the budget and then a success: the loop
    returns the body after [n + 1] attempts and sleeps, before each retry,
    the delay of the specification. *)
Lemma hs_request_loop_retries (n : nat) :
  forall (fuel : nat) (attempt : Z) (s : State),
    (n < fuel)%nat -> attempt + Z.of_nat n <= max_retries ->
    (forall j, (j < n)%nat ->
       is_transient (status_code (api_response env (api_calls s + j))) = true /\
       SaneRetryAfter (api_response env (api_calls s + j))) ->
    Serves env (api_calls s + n) v ->
    exists s' evs,
      hs_request_loop fuel env method url path bearer params json_body
                      max_retries timeout_s attempt s = Val v s' /\
      trace s' = trace s ++ evs /\
      http_attempts evs = S n /\
      api_calls s' = (api_calls s + S n)%nat /\
      sleeps evs
      = map (fun j => spec_delay (api_response env (api_calls s + j))
                                 (attempt + 1 + Z.of_nat j))
            (seq 0 n).
Proof.
  induction n as [|n IH]; intros fuel attempt s Hfuel Hbudget Hfail Hok;
    (destruct fuel as [|fuel]; [lia|]);
    cbn [hs_request_loop]; unfold bind at 1, requests_request;
    set (ev := EvHttp method url bearer params json_body timeout_s);
    set (s1 := bump_api (log_event ev s)).
  - rewrite Nat.add_0_r in Hok. destruct Hok as [Hst Hdec].
    replace (status_code (api_response env (api_calls s)) <? 300) with true
      by (symmetry; apply Z.ltb_lt; exact Hst).
    exists s1, [ev].
    split.
    { destruct Hdec as [[Ht ->]|[Ht Hv]].
      - rewrite Ht. reflexivity.
      - apply String.eqb_neq in Ht. rewrite Ht, Hv. reflexivity. }
    repeat split; simpl; lia.
  - destruct (Hfail 0%nat) as [Htr Hsane]; [lia|].
    rewrite Nat.add_0_r in Htr, Hsane.
    pose proof (is_transient_ge_300 _ Htr) as Hge.
    replace (status_code (api_response env (api_calls s)) <? 300) with false
      by (symmetry; apply Z.ltb_ge; exact Hge).
    rewrite Htr.
    replace (attempt + 1 <=? max_retries) with true
      by (symmetry; apply Z.leb_le; lia).
    cbn [andb]. unfold bind at 1.
    destruct (sleep_seconds_spec _ (attempt + 1) s1 Hsane) as [Hsleep Hd].
    rewrite Hsleep. unfold bind at 1. rewrite (time_sleep_ok _ s1 Hd).
    set (d := spec_delay (api_response env (api_calls s)) (attempt + 1)).
    set (s2 := log_event (EvSleep d) s1).
    assert (Hs2 : api_calls s2 = S (api_calls s)) by reflexivity.
    destruct (IH fuel (attempt + 1) s2) as (s' & evs & Hrun & Htrace & Hhttp & Hapi & Hsl).
    { lia. }
    { lia. }
    { intros j Hj. rewrite Hs2.
      replace (S (api_calls s) + j)%nat with (api_calls s + S j)%nat by lia.
      apply Hfail. lia. }
    { rewrite Hs2.
      replace (S (api_calls s) + n)%nat with (api_calls s + S n)%nat by lia.
      exact Hok. }
    exists s', (ev :: EvSleep d :: evs).
    split; [exact Hrun|].
    split; [rewrite Htrace; simpl; rewrite <- !app_assoc; reflexivity|].
    split; [unfold http_attempts in *; simpl; rewrite Hhttp; reflexivity|].
    split; [rewrite Hapi, Hs2; lia|].
    cbn [sleeps seq map]. rewrite Hsl, <- seq_shift, map_map.
    unfold d. rewrite Nat.add_0_r. f_equal.
    { f_equal. lia. }
    apply map_ext. intros j. rewrite Hs2. f_equal; [f_equal; lia|lia].
Qed.
End Retries.

(** The retry policy, for the responses the code handles: [n] transient
    failures within the retry budget, each with a [Retry-After] that is
    absent, not accepted by [isdigit], or a decimal integer of at most 4300
    digits and at most [sleep_max] seconds, followed by a success. The call returns the decoded body after [n + 1] attempts, and
    the sleep before retry [j] is the delay of the specification. *)
Lemma hs_request_retries_then_succeeds (env : Env) (method : Method)
    (path : string) (params : option (gmap string json))
    (json_body : option json) (max_retries timeout_s : Z)
    (n : nat) (tok v : json) (s : State) :
  TokenOk (token_response env (token_calls s)) tok ->
  Z.of_nat n <= max_retries ->
  (forall j, (j < n)%nat ->
     is_transient (status_code (api_response env (api_calls s + j))) = true /\
     SaneRetryAfter (api_response env (api_calls s + j))) ->
  Serves env (api_calls s + n) v ->
  exists s' evs,
    hs_request env method path params json_body max_retries timeout_s s
    = Val v s' /\
    trace s' = trace s ++ evs /\
    http_attempts evs = S n /\
    sleeps evs
    = map (fun j => spec_delay (api_response env (api_calls s + j))
                               (Z.of_nat (S j)))
          (seq 0 n).
Proof.
  intros (Hst & o & Hj & Hk) Hn Hfail Hok.
  unfold hs_request, bind at 1, get_access_token, bind, post_token.
  replace (status_code (token_response env (token_calls s)) >=? 300) with false
    by (rewrite Z.geb_leb; symmetry; apply Z.leb_gt; lia).
  unfold access_token_of. rewrite Hj, Hk. unfold ret.
  set (s0 := bump_token _).
  destruct (hs_request_loop_retries env method (BASE_URL env +:+ path) path tok
              params json_body max_retries timeout_s v n
              (hs_request_fuel max_retries) 0 s0)
    as (s' & evs & Hrun & Htrace & Hhttp & _ & Hsl).
  { unfold hs_request_fuel. lia. }
  { lia. }
  { exact Hfail. }
  { exact Hok. }
  exists s', (EvToken (BASE_URL env +:+ "/oauth/v1/token") :: evs).
  split; [exact Hrun|].
  split; [rewrite Htrace; unfold s0; simpl; rewrite <- app_assoc; reflexivity|].
  split; [exact Hhttp|].
  cbn [sleeps]. rewrite Hsl. apply map_ext. intros j. f_equal. lia.
Qed.

(** ** Pagination *)

(** A call whose token refresh and first attempt both succeed: one token
    fetch, one request, the decoded body. *)
Lemma hs_request_ok (env : Env) (method : Method) (path : string)
    (params : option (gmap string json)) (json_body : option json)
    (s : State) (tok doc : json) :
  TokenOk (token_response env (token_calls s)) tok ->
  Serves env (api_calls s) doc ->
  hs_request_default env method path params json_body s
  = Val doc
        (bump_api
           (log_event (EvHttp method (BASE_URL env +:+ path) tok params json_body 120)
              (bump_token
                 (log_event (EvToken (BASE_URL env +:+ "/oauth/v1/token")) s)))).
Proof.
  intros (Hst & o & Hj & Hk) (Hs & Hd).
  unfold hs_request_default, hs_request, bind at 1, get_access_token, bind, post_token.
  replace (status_code (token_response env (token_calls s)) >=? 300) with false
    by (rewrite Z.geb_leb; symmetry; apply Z.leb_gt; lia).
  unfold access_token_of. rewrite Hj, Hk. unfold ret.
  unfold hs_request_fuel. cbn [hs_request_loop Z.to_nat Pos.to_nat Pos.iter_op].
  unfold bind at 1, requests_request.
  cbn [api_calls bump_token log_event].
  replace (status_code (api_response env (api_calls s)) <? 300) with true
    by (symmetry; apply Z.ltb_lt; lia).
  destruct Hd as [[Ht ->]|[Ht Hv]].
  - rewrite Ht. reflexivity.
  - apply String.eqb_neq in Ht. rewrite Ht, Hv. reflexivity.
Qed.

(** After a successful token refresh the loop starts from this state. *)
Lemma hs_request_after_token (env : Env) (method : Method) (path : string)
    (params : option (gmap string json)) (json_body : option json)
    (max_retries timeout_s : Z) (s : State) (tok : json) :
  TokenOk (token_response env (token_calls s)) tok ->
  hs_request env method path params json_body max_retries timeout_s s
  = hs_request_loop (hs_request_fuel max_retries) env method
      (BASE_URL env +:+ path) path tok params json_body max_retries timeout_s 0
      (bump_token (log_event (EvToken (BASE_URL env +:+ "/oauth/v1/token")) s)).
Proof.
  intros (Hst & o & Hj & Hk).
  unfold hs_request, bind at 1, get_access_token, bind, post_token.
  replace (status_code (token_response env (token_calls s)) >=? 300) with false
    by (rewrite Z.geb_leb; symmetry; apply Z.leb_gt; lia).
  unfold access_token_of. rewrite Hj, Hk. reflexivity.
Qed.

(** The token endpoint of [account] always answers. *)
Lemma account_tokens_ok (api : nat -> Response) (faults : nat -> option SinkFault) :
  forall n, exists tok, TokenOk (token_response (account api faults) n) tok.
Proof.
  intros n. exists (JStr "tok"). split; [simpl; lia|].
  eexists. split; reflexivity.
Defined.

(** A call with the defaults whose first answer is fatal. *)
Lemma hs_request_default_fatal (env : Env) (method : Method) (path : string)
    (params : option (gmap string json)) (json_body : option json)
    (s : State) (tok : json) :
  TokenOk (token_response env (token_calls s)) tok ->
  300 <= status_code (api_response env (api_calls s)) ->
  is_transient (status_code (api_response env (api_calls s))) = false ->
  hs_request_default env method path params json_body s
  = Exc (HubSpotApiError (status_code (api_response env (api_calls s))) path
                         (text (api_response env (api_calls s))))
        (bump_api
           (log_event (EvHttp method (BASE_URL env +:+ path) tok params json_body 120)
              (bump_token
                 (log_event (EvToken (BASE_URL env +:+ "/oauth/v1/token")) s)))).
Proof.
  intros Htok Hst Htr. unfold hs_request_default.
  rewrite (hs_request_after_token _ _ _ _ _ _ _ _ tok Htok).
  unfold hs_request_fuel. cbn [hs_request_loop Z.to_nat Pos.to_nat Pos.iter_op].
  unfold bind at 1, requests_request. cbn [api_calls bump_token log_event].
  replace (status_code (api_response env (api_calls s)) <? 300) with false
    by (symmetry; apply Z.ltb_ge; lia).
  rewrite Htr. reflexivity.
Qed.

Lemma or_empty_obj (x : string * json) (o : list (string * json)) :
  or_empty (JObj (x :: o)) = JObj (x :: o).
Proof. reflexivity. Qed.

Lemma next_after_has_cursor (o : list (string * json)) (c : json) (s : State) :
  HasCursor o c -> next_after (JObj o) s = Val c s.
Proof.
  intros (po & no & Hp & Hn & Ha & Ht).
  unfold next_after, bind, py_get, ret. rewrite Hp. cbn [from_option id].
  destruct po as [|x po]; [discriminate|]. rewrite or_empty_obj.
  rewrite Hn. cbn [from_option id].
  destruct no as [|y no]; [discriminate|]. rewrite or_empty_obj.
  rewrite Ha. reflexivity.
Qed.

Lemma or_empty_absent (x : option json) :
  absent x -> or_empty (default JNull x) = JObj [].
Proof.
  destruct x as [v|]; simpl; [|reflexivity].
  intros Hv. unfold or_empty. rewrite Hv. reflexivity.
Qed.

Lemma next_after_no_cursor (o : list (string * json)) (s : State) :
  NoCursor o -> exists c, next_after (JObj o) s = Val c s /\ truthy c = false.
Proof.
  intros Hno. unfold next_after, bind, py_get, ret.
  destruct Hno as [Hp|(po & Hp & Hn)].
  { rewrite (or_empty_absent _ Hp). exists JNull. auto. }
  rewrite Hp. cbn [from_option id].
  destruct po as [|x po].
  { exists JNull. auto. }
  rewrite or_empty_obj.
  destruct Hn as [Hn|(no & Hn & Ha)].
  { rewrite (or_empty_absent _ Hn). exists JNull. auto. }
  rewrite Hn. cbn [from_option id].
  destruct no as [|y no].
  { exists JNull. auto. }
  rewrite or_empty_obj.
  destruct (items_get "after" (y :: no)) as [c|] eqn:Hc.
  - exists c. auto.
  - exists JNull. auto.
Qed.

(** The records a page contributes are exactly what [extend] appends. *)
Lemma page_records (key : string) (doc : json) (rs : list json)
    (cursor : option json) (s : State) :
  Page key doc rs cursor ->
  exists o, doc = JObj o /\
    bind (py_get_list doc (Some key)) py_iter s = Val rs s.
Proof.
  intros (o & -> & Hr & _). exists o. split; [reflexivity|].
  unfold bind, py_get_list, ret.
  destruct Hr as [Hr|[Hr ->]]; rewrite Hr; reflexivity.
Qed.

Section Paginate.
Variables (env : Env) (path key : string).
Hypothesis tokens_ok : forall n, exists tok, TokenOk (token_response env n) tok.

(** The loop of [paginate_get] over [k - 1] pages with a cursor and a last
    page without one. *)
Lemma paginate_loop_pages (firsts : list (json * list json * json)) :
  forall (last_doc : json) (last_rs : list json) (fuel : nat)
         (out : list json) (p : gmap string json) (s : State),
    (length firsts < fuel)%nat ->
    PagesServed env key (api_calls s) firsts ->
    Serves env (api_calls s + length firsts) last_doc ->
    Page key last_doc last_rs None ->
    exists s' evs,
      paginate_loop fuel env path (Some key) out p s
      = Val (out ++ records_of firsts ++ last_rs) s' /\
      trace s' = trace s ++ evs /\
      params_sent evs
      = Some p :: map (fun c => Some (<["after" := c]> p)) (cursors_of firsts) /\
      http_attempts evs = S (length firsts) /\
      token_fetches evs = S (length firsts) /\
      api_calls s' = (api_calls s + S (length firsts))%nat.
Proof.
  induction firsts as [|[[doc rs] c] rest IH];
    intros last_doc last_rs fuel out p s Hfuel Hserved Hlast Hpage.
  - destruct fuel as [|fuel]; [simpl in Hfuel; lia|].
    simpl in Hlast. rewrite Nat.add_0_r in Hlast.
    destruct (tokens_ok (token_calls s)) as [tok Htok].
    cbn [paginate_loop]. unfold bind at 1.
    rewrite (hs_request_ok env GET path (Some p) None s tok last_doc Htok Hlast).
    set (s1 := bump_api _).
    destruct (page_records key last_doc last_rs None s1 Hpage) as (o & -> & Hrec).
    unfold bind at 1 2 3. unfold bind in Hrec.
    destruct (py_get_list (JObj o) (Some key) s1) as [pg sa|e sa|] eqn:Hg;
      try discriminate.
    destruct (py_iter pg sa) as [items sb|e sb|] eqn:Hi; try discriminate.
    injection Hrec as -> ->.
    destruct Hpage as (o' & [= <-] & _ & Hno).
    destruct (next_after_no_cursor o s1 Hno) as (c & Hc & Hf).
    rewrite Hc, Hf. cbn [negb].
    eexists. eexists. split; [unfold records_of; simpl; reflexivity|].
    split; [unfold s1; simpl; rewrite <- app_assoc; reflexivity|].
    repeat split; simpl; lia.
  - destruct fuel as [|fuel]; [simpl in Hfuel; lia|].
    destruct Hserved as (Hdoc & Hpg & Hrest).
    destruct (tokens_ok (token_calls s)) as [tok Htok].
    cbn [paginate_loop]. unfold bind at 1.
    rewrite (hs_request_ok env GET path (Some p) None s tok doc Htok Hdoc).
    set (s1 := bump_api _).
    destruct (page_records key doc rs (Some c) s1 Hpg) as (o & -> & Hrec).
    unfold bind at 1 2 3. unfold bind in Hrec.
    destruct (py_get_list (JObj o) (Some key) s1) as [pg sa|e sa|] eqn:Hg;
      try discriminate.
    destruct (py_iter pg sa) as [items sb|e sb|] eqn:Hi; try discriminate.
    injection Hrec as -> ->.
    destruct Hpg as (o' & [= <-] & _ & Hcur).
    pose proof Hcur as (_ & _ & _ & _ & _ & Htr).
    rewrite (next_after_has_cursor o c s1 Hcur), Htr. cbn [negb].
    assert (Hs1 : api_calls s1 = S (api_calls s)) by reflexivity.
    destruct (IH last_doc last_rs fuel (out ++ rs) (<["after" := c]> p) s1)
      as (s' & evs & Hrun & Htrace & Hparams & Hhttp & Htoks & Hapi).
    { simpl in Hfuel. lia. }
    { rewrite Hs1. exact Hrest. }
    { rewrite Hs1. simpl in Hlast.
      replace (S (api_calls s) + length rest)%nat
        with (api_calls s + S (length rest))%nat by lia.
      exact Hlast. }
    { exact Hpage. }
    exists s'. eexists.
    split.
    { rewrite Hrun. unfold records_of. simpl.
      rewrite <- !app_assoc. reflexivity. }
    split.
    { rewrite Htrace. unfold s1. simpl. rewrite <- !app_assoc. simpl.
      reflexivity. }
    split.
    { simpl. rewrite Hparams. f_equal. f_equal.
      unfold cursors_of. rewrite !map_map. apply map_ext.
      intros x. rewrite insert_insert_eq. reflexivity. }
    split; [|split].
    + unfold http_attempts in *. simpl. rewrite Hhttp. reflexivity.
    + unfold token_fetches in *. simpl. rewrite Htoks. reflexivity.
    + rewrite Hapi, Hs1. simpl. lia.
Qed.
End Paginate.

(** C6. When the API serves [k - 1] pages that carry a cursor and then a page
    that carries none, [paginate_get] returns the records of the [k] pages
    in order, after exactly [k] requests (and as many token refreshes, one
    before each); the first request carries the
    caller's params and each later one the caller's params with ["after"]
    set to the cursor of the page before it, whatever ["after"] held. *)
Theorem paginate_get_concatenates (env : Env) (path key : string)
    (params : option (gmap string json))
    (firsts : list (json * list json * json))
    (last_doc : json) (last_rs : list json) (fuel : nat) (s : State) :
  (forall n, exists tok, TokenOk (token_response env n) tok) ->
  PagesServed env key (api_calls s) firsts ->
  Serves env (api_calls s + length firsts) last_doc ->
  Page key last_doc last_rs None ->
  (length firsts < fuel)%nat ->
  let p := default ∅ params in
  exists s' evs,
    paginate_get fuel env path params (Some key) s
    = Val (records_of firsts ++ last_rs) s' /\
    trace s' = trace s ++ evs /\
    http_attempts evs = S (length firsts) /\
    token_fetches evs = S (length firsts) /\
    api_calls s' = (api_calls s + S (length firsts))%nat /\
    params_sent evs
    = Some p :: map (fun c => Some (<["after" := c]> p)) (cursors_of firsts) /\
    forall c, (<["after" := c]> p) !! "after" = Some c.
Proof.
  intros Htok Hserved Hlast Hpage Hfuel p.
  destruct (paginate_loop_pages env path key Htok firsts last_doc last_rs fuel
              [] p s Hfuel Hserved Hlast Hpage)
    as (s' & evs & Hrun & Htrace & Hparams & Hhttp & Htoks & Hapi).
  exists s', evs. unfold paginate_get. fold p.
  split; [exact Hrun|]. split; [exact Htrace|]. split; [exact Hhttp|].
  split; [exact Htoks|]. split; [exact Hapi|]. split; [exact Hparams|].
  intros c. apply lookup_insert_eq.
Qed.

Lemma paginate_get_concatenates_witness :
  let env := account api_three_pages no_faults in
  let firsts :=
    [ (page1, [crm_record "1" "2024-05-01T10:00:00.000Z"], JStr "a");
      (page2, [crm_record "2" "2024-05-03T10:00:00.000Z";
               crm_record "3" "2024-05-02T10:00:00.000Z"], JStr "b") ] in
  let last_rs := [crm_record "4" "2024-05-02T12:00:00.000Z"] in
  let p := default ∅ (Some {[ "limit" := JNum 100 ]}) in
  (forall n, exists tok, TokenOk (token_response env n) tok) /\
  PagesServed env "results" (api_calls init_state) firsts /\
  Serves env (api_calls init_state + length firsts) page3 /\
  Page "results" page3 last_rs None /\
  (length firsts < 3)%nat /\
  exists s' evs,
    paginate_get 3 env "/crm/v3/objects/marketing_events"
                 (Some {[ "limit" := JNum 100 ]}) (Some "results") init_state
    = Val (records_of firsts ++ last_rs) s' /\
    trace s' = trace init_state ++ evs /\
    http_attempts evs = S (length firsts) /\
    token_fetches evs = S (length firsts) /\
    api_calls s' = (api_calls init_state + S (length firsts))%nat /\
    params_sent evs
    = Some p :: map (fun c => Some (<["after" := c]> p)) (cursors_of firsts) /\
    forall c, (<["after" := c]> p) !! "after" = Some c.
Proof.
  intros env firsts last_rs p.
  assert (Htok : forall n, exists tok, TokenOk (token_response env n) tok).
  { intros n. exists (JStr "tok"). split; [simpl; lia|].
    eexists. split; reflexivity. }
  assert (H1 : Serves env 0 page1).
  { split; [simpl; lia|]. right. split; [discriminate|reflexivity]. }
  assert (H2 : Serves env 1 page2).
  { split; [simpl; lia|]. right. split; [discriminate|reflexivity]. }
  assert (H3 : Serves env 2 page3).
  { split; [simpl; lia|]. right. split; [discriminate|reflexivity]. }
  assert (Hserved : PagesServed env "results" (api_calls init_state) firsts).
  { simpl. split; [exact H1|]. split.
    { eexists. split; [reflexivity|]. split; [left; reflexivity|].
      do 2 eexists. repeat split; reflexivity. }
    split; [exact H2|]. split; [|exact I].
    eexists. split; [reflexivity|]. split; [left; reflexivity|].
    do 2 eexists. repeat split; reflexivity. }
  assert (Hpage : Page "results" page3 last_rs None).
  { eexists. split; [reflexivity|]. split; [left; reflexivity|].
    left. exact I. }
  assert (Hfuel : (length firsts < 3)%nat) by (simpl; lia).
  split; [exact Htok|]. split; [exact Hserved|]. split; [exact H3|].
  split; [exact Hpage|]. split; [exact Hfuel|].
  exact (paginate_get_concatenates env "/crm/v3/objects/marketing_events"
           "results" (Some {[ "limit" := JNum 100 ]}) firsts page3 last_rs 3
           init_state Htok Hserved H3 Hpage Hfuel).
Defined.

Lemma set_watermark_then_get_witness :
  let env := account api_three_pages no_faults in
  let s := with_watermarks control_table init_state in
  "crm_contacts" <> "crm_feedback_submissions" /\
  exists s',
    set_watermark env "crm_feedback_submissions" "hs_lastmodifieddate"
                  (JStr "2024-05-03T10:00:00.000Z") s = Val tt s' /\
    get_watermark "crm_feedback_submissions" "1970-01-01T00:00:00.000Z" s'
    = Val (Some "2024-05-03T10:00:00.000Z") s' /\
    rows_of "crm_contacts" (watermarks s') = rows_of "crm_contacts" (watermarks s) /\
    exists v, get_watermark "crm_contacts" "1970-01-01T00:00:00.000Z" s = Val v s /\
              get_watermark "crm_contacts" "1970-01-01T00:00:00.000Z" s' = Val v s'.
Proof.
  intros env s.
  assert (Hne : "crm_contacts" <> "crm_feedback_submissions") by discriminate.
  split; [exact Hne|].
  exact (set_watermark_then_get env "crm_feedback_submissions"
           "hs_lastmodifieddate" "2024-05-03T10:00:00.000Z" "crm_contacts"
           "1970-01-01T00:00:00.000Z" "1970-01-01T00:00:00.000Z" s Hne).
Defined.

(** ** What leaves the control table alone *)

Lemma watermark_sets_app (evs1 evs2 : list Event) :
  watermark_sets (evs1 ++ evs2) = watermark_sets evs1 ++ watermark_sets evs2.
Proof.
  induction evs1 as [|e evs1 IH]; [reflexivity|].
  destruct e; simpl; rewrite ?IH; reflexivity.
Qed.

Lemma printed_app (evs1 evs2 : list Event) :
  printed (evs1 ++ evs2) = printed evs1 ++ printed evs2.
Proof.
  induction evs1 as [|e evs1 IH]; [reflexivity|].
  destruct e; simpl; rewrite ?IH; reflexivity.
Qed.

Lemma saves_app (evs1 evs2 : list Event) :
  saves (evs1 ++ evs2) = saves evs1 ++ saves evs2.
Proof.
  induction evs1 as [|e evs1 IH]; [reflexivity|].
  destruct e; simpl; rewrite ?IH; reflexivity.
Qed.

Lemma api_events_no_sets (evs : list Event) :
  Forall (fun e => is_api_event e = true) evs -> watermark_sets evs = [].
Proof.
  induction 1 as [|e evs He _ IH]; [reflexivity|].
  destruct e; simpl in *; try discriminate; exact IH.
Qed.

Lemma Untouched_refl (s : State) : Untouched s s.
Proof. split; [reflexivity|]. exists []. rewrite app_nil_r. auto. Qed.

Lemma Untouched_trans (s1 s2 s3 : State) :
  Untouched s1 s2 -> Untouched s2 s3 -> Untouched s1 s3.
Proof.
  intros (Hw1 & evs1 & Ht1 & Hs1) (Hw2 & evs2 & Ht2 & Hs2).
  split; [congruence|].
  exists (evs1 ++ evs2). rewrite Ht2, Ht1, <- app_assoc, watermark_sets_app, Hs1, Hs2.
  auto.
Qed.

Lemma Untouched_print (l : Log) (s : State) :
  Untouched s (log_event (EvPrint l) s).
Proof. split; [reflexivity|]. exists [EvPrint l]. auto. Qed.

(** [hs_request] always ends, and leaves the control table alone. *)
Lemma hs_request_untouched (env : Env) (method : Method) (path : string)
    (params : option (gmap string json)) (json_body : option json) (s : State) :
  exists s', final (hs_request_default env method path params json_body s) = Some s' /\
             Untouched s s'.
Proof.
  destruct (hs_request_run env method path params json_body 6 120 s)
    as (s' & evs & tok & Hfin & Htr & _ & Hev & _ & _ & _ & Hw & _).
  exists s'. split; [exact Hfin|]. split; [exact Hw|].
  eexists. split; [exact Htr|]. simpl. apply api_events_no_sets; exact Hev.
Qed.

Lemma py_iter_cases (x : json) :
  (exists rs, py_iter x = ret rs) \/ py_iter x = raise TypeError.
Proof. destruct x; simpl; eauto. Qed.

(** [write_bronze_delta] never diverges and, whether it returns or raises,
    leaves the control table alone. *)
Lemma write_bronze_delta_untouched (env : Env) (records : json) (ent : string)
    (mode : Mode) (s : State) :
  exists s', final (write_bronze_delta env records ent mode s) = Some s' /\
             Untouched s s'.
Proof.
  unfold write_bronze_delta.
  destruct (truthy records); cbn [negb].
  2:{ eexists. split; [reflexivity|]. apply Untouched_print. }
  unfold bind at 1, now.
  destruct (py_iter_cases records) as [[rs Hrs]|Hrs];
    unfold bind at 1; rewrite Hrs.
  2:{ eexists. split; [reflexivity|]. split; [reflexivity|].
      exists []. cbn. rewrite app_nil_r. auto. }
  unfold ret, bind at 1, next_sink_fault.
  destruct (sink_fault env (sink_calls (bump_ticks s))) as [[|]|].
  - eexists. split; [reflexivity|]. split; [reflexivity|].
    exists []. cbn. rewrite app_nil_r. auto.
  - eexists. split; [reflexivity|]. split; [reflexivity|].
    eexists. split; [cbn; reflexivity|reflexivity].
  - eexists. split; [reflexivity|]. split; [reflexivity|].
    eexists. split; [cbn; rewrite <- app_assoc; reflexivity|reflexivity].
Qed.

(** A write that meets no fault, step by step. *)
Lemma write_bronze_delta_run (env : Env) (r : json) (rs : list json)
    (ent : string) (mode : Mode) (s : State) :
  sink_fault env (sink_calls s) = None ->
  let target := BRONZE_BASE_PATH env +:+ "/" +:+ ent in
  let rows := map (fun x => mkBronze x (clock env (ticks s)) ent) (r :: rs) in
  exists s',
    write_bronze_delta env (JArr (r :: rs)) ent mode s = Val tt s' /\
    bronze s' !! target
    = Some (match mode with
            | Overwrite => rows
            | Append => default [] (bronze s !! target) ++ rows
            end) /\
    (forall p, p <> target -> bronze s' !! p = bronze s !! p) /\
    trace s' = trace s ++ [EvSave target mode (r :: rs);
                           EvPrint (LogWrote ent (S (length rs)) target)] /\
    watermarks s' = watermarks s.
Proof.
  intros Hfault target rows.
  unfold write_bronze_delta. cbn [truthy negb].
  unfold bind at 1, now. unfold bind at 1. cbn [py_iter ret].
  unfold bind at 1, next_sink_fault. cbn [sink_calls bump_ticks].
  rewrite Hfault. unfold bind, delta_save, print, emit.
  eexists. split; [reflexivity|].
  cbn [bronze trace watermarks log_event with_bronze bump_sink bump_ticks].
  split; [rewrite lookup_insert_eq; destruct mode; reflexivity|].
  split.
  - intros p Hp. apply lookup_insert_ne. intros Heq. apply Hp. rewrite <- Heq.
    reflexivity.
  - split; [|reflexivity].
    rewrite <- app_assoc. simpl. rewrite length_map. reflexivity.
Qed.

(** ** Campaign revenue *)

(** The dependent fetch of one campaign either appends one record or raises;
    which of the two, and the record, do not depend on what was collected. *)
Lemma revenue_try_cases (env : Env) (guid : json) (s : State) :
  exists s', Untouched s s' /\
    ((exists rev, forall out, revenue_try env guid out s = Val (out ++ [rev]) s') \/
     (exists e, forall out, revenue_try env guid out s = Exc e s')).
Proof.
  destruct (hs_request_untouched env GET (revenue_path env guid) (Some ∅) None s)
    as (s' & Hfin & Hun).
  exists s'. split; [exact Hun|].
  unfold revenue_try, bind.
  destruct (hs_request_default env GET (revenue_path env guid) (Some ∅) None s)
    as [rev sa|e sa|]; simpl in Hfin; try discriminate;
    injection Hfin as ->.
  - destruct rev; simpl; try (right; exists TypeError; reflexivity).
    left. eexists. reflexivity.
  - right. exists e. reflexivity.
Qed.

(** With its [except] clause the fetch never raises: it appends the record,
    or prints the failure and appends nothing. *)
Lemma fetch_revenue_cases (env : Env) (guid : json) (s : State) :
  exists s' added, Untouched s s' /\
    forall out, fetch_revenue env guid out s = Val (out ++ added) s'.
Proof.
  destruct (revenue_try_cases env guid s) as (s' & Hun & [[rev H]|[e H]]).
  - exists s', [rev]. split; [exact Hun|].
    intros out. unfold fetch_revenue, try_except. rewrite H. reflexivity.
  - exists (log_event (EvPrint (LogRevenueFailed guid e)) s'), [].
    split; [eapply Untouched_trans; [exact Hun|apply Untouched_print]|].
    intros out. unfold fetch_revenue, try_except. rewrite H.
    rewrite app_nil_r. reflexivity.
Qed.

(** Over campaigns that are dicts the loop never raises. *)
Lemma revenue_loop_total (env : Env) (campaigns : list json) :
  Forall IsDict campaigns ->
  forall s, exists s' added, Untouched s s' /\
    forall out, revenue_loop env campaigns out s = Val (out ++ added) s'.
Proof.
  induction 1 as [|c campaigns [o ->] _ IH]; intros s.
  - exists s, []. split; [apply Untouched_refl|].
    intros out. rewrite app_nil_r. reflexivity.
  - cbn [revenue_loop]. unfold bind at 1, py_get, ret.
    destruct (truthy (default JNull (items_get "id" o))); cbn [negb].
    2:{ destruct (IH s) as (s' & added & Hun & Hrun).
        exists s', added. split; [exact Hun|]. exact Hrun. }
    destruct (fetch_revenue_cases env (default JNull (items_get "id" o)) s)
      as (s1 & added1 & Hun1 & Hrun1).
    destruct (IH s1) as (s' & added & Hun & Hrun).
    exists s', (added1 ++ added).
    split; [eapply Untouched_trans; eassumption|].
    intros out. unfold bind. rewrite Hrun1, Hrun, app_assoc. reflexivity.
Qed.

Lemma revenue_loop_app (env : Env) (pre post : list json) :
  forall out s,
    revenue_loop env (pre ++ post) out s
    = bind (revenue_loop env pre out) (revenue_loop env post) s.
Proof.
  induction pre as [|c pre IH]; intros out s; [reflexivity|].
  cbn [revenue_loop app]. unfold bind in *.
  destruct (py_get c "id" s) as [guid sa|e sa|]; try reflexivity.
  destruct (negb (truthy guid)); [apply IH|].
  destruct (fetch_revenue env guid out sa) as [out' sb|e sb|]; try reflexivity.
  apply IH.
Qed.





Section Reports.
Variable env : Env.
Hypothesis tokens_ok : forall n, exists tok, TokenOk (token_response env n) tok.

End Reports.



Example revenue_two_of_three :
  let env := account api_second_report_fails no_faults in
  let evs := events_of (load_campaign_revenue env
               [JObj (campaign "c1"); JObj (campaign "c2"); JObj (campaign "c3")]
               init_state) in
  saves evs
  = [("dbfs:/mnt/datalake/bronze/hubspot/marketing_campaign_revenue", Overwrite,
      [JObj [("revenueAmount", JNum 10); ("_campaignGuid", JStr "c1")];
       JObj [("revenueAmount", JNum 30); ("_campaignGuid", JStr "c3")]])] /\
  printed evs
  = [LogRevenueFailed (JStr "c2")
       (HubSpotApiError 404 "/marketing/v3/campaigns/c2/reports/revenue" "");
     LogWrote "marketing_campaign_revenue" 2
       "dbfs:/mnt/datalake/bronze/hubspot/marketing_campaign_revenue"].
Proof. vm_compute. split; reflexivity. Qed.

(** ** The full-load run *)

Lemma run_all_app (before after : list (M unit)) (s : State) :
  run_all (before ++ after) s = bind (run_all before) (fun _ => run_all after) s.
Proof.
  revert s. induction before as [|step before IH]; intros s; [reflexivity|].
  cbn [run_all app]. unfold bind in *.
  destruct (step s) as [[] sa|e sa|]; try reflexivity. apply IH.
Qed.

(** C4, as the code has it. The run sequence has no handler around its
    loads: when one of them raises, after the loads before it completed, the
    whole run ends there with that exception and in the state the failing
    load left, so no load sequenced after it is attempted. *)
Theorem full_load_stops_at_first_failure (fuel : nat) (env : Env)
    (before after : list (M unit)) (failing : M unit) (e : Exn)
    (s s1 s2 : State) :
  load_owners fuel env :: loads_after_owners fuel env
  = before ++ failing :: after ->
  run_all before s = Val tt s1 ->
  failing s1 = Exc e s2 ->
  full_load fuel env s = Exc e s2.
Proof.
  intros Hsplit Hbefore Hfail.
  unfold full_load, bind at 1. rewrite Hsplit, run_all_app.
  unfold bind at 1. rewrite Hbefore.
  cbn [run_all]. unfold bind at 1. rewrite Hfail. reflexivity.
Qed.

Lemma full_load_stops_at_first_failure_witness :
  let env := account api_owners_then_404 no_faults in
  let before := [load_owners 3 env] in
  let failing := load_crm_object 3 env "marketing_events" "crm_marketing_events" in
  let after := tail (loads_after_owners 3 env) in
  let e := HubSpotApiError 404 "/crm/v3/objects/marketing_events" "" in
  let s1 := state_after (run_all before init_state) in
  let s2 := state_after (failing s1) in
  load_owners 3 env :: loads_after_owners 3 env = before ++ failing :: after /\
  run_all before init_state = Val tt s1 /\
  failing s1 = Exc e s2 /\
  full_load 3 env init_state = Exc e s2.
Proof.
  intros env before failing after e s1 s2.
  assert (H1 : load_owners 3 env :: loads_after_owners 3 env
               = before ++ failing :: after) by reflexivity.
  assert (H2 : run_all before init_state = Val tt s1) by (vm_compute; reflexivity).
  assert (H3 : failing s1 = Exc e s2) by (vm_compute; reflexivity).
  split; [exact H1|]. split; [exact H2|]. split; [exact H3|].
  exact (full_load_stops_at_first_failure 3 env before after failing e
           init_state s1 s2 H1 H2 H3).
Defined.

(** C4, as the specification words it, fails: the owners load succeeds, the
    marketing events load meets a 404, and the run raises without a request
    for any of the entities that come after. *)
Lemma full_load_aborts_siblings :
  let env := account api_owners_then_404 no_faults in
  let run := full_load 3 env init_state in
  (exists s', run = Exc (HubSpotApiError 404 "/crm/v3/objects/marketing_events" "") s') /\
  urls_requested (events_of run)
  = ["https://api.hubapi.com/crm/v3/owners/";
     "https://api.hubapi.com/crm/v3/objects/marketing_events"] /\
  ~ In "https://api.hubapi.com/crm/v3/objects/feedback_submissions"
       (urls_requested (events_of run)) /\
  map (fun x => fst (fst x)) (saves (events_of run))
  = ["dbfs:/mnt/datalake/bronze/hubspot/crm_owners"].
Proof.
  intros env run.
  split; [eexists; vm_compute; reflexivity|].
  split; [vm_compute; reflexivity|].
  split; [|vm_compute; reflexivity].
  vm_compute. intros [H|[H|[]]]; discriminate H.
Qed.

(** ** The incremental run *)

(** Order of Python strings. *)
Lemma str_ltb_lt (a b : string) : String.ltb a b = true <-> String_as_OT.lt a b.
Proof.
  rewrite <- String_as_OT.cmp_lt. unfold String.ltb, String_as_OT.cmp.
  destruct (String.compare a b); simpl; split; intros H;
    first [reflexivity|discriminate H].
Qed.

Lemma str_leb_iff (a b : string) :
  String.leb a b = true <-> a = b \/ String_as_OT.lt a b.
Proof.
  rewrite <- String_as_OT.cmp_lt, <- String_as_OT.cmp_eq.
  unfold String.leb, String_as_OT.cmp.
  destruct (String.compare a b); simpl; split; intros H; auto;
    try discriminate; destruct H; discriminate.
Qed.

Lemma str_leb_refl (a : string) : String.leb a a = true.
Proof. apply str_leb_iff. left. reflexivity. Qed.

Lemma str_leb_trans (a b c : string) :
  String.leb a b = true -> String.leb b c = true -> String.leb a c = true.
Proof.
  rewrite !str_leb_iff. intros [->|Hab] [->|Hbc]; auto.
  right. eapply String_as_OT.lt_trans; eassumption.
Qed.

Lemma str_ltb_leb (a b : string) : String.ltb a b = true -> String.leb a b = true.
Proof. rewrite str_ltb_lt, str_leb_iff. auto. Qed.

Lemma str_not_ltb_leb (a b : string) :
  String.ltb a b = false -> String.leb b a = true.
Proof.
  unfold String.ltb, String.leb. rewrite (String.compare_antisym b a).
  destruct (String.compare a b); simpl; congruence.
Qed.

Lemma Pure_ret {A} (a : A) : Pure (ret a).
Proof. intros s. reflexivity. Qed.

Lemma Pure_raise {A} (e : Exn) : Pure (@raise A e).
Proof. intros s. reflexivity. Qed.

Lemma Pure_bind {A B} (m : M A) (k : A -> M B) :
  Pure m -> (forall a, Pure (k a)) -> Pure (bind m k).
Proof.
  intros Hm Hk s. unfold bind. specialize (Hm s).
  destruct (m s) as [a sa|e sa|]; simpl in Hm; try discriminate;
    injection Hm as ->; [apply Hk|reflexivity].
Qed.

Lemma Pure_py_get (d : json) (k : string) : Pure (py_get d k).
Proof. destruct d; simpl; first [apply Pure_ret|apply Pure_raise]. Qed.

Lemma Pure_py_get_list (d : json) (k : option string) : Pure (py_get_list d k).
Proof. destruct d; simpl; first [apply Pure_ret|apply Pure_raise]. Qed.

Lemma Pure_py_iter (x : json) : Pure (py_iter x).
Proof. destruct x; simpl; first [apply Pure_ret|apply Pure_raise]. Qed.

Lemma Pure_next_after (data : json) : Pure (next_after data).
Proof.
  unfold next_after.
  apply Pure_bind; [apply Pure_py_get|intros paging].
  apply Pure_bind; [apply Pure_py_get|intros next]. apply Pure_py_get.
Qed.

(** Where a pure operation ends. *)
Lemma Pure_inv {A} (m : M A) (s : State) :
  Pure m -> (exists a, m s = Val a s) \/ (exists e, m s = Exc e s).
Proof.
  intros Hm. specialize (Hm s).
  destruct (m s) as [a sa|e sa|]; simpl in Hm; try discriminate;
    injection Hm as ->; eauto.
Qed.

(** The search of [crm_search_since] leaves the control table alone. *)
Lemma search_loop_untouched (env : Env) (object_name : string)
    (since_iso : option string) (properties : option (list string))
    (limit : Z) (fuel : nat) :
  forall (after : json) (out : list json) (s s' : State),
    final (search_loop fuel env object_name since_iso properties limit
                       after out s) = Some s' ->
    Untouched s s'.
Proof.
  induction fuel as [|fuel IH]; intros after out s s' Hfin; [discriminate|].
  cbn [search_loop] in Hfin. unfold bind at 1 in Hfin.
  match type of Hfin with
  | context [hs_request_default env POST ?p None (Some ?b) s] =>
      destruct (hs_request_untouched env POST p None (Some b) s)
        as (s1 & Hfin1 & Hun1);
      destruct (hs_request_default env POST p None (Some b) s) as [data sa|e sa|]
  end; simpl in Hfin1; try discriminate; injection Hfin1 as ->.
  2:{ simpl in Hfin. injection Hfin as <-. exact Hun1. }
  unfold bind at 1 in Hfin.
  destruct (Pure_inv _ s1 (Pure_py_get_list data (Some "results")))
    as [[results Hr]|[e Hr]]; rewrite Hr in Hfin.
  2:{ simpl in Hfin. injection Hfin as <-. exact Hun1. }
  unfold bind at 1 in Hfin.
  destruct (Pure_inv _ s1 (Pure_py_iter results)) as [[items Hi]|[e Hi]];
    rewrite Hi in Hfin.
  2:{ simpl in Hfin. injection Hfin as <-. exact Hun1. }
  unfold bind at 1 in Hfin.
  destruct (Pure_inv _ s1 (Pure_next_after data)) as [[c Hc]|[e Hc]];
    rewrite Hc in Hfin.
  2:{ simpl in Hfin. injection Hfin as <-. exact Hun1. }
  destruct (negb (truthy c)).
  - simpl in Hfin. injection Hfin as <-. exact Hun1.
  - apply IH in Hfin. eapply Untouched_trans; eassumption.
Qed.

Lemma Untouched_sets (s s' : State) :
  Untouched s s' -> watermark_sets (trace s') = watermark_sets (trace s).
Proof.
  intros (_ & evs & Htr & Hs). rewrite Htr, watermark_sets_app, Hs.
  apply app_nil_r.
Qed.

Lemma truthy_nonempty (m : string) : m <> "" -> truthy (JStr m) = true.
Proof. intros Hm. simpl. apply String.eqb_neq in Hm. rewrite Hm. reflexivity. Qed.

(** A record without a value leaves [max_wm] as it is. *)
Lemma max_wm_step_skip (max_wm : option json) (o : list (string * json))
    (s : State) :
  absent (items_get "hs_lastmodifieddate" o) ->
  (v <- py_get (JObj o) "hs_lastmodifieddate" ;;
   if negb (truthy v) then ret max_wm
   else match max_wm with
        | None => ret (Some v)
        | Some m =>
            match py_gt v m with
            | Some true => ret (Some v)
            | Some false => ret max_wm
            | None => raise TypeError
            end
        end) s = Val max_wm s.
Proof.
  intros Habs. unfold bind, py_get, ret.
  destruct (items_get "hs_lastmodifieddate" o) as [j|]; cbn [from_option id].
  - simpl in Habs. rewrite Habs. reflexivity.
  - reflexivity.
Qed.

(** One record through the body of [for r in rows]. *)
Lemma max_wm_step_best (r : json) (v : option string) (max_wm : option json)
    (seen : list string) (s : State) :
  Modified r v -> Best max_wm seen ->
  exists max_wm', max_wm_step max_wm r s = Val max_wm' s /\
                  Best max_wm' (seen ++ present [v]).
Proof.
  intros (o & -> & Hshape) Hbest.
  unfold max_wm_step, bind at 1, py_get at 1, ret at 1.
  destruct Hshape as [[Habs ->]|(po & Hp & Hv)].
  { rewrite (or_empty_absent _ Habs). change (present [None]) with (@nil string). rewrite app_nil_r.
    exists max_wm. split; [|exact Hbest]. apply max_wm_step_skip. exact I. }
  rewrite Hp. cbn [from_option id].
  destruct po as [|x po].
  { destruct v as [m|]; [destruct Hv as [Hv _]; discriminate|].
    change (present [None]) with (@nil string). rewrite app_nil_r.
    exists max_wm. split; [|exact Hbest]. apply max_wm_step_skip. exact I. }
  rewrite or_empty_obj.
  destruct v as [m|].
  2:{ change (present [None]) with (@nil string). rewrite app_nil_r.
      exists max_wm. split; [|exact Hbest]. apply max_wm_step_skip. exact Hv. }
  destruct Hv as [Hv Hm]. unfold bind, py_get, ret. rewrite Hv.
  cbn [from_option id].
  rewrite (truthy_nonempty m Hm). cbn [negb].
  change (present [Some m]) with [m].
  destruct max_wm as [j|].
  - destruct Hbest as (m0 & -> & Hm0 & Hin & Hmax).
    cbn [py_gt]. destruct (String.ltb m0 m) eqn:Hlt.
    + eexists. split; [reflexivity|].
      exists m. split; [reflexivity|]. split; [exact Hm|].
      split; [apply in_or_app; right; left; reflexivity|].
      intros y [Hy|[<-|[]]]%in_app_or; [|apply str_leb_refl].
      eapply str_leb_trans; [apply Hmax; exact Hy|].
      apply str_ltb_leb; exact Hlt.
    + eexists. split; [reflexivity|].
      exists m0. split; [reflexivity|]. split; [exact Hm0|].
      split; [apply in_or_app; left; exact Hin|].
      intros y [Hy|[<-|[]]]%in_app_or; [apply Hmax; exact Hy|].
      apply str_not_ltb_leb; exact Hlt.
  - simpl in Hbest. subst seen. eexists. split; [reflexivity|].
    exists m. split; [reflexivity|]. split; [exact Hm|].
    split; [left; reflexivity|].
    intros y [<-|[]]. apply str_leb_refl.
Qed.

(** The whole [for r in rows]: it never raises on records of this shape and
    ends with the greatest value there is. *)
Lemma max_wm_loop_best (rows : list json) (vals : list (option string))
    (s : State) :
  Forall2 Modified rows vals ->
  forall max_wm seen,
    Best max_wm seen ->
    exists max_wm', max_wm_loop rows max_wm s = Val max_wm' s /\
                    Best max_wm' (seen ++ present vals).
Proof.
  induction 1 as [|r v rows vals Hr _ IH]; intros max_wm seen Hbest.
  - exists max_wm. split; [reflexivity|].
    change (present []) with (@nil string). rewrite app_nil_r. exact Hbest.
  - destruct (max_wm_step_best r v max_wm seen s Hr Hbest)
      as (max_wm1 & Hstep & Hbest1).
    destruct (IH max_wm1 _ Hbest1) as (max_wm' & Hloop & Hbest').
    exists max_wm'. split.
    + cbn [max_wm_loop]. unfold bind. rewrite Hstep. exact Hloop.
    + replace (seen ++ present (v :: vals))
        with ((seen ++ present [v]) ++ present vals); [exact Hbest'|].
      rewrite <- app_assoc. f_equal. destruct v; reflexivity.
Qed.

(** What [incremental_object] has done once the search returned and the sink
    was called: nothing to the control table. *)
Lemma incremental_prefix_untouched (fuel : nat) (env : Env)
    (object_name ent : string) (since : option string) (rows : list json)
    (s s1 s2 : State) (w : Result unit) :
  crm_search_since fuel env object_name since None 100 s = Val rows s1 ->
  write_bronze_delta env (JArr rows) ent Append s1 = w ->
  final w = Some s2 ->
  Untouched s s2.
Proof.
  intros Hsearch Hwrite Hfin.
  apply Untouched_trans with s1.
  - apply (search_loop_untouched env object_name since None 100 fuel JNull []).
    unfold crm_search_since in Hsearch. rewrite Hsearch. reflexivity.
  - destruct (write_bronze_delta_untouched env (JArr rows) ent Append s1)
      as (s2' & Hfin' & Hun).
    rewrite Hwrite, Hfin in Hfin'. injection Hfin' as <-. exact Hun.
Qed.

(** C3. When the sink write of an incremental run raises, the run raises with
    it: [set_watermark] is not called, the control table is what it was, and
    [get_watermark] of the entity returns what it returned before the run. *)
Theorem incremental_object_write_failure (fuel : nat) (env : Env)
    (object_name ent : string) (since : option string) (rows : list json)
    (e : Exn) (s s1 s2 : State) :
  get_watermark_default ent s = Val since s ->
  crm_search_since fuel env object_name since None 100 s = Val rows s1 ->
  write_bronze_delta env (JArr rows) ent Append s1 = Exc e s2 ->
  incremental_object fuel env object_name ent s = Exc e s2 /\
  watermark_sets (trace s2) = watermark_sets (trace s) /\
  watermarks s2 = watermarks s /\
  forall default_iso, exists v,
    get_watermark ent default_iso s = Val v s /\
    get_watermark ent default_iso s2 = Val v s2.
Proof.
  intros Hget Hsearch Hwrite.
  assert (Hun : Untouched s s2)
    by (eapply incremental_prefix_untouched; [exact Hsearch|exact Hwrite|reflexivity]).
  split.
  { unfold incremental_object, bind. rewrite Hget, Hsearch, Hwrite. reflexivity. }
  split; [apply Untouched_sets; exact Hun|].
  destruct Hun as [Hw _]. split; [exact Hw|].
  intros default_iso. eexists. split; [reflexivity|].
  unfold get_watermark. rewrite Hw. reflexivity.
Qed.

Lemma incremental_object_write_failure_witness :
  let env := account api_three_pages fail_first_write in
  let s := with_watermarks control_table init_state in
  let since := Some watermark_before in
  let rows := [ crm_record "1" "2024-05-01T10:00:00.000Z";
                crm_record "2" "2024-05-03T10:00:00.000Z";
                crm_record "3" "2024-05-02T10:00:00.000Z";
                crm_record "4" "2024-05-02T12:00:00.000Z" ] in
  let e := SparkError BeforeCommit in
  let s1 := state_after (crm_search_since 3 env "feedback_submissions" since None 100 s) in
  let s2 := state_after (write_bronze_delta env (JArr rows) "crm_feedback_submissions" Append s1) in
  get_watermark_default "crm_feedback_submissions" s = Val since s /\
  crm_search_since 3 env "feedback_submissions" since None 100 s = Val rows s1 /\
  write_bronze_delta env (JArr rows) "crm_feedback_submissions" Append s1 = Exc e s2 /\
  incremental_object 3 env "feedback_submissions" "crm_feedback_submissions" s
  = Exc e s2 /\
  watermark_sets (trace s2) = watermark_sets (trace s) /\
  watermarks s2 = watermarks s /\
  forall default_iso, exists v,
    get_watermark "crm_feedback_submissions" default_iso s = Val v s /\
    get_watermark "crm_feedback_submissions" default_iso s2 = Val v s2.
Proof.
  intros env s since rows e s1 s2.
  assert (H1 : get_watermark_default "crm_feedback_submissions" s = Val since s)
    by (vm_compute; reflexivity).
  assert (H2 : crm_search_since 3 env "feedback_submissions" since None 100 s
               = Val rows s1) by (vm_compute; reflexivity).
  assert (H3 : write_bronze_delta env (JArr rows) "crm_feedback_submissions"
                                  Append s1 = Exc e s2)
    by (vm_compute; reflexivity).
  split; [exact H1|]. split; [exact H2|]. split; [exact H3|].
  exact (incremental_object_write_failure 3 env "feedback_submissions"
           "crm_feedback_submissions" since rows e s s1 s2 H1 H2 H3).
Defined.

Lemma Carries_Modified (r : json) (m : string) :
  Carries r m -> Modified r (Some m).
Proof.
  intros (o & po & -> & Hp & Hv & Hm). exists o. split; [reflexivity|].
  right. exists po. auto.
Qed.

Lemma Forall2_Carries_Modified (rows : list json) (vals : list string) :
  Forall2 Carries rows vals -> Forall2 Modified rows (map Some vals).
Proof.
  induction 1 as [|r m rows vals Hr _ IH]; [constructor|].
  cbn [map]. constructor; [apply Carries_Modified; exact Hr|exact IH].
Qed.

Lemma present_map_Some (vals : list string) : present (map Some vals) = vals.
Proof.
  unfold present. induction vals as [|v vals IH]; [reflexivity|].
  cbn. f_equal. exact IH.
Qed.

(** What the run does once the search returned records and the sink write
    succeeded: it looks at the [hs_lastmodifieddate] values the records
    carry; if there is at least one, [set_watermark] is called with the
    greatest of them in the order of Python strings, the new watermark is
    printed, and the next [get_watermark] returns it; if there is none, the
    run ends where the write ended. *)
Lemma incremental_object_run (fuel : nat) (env : Env)
    (object_name ent : string) (since : option string) (r : json)
    (rows : list json) (vals : list (option string)) (s s1 s2 : State) :
  get_watermark_default ent s = Val since s ->
  crm_search_since fuel env object_name since None 100 s = Val (r :: rows) s1 ->
  write_bronze_delta env (JArr (r :: rows)) ent Append s1 = Val tt s2 ->
  Forall2 Modified (r :: rows) vals ->
  Untouched s s2 /\
  match present vals with
  | _ :: _ =>
      exists m s3,
        incremental_object fuel env object_name ent s = Val tt s3 /\
        In m (present vals) /\
        (forall v, In v (present vals) -> String.leb v m = true) /\
        trace s3
        = trace s2 ++ [EvSetWatermark ent "hs_lastmodifieddate" (Some m);
                       EvPrint (LogWatermark ent (JStr m))] /\
        forall default_iso, get_watermark ent default_iso s3 = Val (Some m) s3
  | [] => incremental_object fuel env object_name ent s = Val tt s2
  end.
Proof.
  intros Hget Hsearch Hwrite Hshape.
  assert (Hun : Untouched s s2)
    by (eapply incremental_prefix_untouched; [exact Hsearch|exact Hwrite|reflexivity]).
  split; [exact Hun|].
  assert (Hrun : incremental_object fuel env object_name ent s
                 = (max_wm <- max_wm_loop (r :: rows) None ;;
                    match max_wm with
                    | Some m =>
                        if truthy m then
                          set_watermark env ent "hs_lastmodifieddate" m ;;;
                          print (LogWatermark ent m)
                        else ret tt
                    | None => ret tt
                    end) s2).
  { unfold incremental_object, bind at 1. rewrite Hget.
    unfold bind at 1. rewrite Hsearch. unfold bind at 1. rewrite Hwrite.
    reflexivity. }
  destruct (max_wm_loop_best (r :: rows) vals s2 Hshape None [] eq_refl)
    as (max_wm & Hloop & Hbest).
  rewrite app_nil_l in Hbest.
  destruct (present vals) as [|v0 present_vals] eqn:Hpresent.
  - (* no record carries a value *)
    destruct max_wm as [j|].
    { destruct Hbest as (m & _ & _ & [] & _). }
    rewrite Hrun. unfold bind. rewrite Hloop. reflexivity.
  - (* some record carries a value *)
    destruct max_wm as [j|]; [|discriminate Hbest].
    destruct Hbest as (m & -> & Hm & Hin & Hmax).
    exists m. eexists. split.
    { rewrite Hrun. unfold bind at 1. rewrite Hloop.
      rewrite (truthy_nonempty m Hm). reflexivity. }
    split; [exact Hin|]. split; [exact Hmax|].
    split.
    + cbn [trace log_event with_watermarks bump_ticks as_string_column].
      rewrite <- app_assoc. reflexivity.
    + intros default_iso. unfold get_watermark, latest_watermark.
      cbn [watermarks log_event with_watermarks bump_ticks as_string_column].
      rewrite rows_of_upsert_same. reflexivity.
Qed.

(** C2. When the search of an incremental run returned a non-empty sequence
    of records, each carrying a value in [hs_lastmodifieddate], and the sink
    write succeeded, the run returns after one call of [set_watermark], made
    after the write, for the entity and with the maximum of the values of
    all fetched records (in the order of Python strings, which for
    timestamps of one format is the order of time), whatever the position of
    the maximum among the records; the next [get_watermark] of the entity
    returns that maximum. *)
Theorem incremental_object_advances_to_max (fuel : nat) (env : Env)
    (object_name ent : string) (since : option string) (rows : list json)
    (vals : list string) (s s1 s2 : State) :
  get_watermark_default ent s = Val since s ->
  crm_search_since fuel env object_name since None 100 s = Val rows s1 ->
  rows <> [] ->
  write_bronze_delta env (JArr rows) ent Append s1 = Val tt s2 ->
  Forall2 Carries rows vals ->
  exists m s3,
    incremental_object fuel env object_name ent s = Val tt s3 /\
    In m vals /\
    (forall v, In v vals -> String.leb v m = true) /\
    trace s3
    = trace s2 ++ [EvSetWatermark ent "hs_lastmodifieddate" (Some m);
                   EvPrint (LogWatermark ent (JStr m))] /\
    watermark_sets (trace s3)
    = watermark_sets (trace s) ++ [(ent, "hs_lastmodifieddate", Some m)] /\
    forall default_iso, get_watermark ent default_iso s3 = Val (Some m) s3.
Proof.
  intros Hget Hsearch Hrows Hwrite Hshape.
  destruct rows as [|r rows]; [contradiction|].
  destruct (incremental_object_run fuel env object_name ent since r rows
              (map Some vals) s s1 s2 Hget Hsearch Hwrite
              (Forall2_Carries_Modified _ _ Hshape)) as [Hun Hrun].
  rewrite present_map_Some in Hrun.
  destruct vals as [|v0 vals]; [inversion Hshape|].
  destruct Hrun as (m & s3 & Hrun & Hin & Hmax & Htrace & Hnext).
  exists m, s3. split; [exact Hrun|]. split; [exact Hin|]. split; [exact Hmax|].
  split; [exact Htrace|]. split; [|exact Hnext].
  rewrite Htrace, watermark_sets_app. cbn [watermark_sets].
  f_equal. apply Untouched_sets; exact Hun.
Qed.

Lemma incremental_object_advances_to_max_witness :
  let env := account api_three_pages no_faults in
  let ent := "crm_feedback_submissions" in
  let s := with_watermarks control_table init_state in
  let since := Some watermark_before in
  let rows := [ crm_record "1" "2024-05-01T10:00:00.000Z";
                crm_record "2" "2024-05-03T10:00:00.000Z";
                crm_record "3" "2024-05-02T10:00:00.000Z";
                crm_record "4" "2024-05-02T12:00:00.000Z" ] in
  let vals := [ "2024-05-01T10:00:00.000Z"; "2024-05-03T10:00:00.000Z";
                "2024-05-02T10:00:00.000Z"; "2024-05-02T12:00:00.000Z" ] in
  let s1 := state_after (crm_search_since 3 env "feedback_submissions" since None 100 s) in
  let s2 := state_after (write_bronze_delta env (JArr rows) ent Append s1) in
  get_watermark_default ent s = Val since s /\
  crm_search_since 3 env "feedback_submissions" since None 100 s = Val rows s1 /\
  rows <> [] /\
  write_bronze_delta env (JArr rows) ent Append s1 = Val tt s2 /\
  Forall2 Carries rows vals /\
  exists m s3,
    incremental_object 3 env "feedback_submissions" ent s = Val tt s3 /\
    In m vals /\
    (forall v, In v vals -> String.leb v m = true) /\
    trace s3
    = trace s2 ++ [EvSetWatermark ent "hs_lastmodifieddate" (Some m);
                   EvPrint (LogWatermark ent (JStr m))] /\
    watermark_sets (trace s3)
    = watermark_sets (trace s) ++ [(ent, "hs_lastmodifieddate", Some m)] /\
    forall default_iso, get_watermark ent default_iso s3 = Val (Some m) s3.
Proof.
  intros env ent s since rows vals s1 s2.
  assert (H1 : get_watermark_default ent s = Val since s) by (vm_compute; reflexivity).
  assert (H2 : crm_search_since 3 env "feedback_submissions" since None 100 s
               = Val rows s1) by (vm_compute; reflexivity).
  assert (H3 : rows <> []) by discriminate.
  assert (H4 : write_bronze_delta env (JArr rows) ent Append s1 = Val tt s2)
    by (vm_compute; reflexivity).
  assert (H5 : Forall2 Carries rows vals).
  { repeat constructor;
      (do 2 eexists; split; [reflexivity|]; split; [reflexivity|];
       split; [reflexivity|discriminate]). }
  split; [exact H1|]. split; [exact H2|]. split; [exact H3|]. split; [exact H4|].
  split; [exact H5|].
  exact (incremental_object_advances_to_max 3 env "feedback_submissions" ent
           since rows vals s s1 s2 H1 H2 H3 H4 H5).
Defined.

(** The run of the witness moves the watermark to the value of the second
    record, the greatest, and not to that of the last record. *)
Example incremental_run_takes_the_maximum :
  let env := account api_three_pages no_faults in
  let s := with_watermarks control_table init_state in
  watermark_sets
    (events_of (incremental_object 3 env "feedback_submissions"
                                   "crm_feedback_submissions" s))
  = [("crm_feedback_submissions", "hs_lastmodifieddate",
      Some "2024-05-03T10:00:00.000Z")].
Proof. vm_compute. reflexivity. Qed.

(* ===================================================================== *)
(** * Further properties of the code *)
(* ===================================================================== *)

(** ** [get_access_token] and single attempts of [hs_request] *)

(** X1. When the token endpoint answers the refresh with a status of 300 or
    more, [hs_request] raises the token error with that status and body: the
    token endpoint was called once and no API request was sent. *)
Theorem hs_request_token_refused (env : Env) (method : Method) (path : string)
    (params : option (gmap string json)) (json_body : option json)
    (max_retries timeout_s : Z) (s : State) :
  300 <= status_code (token_response env (token_calls s)) ->
  exists s',
    hs_request env method path params json_body max_retries timeout_s s
    = Exc (TokenRefreshFailed (status_code (token_response env (token_calls s)))
                              (text (token_response env (token_calls s)))) s' /\
    trace s' = trace s ++ [EvToken (BASE_URL env +:+ "/oauth/v1/token")] /\
    token_calls s' = S (token_calls s) /\ api_calls s' = api_calls s.
Proof.
  intros Hst. eexists.
  unfold hs_request, bind at 1, get_access_token, bind, post_token.
  replace (status_code (token_response env (token_calls s)) >=? 300) with true
    by (rewrite Z.geb_leb; symmetry; apply Z.leb_le; lia).
  split; [reflexivity|]. repeat split.
Qed.

Lemma hs_request_token_refused_witness :
  let env := locked_out api_three_pages in
  300 <= status_code (token_response env (token_calls init_state)) /\
  exists s',
    hs_request env GET "/crm/v3/owners/" None None 6 120 init_state
    = Exc (TokenRefreshFailed
             (status_code (token_response env (token_calls init_state)))
             (text (token_response env (token_calls init_state)))) s' /\
    trace s' = trace init_state ++ [EvToken (BASE_URL env +:+ "/oauth/v1/token")] /\
    token_calls s' = S (token_calls init_state) /\
    api_calls s' = api_calls init_state.
Proof.
  intros env.
  assert (H : 300 <= status_code (token_response env (token_calls init_state)))
    by (simpl; lia).
  split; [exact H|].
  exact (hs_request_token_refused env GET "/crm/v3/owners/" None None 6 120
           init_state H).
Defined.

(** X2. When the token refresh succeeds and the first answer has a status
    below 300, [hs_request] returns the decoded body (the empty dict for an
    empty body) after one token refresh and one request, without sleeping,
    whatever [max_retries] is. *)
Theorem hs_request_first_success (env : Env) (method : Method) (path : string)
    (params : option (gmap string json)) (json_body : option json)
    (max_retries timeout_s : Z) (s : State) (tok doc : json) :
  TokenOk (token_response env (token_calls s)) tok ->
  Serves env (api_calls s) doc ->
  exists s',
    hs_request env method path params json_body max_retries timeout_s s
    = Val doc s' /\
    trace s' = trace s ++
      [EvToken (BASE_URL env +:+ "/oauth/v1/token");
       EvHttp method (BASE_URL env +:+ path) tok params json_body timeout_s].
Proof.
  intros Htok [Hst Hdec]. eexists.
  rewrite (hs_request_after_token _ _ _ _ _ _ _ _ tok Htok).
  unfold hs_request_fuel. cbn [hs_request_loop].
  unfold bind at 1, requests_request. cbn [api_calls bump_token log_event].
  replace (status_code (api_response env (api_calls s)) <? 300) with true
    by (symmetry; apply Z.ltb_lt; lia).
  split.
  - destruct Hdec as [[Ht ->]|[Ht Hv]].
    + rewrite Ht. reflexivity.
    + apply String.eqb_neq in Ht. rewrite Ht, Hv. reflexivity.
  - cbn. rewrite <- app_assoc. reflexivity.
Qed.

Lemma hs_request_first_success_witness :
  let env := account api_three_pages no_faults in
  TokenOk (token_response env (token_calls init_state)) (JStr "tok") /\
  Serves env (api_calls init_state) page1 /\
  exists s',
    hs_request env GET "/crm/v3/owners/" None None 0 120 init_state
    = Val page1 s' /\
    trace s' = trace init_state ++
      [EvToken (BASE_URL env +:+ "/oauth/v1/token");
       EvHttp GET (BASE_URL env +:+ "/crm/v3/owners/") (JStr "tok") None None 120].
Proof.
  intros env.
  assert (H1 : TokenOk (token_response env (token_calls init_state)) (JStr "tok")).
  { split; [simpl; lia|]. eexists. split; reflexivity. }
  assert (H2 : Serves env (api_calls init_state) page1).
  { split; [simpl; lia|]. right. split; [discriminate|reflexivity]. }
  split; [exact H1|]. split; [exact H2|].
  exact (hs_request_first_success env GET "/crm/v3/owners/" None None 0 120
           init_state (JStr "tok") page1 H1 H2).
Defined.

(** X3. A first answer with a status of 300 or more that is none of 429, 500,
    502, 503, 504 is fatal at once: [hs_request] raises the API error with
    that status, the path and the body after a single request, without
    sleeping. *)
Theorem hs_request_fatal_no_retry (env : Env) (method : Method) (path : string)
    (params : option (gmap string json)) (json_body : option json)
    (max_retries timeout_s : Z) (s : State) (tok : json) :
  TokenOk (token_response env (token_calls s)) tok ->
  300 <= status_code (api_response env (api_calls s)) ->
  is_transient (status_code (api_response env (api_calls s))) = false ->
  exists s',
    hs_request env method path params json_body max_retries timeout_s s
    = Exc (HubSpotApiError (status_code (api_response env (api_calls s))) path
                           (text (api_response env (api_calls s)))) s' /\
    trace s' = trace s ++
      [EvToken (BASE_URL env +:+ "/oauth/v1/token");
       EvHttp method (BASE_URL env +:+ path) tok params json_body timeout_s].
Proof.
  intros Htok Hst Htr. eexists.
  rewrite (hs_request_after_token _ _ _ _ _ _ _ _ tok Htok).
  unfold hs_request_fuel. cbn [hs_request_loop].
  unfold bind at 1, requests_request. cbn [api_calls bump_token log_event].
  replace (status_code (api_response env (api_calls s)) <? 300) with false
    by (symmetry; apply Z.ltb_ge; lia).
  rewrite Htr. cbn [andb].
  split; [reflexivity|]. cbn. rewrite <- app_assoc. reflexivity.
Qed.

Lemma hs_request_fatal_no_retry_witness :
  let env := account (script [] (failure 404 [])) no_faults in
  TokenOk (token_response env (token_calls init_state)) (JStr "tok") /\
  300 <= status_code (api_response env (api_calls init_state)) /\
  is_transient (status_code (api_response env (api_calls init_state))) = false /\
  exists s',
    hs_request env GET "/cms/v3/domains" (Some ∅) None 6 120 init_state
    = Exc (HubSpotApiError
             (status_code (api_response env (api_calls init_state)))
             "/cms/v3/domains"
             (text (api_response env (api_calls init_state)))) s' /\
    trace s' = trace init_state ++
      [EvToken (BASE_URL env +:+ "/oauth/v1/token");
       EvHttp GET (BASE_URL env +:+ "/cms/v3/domains") (JStr "tok") (Some ∅)
              None 120].
Proof.
  intros env.
  assert (H1 : TokenOk (token_response env (token_calls init_state)) (JStr "tok")).
  { split; [simpl; lia|]. eexists. split; reflexivity. }
  assert (H2 : 300 <= status_code (api_response env (api_calls init_state)))
    by (simpl; lia).
  assert (H3 : is_transient (status_code (api_response env (api_calls init_state)))
               = false) by reflexivity.
  split; [exact H1|]. split; [exact H2|]. split; [exact H3|].
  exact (hs_request_fatal_no_retry env GET "/cms/v3/domains" (Some ∅) None 6 120
           init_state (JStr "tok") H1 H2 H3).
Defined.

(** ** The retry budget and the delays *)

Section Exhaust.
Variables (env : Env) (method : Method) (url path : string) (bearer : json).
Variables (params : option (gmap string json)) (json_body : option json).
Variables (max_retries timeout_s : Z).

(** With [n] retries left in the budget and [n + 1] transient answers in a
    row, the loop retries [n] times and then raises for the last answer. *)
Lemma hs_request_loop_exhausts (n : nat) :
  forall (fuel : nat) (attempt : Z) (s : State),
    (n < fuel)%nat -> attempt + Z.of_nat n = max_retries ->
    (forall j, (j <= n)%nat ->
       is_transient (status_code (api_response env (api_calls s + j))) = true /\
       SaneRetryAfter (api_response env (api_calls s + j))) ->
    exists s' evs,
      hs_request_loop fuel env method url path bearer params json_body
                      max_retries timeout_s attempt s
      = Exc (HubSpotApiError
               (status_code (api_response env (api_calls s + n))) path
               (text (api_response env (api_calls s + n)))) s' /\
      trace s' = trace s ++ evs /\
      http_attempts evs = S n /\
      sleeps evs
      = map (fun j => spec_delay (api_response env (api_calls s + j))
                                 (attempt + 1 + Z.of_nat j))
            (seq 0 n).
Proof.
  induction n as [|n IH]; intros fuel attempt s Hfuel Hbudget Hfail;
    (destruct fuel as [|fuel]; [lia|]);
    cbn [hs_request_loop]; unfold bind at 1, requests_request;
    set (ev := EvHttp method url bearer params json_body timeout_s);
    set (s1 := bump_api (log_event ev s));
    (destruct (Hfail 0%nat) as [Htr Hsane]; [lia|]);
    rewrite Nat.add_0_r in Htr, Hsane;
    pose proof (is_transient_ge_300 _ Htr) as Hge;
    (replace (status_code (api_response env (api_calls s)) <? 300) with false
      by (symmetry; apply Z.ltb_ge; exact Hge));
    rewrite Htr.
  - replace (attempt + 1 <=? max_retries) with false
      by (symmetry; apply Z.leb_gt; lia).
    cbn [andb]. rewrite Nat.add_0_r.
    exists s1, [ev]. repeat split.
  - replace (attempt + 1 <=? max_retries) with true
      by (symmetry; apply Z.leb_le; lia).
    cbn [andb]. unfold bind at 1.
    destruct (sleep_seconds_spec _ (attempt + 1) s1 Hsane) as [Hsleep Hd].
    rewrite Hsleep. unfold bind at 1. rewrite (time_sleep_ok _ s1 Hd).
    set (d := spec_delay (api_response env (api_calls s)) (attempt + 1)).
    set (s2 := log_event (EvSleep d) s1).
    assert (Hs2 : api_calls s2 = S (api_calls s)) by reflexivity.
    destruct (IH fuel (attempt + 1) s2) as (s' & evs & Hrun & Htrace & Hhttp & Hsl).
    { lia. }
    { lia. }
    { intros j Hj. rewrite Hs2.
      replace (S (api_calls s) + j)%nat with (api_calls s + S j)%nat by lia.
      apply Hfail. lia. }
    exists s', (ev :: EvSleep d :: evs).
    split.
    { rewrite Hrun, Hs2.
      replace (S (api_calls s) + n)%nat with (api_calls s + S n)%nat by lia.
      reflexivity. }
    split; [rewrite Htrace; simpl; rewrite <- !app_assoc; reflexivity|].
    split; [unfold http_attempts in *; simpl; rewrite Hhttp; reflexivity|].
    cbn [sleeps seq map]. rewrite Hsl, <- seq_shift, map_map.
    unfold d. rewrite Nat.add_0_r. f_equal.
    { f_equal. lia. }
    apply map_ext. intros j. rewrite Hs2. f_equal; [f_equal; lia|lia].
Qed.
End Exhaust.

(** X4. When the first [max_retries + 1] answers are all transient failures
    (with a [Retry-After] that is absent, not accepted by [isdigit], or a
    decimal integer of at most 4300 digits and at most [sleep_max] seconds),
    [hs_request] gives up: it raises the API error of the last of them after
    exactly [max_retries + 1] requests and [max_retries] sleeps, each sleep
    being the [Retry-After] value or [min(60, 2^attempt)]. *)
Theorem hs_request_gives_up (env : Env) (method : Method) (path : string)
    (params : option (gmap string json)) (json_body : option json)
    (max_retries timeout_s : Z) (s : State) (tok : json) :
  0 <= max_retries ->
  TokenOk (token_response env (token_calls s)) tok ->
  (forall j, (j <= Z.to_nat max_retries)%nat ->
     is_transient (status_code (api_response env (api_calls s + j))) = true /\
     SaneRetryAfter (api_response env (api_calls s + j))) ->
  let last := api_response env (api_calls s + Z.to_nat max_retries) in
  exists s' evs,
    hs_request env method path params json_body max_retries timeout_s s
    = Exc (HubSpotApiError (status_code last) path (text last)) s' /\
    trace s' = trace s ++ evs /\
    http_attempts evs = S (Z.to_nat max_retries) /\
    sleeps evs
    = map (fun j => spec_delay (api_response env (api_calls s + j))
                               (Z.of_nat (S j)))
          (seq 0 (Z.to_nat max_retries)).
Proof.
  intros Hmax Htok Hfail last.
  rewrite (hs_request_after_token _ _ _ _ _ _ _ _ tok Htok).
  set (s0 := bump_token _).
  destruct (hs_request_loop_exhausts env method (BASE_URL env +:+ path) path tok
              params json_body max_retries timeout_s (Z.to_nat max_retries)
              (hs_request_fuel max_retries) 0 s0)
    as (s' & evs & Hrun & Htrace & Hhttp & Hsl).
  { unfold hs_request_fuel. lia. }
  { lia. }
  { exact Hfail. }
  exists s', (EvToken (BASE_URL env +:+ "/oauth/v1/token") :: evs).
  split; [exact Hrun|].
  split; [rewrite Htrace; unfold s0; simpl; rewrite <- app_assoc; reflexivity|].
  split; [exact Hhttp|].
  cbn [sleeps]. rewrite Hsl. apply map_ext. intros j. f_equal. lia.
Qed.

Lemma hs_request_gives_up_witness :
  let env := account api_always_503 no_faults in
  0 <= 6 /\
  TokenOk (token_response env (token_calls init_state)) (JStr "tok") /\
  (forall j, (j <= Z.to_nat 6)%nat ->
     is_transient (status_code (api_response env (api_calls init_state + j))) = true /\
     SaneRetryAfter (api_response env (api_calls init_state + j))) /\
  exists s' evs,
    hs_request env GET "/crm/v3/owners/" None None 6 120 init_state
    = Exc (HubSpotApiError 503 "/crm/v3/owners/" "") s' /\
    trace s' = trace init_state ++ evs /\
    http_attempts evs = 7%nat /\
    sleeps evs = [2; 4; 8; 16; 32; 60].
Proof.
  intros env.
  assert (H0 : 0 <= 6) by lia.
  assert (H1 : TokenOk (token_response env (token_calls init_state)) (JStr "tok")).
  { split; [simpl; lia|]. eexists. split; reflexivity. }
  assert (H2 : forall j, (j <= Z.to_nat 6)%nat ->
     is_transient (status_code (api_response env (api_calls init_state + j))) = true /\
     SaneRetryAfter (api_response env (api_calls init_state + j))).
  { intros j _. unfold env, account, api_always_503, script; simpl.
    destruct j as [|[|j]]; (split; [reflexivity|intros v Hv; discriminate Hv]). }
  split; [exact H0|]. split; [exact H1|]. split; [exact H2|].
  exact (hs_request_gives_up env GET "/crm/v3/owners/" None None 6 120
           init_state (JStr "tok") H0 H1 H2).
Defined.

(** X5. The sleep before a retry is never negative, and without a
    [Retry-After] header it is between 2 and 60 seconds and equals 60 from
    the sixth attempt on. *)
Theorem sleep_seconds_bounds (resp : Response) (attempt n : Z) (s s' : State) :
  1 <= attempt ->
  sleep_seconds resp attempt s = Val n s' ->
  0 <= n /\
  (headers_get "Retry-After" (headers resp) = None ->
   2 <= n <= 60 /\ (6 <= attempt -> n = 60)).
Proof.
  intros Hatt Hrun.
  assert (Hpow : 2 <= 2 ^ attempt).
  { change 2 with (2 ^ 1) at 1. apply Z.pow_le_mono_r; lia. }
  assert (Hbig : 6 <= attempt -> 64 <= 2 ^ attempt).
  { intros H6. change 64 with (2 ^ 6). apply Z.pow_le_mono_r; lia. }
  unfold sleep_seconds in Hrun.
  destruct (headers_get "Retry-After" (headers resp)) as [v|] eqn:Hv.
  - split; [|discriminate].
    destruct (negb (String.eqb v "") && isdigit v).
    + destruct (py_int v) as [k|] eqn:Hk; [|discriminate].
      injection Hrun as <- _. eapply py_int_nonneg; exact Hk.
    + injection Hrun as <- _. lia.
  - injection Hrun as <- _. split; [lia|].
    intros _. split; [lia|]. intros H6. specialize (Hbig H6). lia.
Qed.

Lemma sleep_seconds_bounds_witness :
  1 <= 7 /\
  sleep_seconds (failure 503 []) 7 init_state = Val 60 init_state /\
  0 <= 60 /\
  (headers_get "Retry-After" (headers (failure 503 [])) = None ->
   2 <= 60 <= 60 /\ (6 <= 7 -> 60 = 60)).
Proof.
  assert (H1 : 1 <= 7) by lia.
  assert (H2 : sleep_seconds (failure 503 []) 7 init_state = Val 60 init_state)
    by reflexivity.
  split; [exact H1|]. split; [exact H2|].
  exact (sleep_seconds_bounds (failure 503 []) 7 60 init_state init_state H1 H2).
Defined.

(** ** A [Retry-After] the code cannot sleep *)

Section FirstRetry.
Variables (env : Env) (method : Method) (path : string).
Variables (params : option (gmap string json)) (json_body : option json).
Variables (max_retries timeout_s : Z) (s : State) (tok : json) (lit : string).
Hypothesis token_ok : TokenOk (token_response env (token_calls s)) tok.
Hypothesis transient :
  is_transient (status_code (api_response env (api_calls s))) = true.
Hypothesis budget : 1 <= max_retries.
Hypothesis header :
  headers_get "Retry-After" (headers (api_response env (api_calls s))) = Some lit.
Hypothesis digits : isdigit lit = true.

(** A call whose first answer is transient, within the budget, with a
    [Retry-After] that [isdigit] accepts: after the one request, what is
    left is the conversion of the header and the sleep. *)
Lemma hs_request_first_retry :
  hs_request env method path params json_body max_retries timeout_s s
  = match py_int lit with
    | Some n =>
        (time_sleep n ;;;
         hs_request_loop (Z.to_nat max_retries) env method
           (BASE_URL env +:+ path) path tok params json_body
           max_retries timeout_s 1)
    | None => raise (ValueError lit)
    end
      (bump_api
         (log_event (EvHttp method (BASE_URL env +:+ path) tok params json_body
                            timeout_s)
            (bump_token
               (log_event (EvToken (BASE_URL env +:+ "/oauth/v1/token")) s)))).
Proof.
  rewrite (hs_request_after_token _ _ _ _ _ _ _ _ tok token_ok).
  unfold hs_request_fuel. cbn [hs_request_loop].
  unfold bind at 1, requests_request. cbn [api_calls bump_token log_event].
  pose proof (is_transient_ge_300 _ transient) as Hge.
  replace (status_code (api_response env (api_calls s)) <? 300) with false
    by (symmetry; apply Z.ltb_ge; exact Hge).
  rewrite transient.
  replace (0 + 1 <=? max_retries) with true by (symmetry; apply Z.leb_le; lia).
  cbn [andb]. unfold bind at 1, sleep_seconds. rewrite header, digits.
  assert (Hne : negb (String.eqb lit "") = true).
  { unfold isdigit in digits. apply andb_true_iff in digits as [H _]. exact H. }
  rewrite Hne. cbn [andb].
  destruct (py_int lit) as [n|]; reflexivity.
Qed.
End FirstRetry.

(** X25. A [Retry-After] of more seconds than [time.sleep] takes stops the
    call: when the first answer has a transient status, the budget allows a
    retry, and the header is a decimal integer above [sleep_max],
    [hs_request] raises [OverflowError] after one request, without sleeping
    and without the retry. *)
Theorem hs_request_retry_after_overflow (env : Env) (method : Method)
    (path : string) (params : option (gmap string json))
    (json_body : option json) (max_retries timeout_s : Z) (s : State)
    (tok : json) (lit : string) (n : Z) :
  TokenOk (token_response env (token_calls s)) tok ->
  is_transient (status_code (api_response env (api_calls s))) = true ->
  1 <= max_retries ->
  headers_get "Retry-After" (headers (api_response env (api_calls s))) = Some lit ->
  py_int lit = Some n -> sleep_max < n ->
  exists s',
    hs_request env method path params json_body max_retries timeout_s s
    = Exc OverflowError s' /\
    trace s' = trace s ++
      [EvToken (BASE_URL env +:+ "/oauth/v1/token");
       EvHttp method (BASE_URL env +:+ path) tok params json_body timeout_s].
Proof.
  intros Htok Htr Hmax Hh Hint Hbig.
  assert (Hd : isdigit lit = true)
    by (eapply decimal_isdigit, py_int_decimal, Hint).
  rewrite (hs_request_first_retry env method path params json_body max_retries
             timeout_s s tok lit Htok Htr Hmax Hh Hd), Hint.
  eexists. split.
  - unfold bind at 1.
    match goal with
    | |- context [time_sleep n ?s0] =>
        destruct (time_sleep_cases n s0 (py_int_nonneg lit n Hint))
          as [[Hle _]|[_ Hsl]]; [lia|rewrite Hsl]
    end.
    reflexivity.
  - cbn [trace bump_api bump_token log_event]. rewrite <- app_assoc. reflexivity.
Qed.

Lemma hs_request_retry_after_overflow_witness :
  let env := account api_429_long_sleep no_faults in
  let lit := "99999999999999999999" in
  TokenOk (token_response env (token_calls init_state)) (JStr "tok") /\
  is_transient (status_code (api_response env (api_calls init_state))) = true /\
  1 <= 6 /\
  headers_get "Retry-After" (headers (api_response env (api_calls init_state)))
  = Some lit /\
  py_int lit = Some 99999999999999999999 /\
  sleep_max < 99999999999999999999 /\
  exists s',
    hs_request env GET "/crm/v3/owners/" None None 6 120 init_state
    = Exc OverflowError s' /\
    trace s' = trace init_state ++
      [EvToken (BASE_URL env +:+ "/oauth/v1/token");
       EvHttp GET (BASE_URL env +:+ "/crm/v3/owners/") (JStr "tok") None None 120].
Proof.
  intros env lit.
  assert (H1 : TokenOk (token_response env (token_calls init_state)) (JStr "tok")).
  { split; [simpl; lia|]. eexists. split; reflexivity. }
  assert (H2 : is_transient (status_code (api_response env (api_calls init_state)))
               = true) by reflexivity.
  assert (H3 : 1 <= 6) by lia.
  assert (H4 : headers_get "Retry-After"
                 (headers (api_response env (api_calls init_state))) = Some lit)
    by reflexivity.
  assert (H5 : py_int lit = Some 99999999999999999999) by (vm_compute; reflexivity).
  assert (H6 : sleep_max < 99999999999999999999) by (unfold sleep_max; lia).
  split; [exact H1|]. split; [exact H2|]. split; [exact H3|]. split; [exact H4|].
  split; [exact H5|]. split; [exact H6|].
  exact (hs_request_retry_after_overflow env GET "/crm/v3/owners/" None None 6 120
           init_state (JStr "tok") lit 99999999999999999999 H1 H2 H3 H4 H5 H6).
Defined.

(** X26. A [Retry-After] that [isdigit] accepts and [int] does not convert
    stops the call: when the first answer has a transient status, the budget
    allows a retry, and the header is such a string (it holds a superscript
    digit, or it has more than 4300 digits), [hs_request] raises
    [ValueError] after one request, without sleeping and without the
    retry. *)
Theorem hs_request_retry_after_not_int (env : Env) (method : Method)
    (path : string) (params : option (gmap string json))
    (json_body : option json) (max_retries timeout_s : Z) (s : State)
    (tok : json) (lit : string) :
  TokenOk (token_response env (token_calls s)) tok ->
  is_transient (status_code (api_response env (api_calls s))) = true ->
  1 <= max_retries ->
  headers_get "Retry-After" (headers (api_response env (api_calls s))) = Some lit ->
  isdigit lit = true -> py_int lit = None ->
  exists s',
    hs_request env method path params json_body max_retries timeout_s s
    = Exc (ValueError lit) s' /\
    trace s' = trace s ++
      [EvToken (BASE_URL env +:+ "/oauth/v1/token");
       EvHttp method (BASE_URL env +:+ path) tok params json_body timeout_s].
Proof.
  intros Htok Htr Hmax Hh Hd Hint.
  rewrite (hs_request_first_retry env method path params json_body max_retries
             timeout_s s tok lit Htok Htr Hmax Hh Hd), Hint.
  eexists. split; [reflexivity|].
  cbn [trace bump_api bump_token log_event]. rewrite <- app_assoc. reflexivity.
Qed.

Lemma hs_request_retry_after_not_int_witness :
  let env := account api_503_long_number no_faults in
  TokenOk (token_response env (token_calls init_state)) (JStr "tok") /\
  is_transient (status_code (api_response env (api_calls init_state))) = true /\
  1 <= 6 /\
  headers_get "Retry-After" (headers (api_response env (api_calls init_state)))
  = Some nines_4301 /\
  isdigit nines_4301 = true /\ py_int nines_4301 = None /\
  exists s',
    hs_request env GET "/crm/v3/owners/" None None 6 120 init_state
    = Exc (ValueError nines_4301) s' /\
    trace s' = trace init_state ++
      [EvToken (BASE_URL env +:+ "/oauth/v1/token");
       EvHttp GET (BASE_URL env +:+ "/crm/v3/owners/") (JStr "tok") None None 120].
Proof.
  intros env.
  assert (H1 : TokenOk (token_response env (token_calls init_state)) (JStr "tok")).
  { split; [simpl; lia|]. eexists. split; reflexivity. }
  assert (H2 : is_transient (status_code (api_response env (api_calls init_state)))
               = true) by reflexivity.
  assert (H3 : 1 <= 6) by lia.
  assert (H4 : headers_get "Retry-After"
                 (headers (api_response env (api_calls init_state)))
               = Some nines_4301) by reflexivity.
  assert (H5 : isdigit nines_4301 = true) by (vm_compute; reflexivity).
  assert (H6 : py_int nines_4301 = None) by (vm_compute; reflexivity).
  split; [exact H1|]. split; [exact H2|]. split; [exact H3|]. split; [exact H4|].
  split; [exact H5|]. split; [exact H6|].
  exact (hs_request_retry_after_not_int env GET "/crm/v3/owners/" None None 6 120
           init_state (JStr "tok") nines_4301 H1 H2 H3 H4 H5 H6).
Defined.

(** Such a header is not one the retry policy is stated for. *)
Example long_sleep_is_not_sane :
  ~ SaneRetryAfter (failure 429 [("Retry-After", "99999999999999999999")]).
Proof.
  intros Hsane.
  destruct (Hsane "99999999999999999999" eq_refl eq_refl) as (n & Hn & Hle).
  vm_compute in Hn. injection Hn as <-. unfold sleep_max in Hle. lia.
Qed.

(** The longest [Retry-After] the code sleeps, and the first it does not. *)
Example time_sleep_limit :
  time_sleep 9223372036 init_state
  = Val tt (log_event (EvSleep 9223372036) init_state) /\
  time_sleep 9223372037 init_state = Exc OverflowError init_state.
Proof. split; reflexivity. Qed.

(** ** Frames, generically *)

Section Frames.
Variable R : State -> State -> Prop.
Hypothesis R_refl : forall s, R s s.
Hypothesis R_trans : forall s1 s2 s3, R s1 s2 -> R s2 s3 -> R s1 s3.

Lemma Frame_pure {A} (m : M A) : Pure m -> Frame R m.
Proof. intros Hm s s' Hfin. rewrite Hm in Hfin. injection Hfin as <-. apply R_refl. Qed.

Lemma Frame_bind {A B} (m : M A) (k : A -> M B) :
  Frame R m -> (forall a, Frame R (k a)) -> Frame R (bind m k).
Proof.
  intros Hm Hk s s' Hfin. unfold bind in Hfin.
  destruct (m s) as [a s1|e s1|] eqn:Hms; try discriminate.
  - eapply R_trans; [apply Hm; rewrite Hms; reflexivity|].
    eapply Hk. exact Hfin.
  - injection Hfin as <-. apply Hm. rewrite Hms. reflexivity.
Qed.

Lemma Frame_try_except {A} (m : M A) (h : Exn -> M A) :
  Frame R m -> (forall e, Frame R (h e)) -> Frame R (try_except m h).
Proof.
  intros Hm Hh s s' Hfin. unfold try_except in Hfin.
  destruct (m s) as [a s1|e s1|] eqn:Hms; try discriminate.
  - injection Hfin as <-. apply Hm. rewrite Hms. reflexivity.
  - eapply R_trans; [apply Hm; rewrite Hms; reflexivity|].
    eapply Hh. exact Hfin.
Qed.

Lemma Frame_run_all (steps : list (M unit)) :
  Forall (Frame R) steps -> Frame R (run_all steps).
Proof.
  induction 1 as [|step steps Hstep _ IH].
  - apply Frame_pure, Pure_ret.
  - cbn [run_all]. apply Frame_bind; [exact Hstep|intros _; exact IH].
Qed.
End Frames.

Lemma Frame_weaken (R R' : State -> State -> Prop) {A} (m : M A) :
  (forall s s', R s s' -> R' s s') -> Frame R m -> Frame R' m.
Proof. intros Himp Hm s s' Hfin. apply Himp, Hm, Hfin. Qed.

Lemma ApiOnly_refl (s : State) : ApiOnly s s.
Proof.
  split; [exists []; rewrite app_nil_r; split; [reflexivity|constructor]|].
  repeat split.
Qed.

Lemma ApiOnly_trans (s1 s2 s3 : State) :
  ApiOnly s1 s2 -> ApiOnly s2 s3 -> ApiOnly s1 s3.
Proof.
  intros ((evs1 & Ht1 & He1) & Hw1 & Hb1 & Hk1 & Hc1)
         ((evs2 & Ht2 & He2) & Hw2 & Hb2 & Hk2 & Hc2).
  split.
  - exists (evs1 ++ evs2). split; [rewrite Ht2, Ht1, app_assoc; reflexivity|].
    apply Forall_app; split; assumption.
  - repeat split; congruence.
Qed.

(** A call of [hs_request] is network traffic only. *)
Lemma hs_request_api_only (env : Env) (method : Method) (path : string)
    (params : option (gmap string json)) (json_body : option json)
    (max_retries timeout_s : Z) :
  Frame ApiOnly (hs_request env method path params json_body
                            max_retries timeout_s).
Proof.
  intros s s' Hfin.
  destruct (hs_request_run env method path params json_body
              max_retries timeout_s s)
    as (s'' & evs & tok & Hfin' & Htr & _ & Hev & _ & _ & _ & Hw & Hb & Hk & Hc).
  rewrite Hfin in Hfin'. injection Hfin' as <-.
  split; [|repeat split; assumption].
  eexists. split; [exact Htr|]. constructor; [reflexivity|exact Hev].
Qed.

Lemma paginate_loop_api_only (env : Env) (path : string)
    (page_key : option string) (fuel : nat) :
  forall out p, Frame ApiOnly (paginate_loop fuel env path page_key out p).
Proof.
  induction fuel as [|fuel IH]; intros out p; [intros s s' H; discriminate H|].
  cbn [paginate_loop].
  apply (Frame_bind _ ApiOnly_trans); [apply hs_request_api_only|intros data].
  apply (Frame_bind _ ApiOnly_trans);
    [apply (Frame_pure _ ApiOnly_refl), Pure_py_get_list|intros pg].
  apply (Frame_bind _ ApiOnly_trans);
    [apply (Frame_pure _ ApiOnly_refl), Pure_py_iter|intros items].
  apply (Frame_bind _ ApiOnly_trans);
    [apply (Frame_pure _ ApiOnly_refl), Pure_next_after|intros after].
  destruct (negb (truthy after)); [apply (Frame_pure _ ApiOnly_refl), Pure_ret|].
  apply IH.
Qed.

Lemma search_loop_api_only (env : Env) (object_name : string)
    (since_iso : option string) (properties : option (list string))
    (limit : Z) (fuel : nat) :
  forall after out,
    Frame ApiOnly (search_loop fuel env object_name since_iso properties limit
                               after out).
Proof.
  induction fuel as [|fuel IH]; intros after out; [intros s s' H; discriminate H|].
  cbn [search_loop].
  apply (Frame_bind _ ApiOnly_trans); [apply hs_request_api_only|intros data].
  apply (Frame_bind _ ApiOnly_trans);
    [apply (Frame_pure _ ApiOnly_refl), Pure_py_get_list|intros pg].
  apply (Frame_bind _ ApiOnly_trans);
    [apply (Frame_pure _ ApiOnly_refl), Pure_py_iter|intros items].
  apply (Frame_bind _ ApiOnly_trans);
    [apply (Frame_pure _ ApiOnly_refl), Pure_next_after|intros c].
  destruct (negb (truthy c)); [apply (Frame_pure _ ApiOnly_refl), Pure_ret|].
  apply IH.
Qed.

Lemma api_events_no_saves (evs : list Event) :
  Forall (fun e => is_api_event e = true) evs -> saves evs = [].
Proof.
  induction 1 as [|e evs He _ IH]; [reflexivity|].
  destruct e; simpl in *; try discriminate; exact IH.
Qed.

Lemma ApiOnly_Untouched (s s' : State) : ApiOnly s s' -> Untouched s s'.
Proof.
  intros ((evs & Htr & Hev) & Hw & _). split; [exact Hw|].
  exists evs. split; [exact Htr|apply api_events_no_sets; exact Hev].
Qed.

Lemma ApiOnly_SinkIdle (s s' : State) : ApiOnly s s' -> SinkIdle s s'.
Proof.
  intros ((evs & Htr & Hev) & _ & Hb & Hk & _).
  split; [exact Hb|]. split; [exact Hk|].
  exists evs. split; [exact Htr|apply api_events_no_saves; exact Hev].
Qed.

(** X6. Fetching pages is network traffic only: however [paginate_get] ends,
    it has used neither the control table, nor the sink, nor the clock, and
    what it added to the trace is token refreshes, requests and sleeps. *)
Theorem paginate_get_api_only (fuel : nat) (env : Env) (path : string)
    (params : option (gmap string json)) (page_key : option string)
    (s s' : State) :
  final (paginate_get fuel env path params page_key s) = Some s' ->
  ApiOnly s s'.
Proof. apply paginate_loop_api_only. Qed.

Lemma paginate_get_api_only_witness :
  let env := account api_owners_then_404 no_faults in
  let run := paginate_get 3 env "/crm/v3/owners/" None (Some "results") init_state in
  final run = Some (state_after run) /\ ApiOnly init_state (state_after run).
Proof.
  intros env run.
  assert (H : final run = Some (state_after run)) by (vm_compute; reflexivity).
  split; [exact H|].
  exact (paginate_get_api_only 3 env "/crm/v3/owners/" None (Some "results")
           init_state (state_after run) H).
Defined.

(** ** Pagination: failures, missing keys, cursors that never end *)

Section PaginateEdges.
Variables (env : Env) (path key : string).
Hypothesis tokens_ok : forall n, exists tok, TokenOk (token_response env n) tok.

(** Pages with a cursor and then a fatal answer: the loop raises. *)
Lemma paginate_loop_page_fails (firsts : list (json * list json * json)) :
  forall (fuel : nat) (out : list json) (p : gmap string json) (s : State),
    (length firsts < fuel)%nat ->
    PagesServed env key (api_calls s) firsts ->
    300 <= status_code (api_response env (api_calls s + length firsts)) ->
    is_transient (status_code (api_response env (api_calls s + length firsts)))
    = false ->
    exists s' evs,
      paginate_loop fuel env path (Some key) out p s
      = Exc (HubSpotApiError
               (status_code (api_response env (api_calls s + length firsts)))
               path
               (text (api_response env (api_calls s + length firsts)))) s' /\
      trace s' = trace s ++ evs /\
      http_attempts evs = S (length firsts).
Proof.
  induction firsts as [|[[doc rs] c] rest IH];
    intros fuel out p s Hfuel Hserved Hst Htr;
    (destruct fuel as [|fuel]; [simpl in Hfuel; lia|]);
    destruct (tokens_ok (token_calls s)) as [tok Htok];
    cbn [paginate_loop]; unfold bind at 1.
  - cbn [length] in *. rewrite Nat.add_0_r in *.
    rewrite (hs_request_default_fatal env GET path (Some p) None s tok Htok Hst Htr).
    eexists. eexists. split; [reflexivity|].
    split; [simpl; rewrite <- app_assoc; reflexivity|reflexivity].
  - destruct Hserved as (Hdoc & Hpg & Hrest).
    rewrite (hs_request_ok env GET path (Some p) None s tok doc Htok Hdoc).
    set (s1 := bump_api _).
    destruct (page_records key doc rs (Some c) s1 Hpg) as (o & -> & Hrec).
    unfold bind at 1 2 3. unfold bind in Hrec.
    destruct (py_get_list (JObj o) (Some key) s1) as [pg sa|e sa|] eqn:Hg;
      try discriminate.
    destruct (py_iter pg sa) as [items sb|e sb|] eqn:Hi; try discriminate.
    injection Hrec as -> ->.
    destruct Hpg as (o' & [= <-] & _ & Hcur).
    pose proof Hcur as (_ & _ & _ & _ & _ & Htruthy).
    rewrite (next_after_has_cursor o c s1 Hcur), Htruthy. cbn [negb].
    assert (Hs1 : api_calls s1 = S (api_calls s)) by reflexivity.
    assert (Hidx : (api_calls s1 + length rest
                    = api_calls s + length ((JObj o, rs, c) :: rest))%nat)
      by (rewrite Hs1; simpl; lia).
    destruct (IH fuel (out ++ rs) (<["after" := c]> p) s1)
      as (s' & evs & Hrun & Htrace & Hhttp).
    { simpl in Hfuel. lia. }
    { rewrite Hs1. exact Hrest. }
    { rewrite Hidx. exact Hst. }
    { rewrite Hidx. exact Htr. }
    exists s'. eexists. split.
    { rewrite Hrun, Hidx. reflexivity. }
    split.
    { rewrite Htrace. unfold s1. simpl. rewrite <- !app_assoc. simpl.
      reflexivity. }
    unfold http_attempts in *. simpl. rewrite Hhttp. reflexivity.
Qed.

(** A cursor on every page: no amount of fuel is enough. *)
Lemma paginate_loop_never_ends (doc : json) (rs : list json) (c : json) :
  (forall n, Serves env n doc) -> Page key doc rs (Some c) ->
  forall (fuel : nat) (out : list json) (p : gmap string json) (s : State),
    paginate_loop fuel env path (Some key) out p s = Fuel.
Proof.
  intros Hserves Hpg.
  induction fuel as [|fuel IH]; intros out p s; [reflexivity|].
  destruct (tokens_ok (token_calls s)) as [tok Htok].
  cbn [paginate_loop]. unfold bind at 1.
  rewrite (hs_request_ok env GET path (Some p) None s tok doc Htok
             (Hserves (api_calls s))).
  set (s1 := bump_api _).
  destruct (page_records key doc rs (Some c) s1 Hpg) as (o & Hdoc & Hrec).
  subst doc.
  unfold bind at 1 2 3. unfold bind in Hrec.
  destruct (py_get_list (JObj o) (Some key) s1) as [pg sa|e sa|] eqn:Hg;
    try discriminate.
  destruct (py_iter pg sa) as [items sb|e sb|] eqn:Hi; try discriminate.
  injection Hrec as -> ->.
  destruct Hpg as (o' & [= <-] & _ & Hcur).
  pose proof Hcur as (_ & _ & _ & _ & _ & Htruthy).
  rewrite (next_after_has_cursor o c s1 Hcur), Htruthy. cbn [negb].
  apply IH.
Qed.
End PaginateEdges.

(** X7. When a page fails fatally after [k] pages were fetched, [paginate_get]
    raises the API error of that request: the records of the [k] pages are
    not returned, and [k + 1] requests were sent. *)
Theorem paginate_get_page_fails (env : Env) (path key : string)
    (params : option (gmap string json))
    (firsts : list (json * list json * json)) (fuel : nat) (s : State) :
  (forall n, exists tok, TokenOk (token_response env n) tok) ->
  PagesServed env key (api_calls s) firsts ->
  300 <= status_code (api_response env (api_calls s + length firsts)) ->
  is_transient (status_code (api_response env (api_calls s + length firsts)))
  = false ->
  (length firsts < fuel)%nat ->
  exists s' evs,
    paginate_get fuel env path params (Some key) s
    = Exc (HubSpotApiError
             (status_code (api_response env (api_calls s + length firsts))) path
             (text (api_response env (api_calls s + length firsts)))) s' /\
    trace s' = trace s ++ evs /\
    http_attempts evs = S (length firsts).
Proof.
  intros Htok Hserved Hst Htr Hfuel.
  exact (paginate_loop_page_fails env path key Htok firsts fuel []
           (default ∅ params) s Hfuel Hserved Hst Htr).
Qed.

(** X8. The loop of [paginate_get] has no bound of its own: against an API
    that puts a cursor on every page it never returns, whatever bound the
    model gives it. *)
Theorem paginate_get_never_ends (env : Env) (path key : string)
    (params : option (gmap string json)) (doc : json) (rs : list json)
    (c : json) (fuel : nat) (s : State) :
  (forall n, exists tok, TokenOk (token_response env n) tok) ->
  (forall n, Serves env n doc) ->
  Page key doc rs (Some c) ->
  paginate_get fuel env path params (Some key) s = Fuel.
Proof.
  intros Htok Hserves Hpg.
  exact (paginate_loop_never_ends env path key Htok doc rs c Hserves Hpg fuel []
           (default ∅ params) s).
Qed.

Lemma page1_is_page :
  Page "results" page1 [crm_record "1" "2024-05-01T10:00:00.000Z"]
       (Some (JStr "a")).
Proof.
  eexists. split; [reflexivity|]. split; [left; reflexivity|].
  do 2 eexists. repeat split; reflexivity.
Defined.

Lemma paginate_get_page_fails_witness :
  let env := account api_page_then_404 no_faults in
  let firsts := [(page1, [crm_record "1" "2024-05-01T10:00:00.000Z"], JStr "a")] in
  (forall n, exists tok, TokenOk (token_response env n) tok) /\
  PagesServed env "results" (api_calls init_state) firsts /\
  300 <= status_code (api_response env (api_calls init_state + length firsts)) /\
  is_transient (status_code (api_response env (api_calls init_state + length firsts)))
  = false /\
  (length firsts < 5)%nat /\
  exists s' evs,
    paginate_get 5 env "/marketing/v3/campaigns" None (Some "results") init_state
    = Exc (HubSpotApiError 404 "/marketing/v3/campaigns" "") s' /\
    trace s' = trace init_state ++ evs /\
    http_attempts evs = 2%nat.
Proof.
  intros env firsts.
  pose proof (account_tokens_ok api_page_then_404 no_faults) as H1.
  assert (H2 : PagesServed env "results" (api_calls init_state) firsts).
  { simpl. split; [|split; [exact page1_is_page|exact I]].
    split; [simpl; lia|]. right. split; [discriminate|reflexivity]. }
  assert (H3 : 300 <= status_code
                 (api_response env (api_calls init_state + length firsts)))
    by (simpl; lia).
  assert (H4 : is_transient (status_code
                 (api_response env (api_calls init_state + length firsts)))
               = false) by reflexivity.
  assert (H5 : (length firsts < 5)%nat) by (simpl; lia).
  split; [exact H1|]. split; [exact H2|]. split; [exact H3|].
  split; [exact H4|]. split; [exact H5|].
  exact (paginate_get_page_fails env "/marketing/v3/campaigns" "results" None
           firsts 5 init_state H1 H2 H3 H4 H5).
Defined.

Lemma paginate_get_never_ends_witness :
  let env := account api_same_cursor no_faults in
  (forall n, exists tok, TokenOk (token_response env n) tok) /\
  (forall n, Serves env n page1) /\
  Page "results" page1 [crm_record "1" "2024-05-01T10:00:00.000Z"]
       (Some (JStr "a")) /\
  paginate_get 1000 env "/marketing/v3/campaigns" None (Some "results") init_state
  = Fuel.
Proof.
  intros env.
  pose proof (account_tokens_ok api_same_cursor no_faults) as H1.
  assert (H2 : forall n, Serves env n page1).
  { intros n. unfold Serves, env, account, api_same_cursor, script; simpl.
    destruct n as [|n]; (split; [simpl; lia|]; right; split;
                         [discriminate|reflexivity]). }
  split; [exact H1|]. split; [exact H2|]. split; [exact page1_is_page|].
  exact (paginate_get_never_ends env "/marketing/v3/campaigns" "results" None
           page1 _ _ 1000 init_state H1 H2 page1_is_page).
Defined.

Lemma paginate_get_frame (fuel : nat) (env : Env) (path : string)
    (params : option (gmap string json)) (page_key : option string) :
  Frame ApiOnly (paginate_get fuel env path params page_key).
Proof. apply paginate_loop_api_only. Qed.

(** Without a page key every page contributes nothing. *)
Lemma paginate_loop_no_key (env : Env) (path : string) (fuel : nat) :
  forall (out : list json) (p : gmap string json) (s : State)
         (out' : list json) (s' : State),
    paginate_loop fuel env path None out p s = Val out' s' -> out' = out.
Proof.
  induction fuel as [|fuel IH]; intros out p s out' s' Hrun; [discriminate|].
  cbn [paginate_loop] in Hrun. unfold bind at 1 in Hrun.
  destruct (hs_request_default env GET path (Some p) None s) as [data s1|e s1|];
    try discriminate.
  unfold bind at 1 in Hrun.
  destruct data as [| | | | |o]; try discriminate.
  cbn [py_get_list ret] in Hrun.
  unfold bind at 1 in Hrun. cbn [py_iter ret] in Hrun.
  rewrite app_nil_r in Hrun.
  unfold bind at 1 in Hrun.
  destruct (next_after (JObj o) s1) as [after s2|e s2|]; try discriminate.
  destruct (negb (truthy after)).
  - injection Hrun as <- _. reflexivity.
  - eapply IH. exact Hrun.
Qed.

(** X9. With [page_key=None], as in the owners fallback, [paginate_get] looks
    up a key that no decoded document has: whatever the pages hold, the list
    it returns is empty. *)
Theorem paginate_get_no_key_is_empty (fuel : nat) (env : Env) (path : string)
    (params : option (gmap string json)) (out : list json) (s s' : State) :
  paginate_get fuel env path params None s = Val out s' -> out = [].
Proof. apply paginate_loop_no_key. Qed.

Lemma paginate_get_no_key_is_empty_witness :
  let env := account api_three_pages no_faults in
  let run := paginate_get 5 env "/owners/v2/owners"
                          (Some {[ "count" := JNum 500 ]}) None init_state in
  run = Val [] (state_after run) /\ @nil json = [].
Proof.
  intros env run.
  assert (H : run = Val [] (state_after run)) by (vm_compute; reflexivity).
  split; [exact H|].
  exact (paginate_get_no_key_is_empty 5 env "/owners/v2/owners"
           (Some {[ "count" := JNum 500 ]}) [] init_state (state_after run) H).
Defined.

Lemma SinkIdle_refl (s : State) : SinkIdle s s.
Proof.
  split; [reflexivity|]. split; [reflexivity|].
  exists []. rewrite app_nil_r. auto.
Qed.

Lemma SinkIdle_trans (s1 s2 s3 : State) :
  SinkIdle s1 s2 -> SinkIdle s2 s3 -> SinkIdle s1 s3.
Proof.
  intros (Hb1 & Hk1 & evs1 & Ht1 & Hs1) (Hb2 & Hk2 & evs2 & Ht2 & Hs2).
  split; [congruence|]. split; [congruence|].
  exists (evs1 ++ evs2). rewrite Ht2, Ht1, <- app_assoc, saves_app, Hs1, Hs2.
  auto.
Qed.

Lemma SinkIdle_print (l : Log) (s : State) :
  SinkIdle s (log_event (EvPrint l) s).
Proof.
  split; [reflexivity|]. split; [reflexivity|]. exists [EvPrint l]. auto.
Qed.

(** X10. The fallback of [load_owners] cannot load anything: once the listing
    of [/crm/v3/owners/] has raised, however the run ends (the v2 listing
    answered or not), no Spark job was started, no dataset was committed and
    the owners snapshot is what it was. *)
Theorem load_owners_fallback_writes_nothing (fuel : nat) (env : Env) (e : Exn)
    (s s1 s' : State) :
  paginate_get fuel env "/crm/v3/owners/" (Some {[ "limit" := JNum 500 ]})
               (Some "results") s = Exc e s1 ->
  final (load_owners fuel env s) = Some s' ->
  SinkIdle s s'.
Proof.
  intros Hfirst Hfin.
  assert (H1 : SinkIdle s s1).
  { apply ApiOnly_SinkIdle.
    eapply paginate_get_frame. rewrite Hfirst. reflexivity. }
  unfold load_owners, bind at 1, try_except in Hfin. rewrite Hfirst in Hfin.
  destruct (paginate_get fuel env "/owners/v2/owners"
              (Some {[ "count" := JNum 500 ]}) None s1)
    as [data s2|e2 s2|] eqn:Hsecond; try discriminate.
  - assert (H2 : SinkIdle s1 s2).
    { apply ApiOnly_SinkIdle.
      eapply paginate_get_frame. rewrite Hsecond. reflexivity. }
    apply paginate_loop_no_key in Hsecond. subst data.
    cbn in Hfin. injection Hfin as <-.
    eapply SinkIdle_trans; [exact H1|].
    eapply SinkIdle_trans; [exact H2|apply SinkIdle_print].
  - injection Hfin as <-.
    eapply SinkIdle_trans; [exact H1|].
    apply ApiOnly_SinkIdle.
    eapply paginate_get_frame. rewrite Hsecond. reflexivity.
Qed.

Lemma load_owners_fallback_writes_nothing_witness :
  let env := account (script [failure 404 []] (ok_with page3)) no_faults in
  let first := paginate_get 5 env "/crm/v3/owners/"
                 (Some {[ "limit" := JNum 500 ]}) (Some "results") init_state in
  let run := load_owners 5 env init_state in
  first = Exc (HubSpotApiError 404 "/crm/v3/owners/" "") (state_after first) /\
  final run = Some (state_after run) /\
  SinkIdle init_state (state_after run).
Proof.
  intros env first run.
  assert (H1 : first = Exc (HubSpotApiError 404 "/crm/v3/owners/" "")
                           (state_after first)) by (vm_compute; reflexivity).
  assert (H2 : final run = Some (state_after run)) by (vm_compute; reflexivity).
  split; [exact H1|]. split; [exact H2|].
  exact (load_owners_fallback_writes_nothing 5 env _ init_state
           (state_after first) (state_after run) H1 H2).
Defined.

(** ** The search of the incremental run *)

Lemma items_get_set_same (k : string) (v : json) (o : list (string * json)) :
  items_get k (items_set k v o) = Some v.
Proof.
  induction o as [|[k' v'] o IH]; simpl.
  - rewrite String.eqb_refl. reflexivity.
  - destruct (String.eqb k k') eqn:E; simpl.
    + rewrite String.eqb_refl. reflexivity.
    + rewrite E. exact IH.
Qed.

Lemma items_get_set_other (k k' : string) (v : json) (o : list (string * json)) :
  k' <> k -> items_get k' (items_set k v o) = items_get k' o.
Proof.
  intros Hne. induction o as [|[k0 v0] o IH]; simpl.
  - apply String.eqb_neq in Hne. rewrite Hne. reflexivity.
  - destruct (String.eqb k k0) eqn:E; simpl.
    + apply String.eqb_eq in E. subst k0.
      apply String.eqb_neq in Hne. rewrite Hne. reflexivity.
    + rewrite IH. reflexivity.
Qed.

(** The search body carries the cursor under ["after"] when there is one,
    and has no such key otherwise; its filter is
    [hs_lastmodifieddate GTE since]; it carries the list of properties,
    whole, under ["properties"] when the list is not empty, and has no such
    key otherwise. *)
Lemma search_body_fields (since_iso : option string)
    (properties : option (list string)) (limit : Z) (after : json) :
  exists o,
    search_body since_iso properties limit after = JObj o /\
    items_get "after" o = (if truthy after then Some after else None) /\
    items_get "limit" o = Some (JNum limit) /\
    items_get "filterGroups" o
    = Some (JArr [ JObj [ ("filters",
                   JArr [ JObj [ ("propertyName", JStr "hs_lastmodifieddate");
                                 ("operator", JStr "GTE");
                                 ("value", json_of_option_string since_iso) ] ]) ] ]) /\
    items_get "sorts" o = Some (JArr [ JStr "hs_lastmodifieddate" ]) /\
    items_get "properties" o
    = match properties with
      | Some (p :: ps) => Some (JArr (map JStr (p :: ps)))
      | _ => None
      end.
Proof.
  unfold search_body. eexists. split; [reflexivity|].
  destruct properties as [[|p ps]|]; destruct (truthy after);
    repeat split;
    repeat first [ rewrite items_get_set_same
                 | rewrite items_get_set_other by discriminate ];
    reflexivity.
Qed.

(** Both properties asked for are in the body. *)
Example search_body_properties :
  search_body (Some watermark_before) (Some ["amount"; "dealname"]) 50 JNull
  = JObj [ ("filterGroups",
            JArr [ JObj [ ("filters",
                           JArr [ JObj [ ("propertyName", JStr "hs_lastmodifieddate");
                                         ("operator", JStr "GTE");
                                         ("value", JStr watermark_before) ] ]) ] ]);
           ("sorts", JArr [ JStr "hs_lastmodifieddate" ]);
           ("limit", JNum 50);
           ("properties", JArr [ JStr "amount"; JStr "dealname" ]) ].
Proof. reflexivity. Qed.

Section SearchPages.
Variables (env : Env) (object_name : string) (since_iso : option string).
Variables (properties : option (list string)) (limit : Z).
Hypothesis tokens_ok : forall n, exists tok, TokenOk (token_response env n) tok.

(** The loop of [crm_search_since] over pages with a cursor and a last page
    without one. *)
Lemma search_loop_pages (firsts : list (json * list json * json)) :
  forall (last_doc : json) (last_rs : list json) (fuel : nat)
         (after : json) (out : list json) (s : State),
    (length firsts < fuel)%nat ->
    PagesServed env "results" (api_calls s) firsts ->
    Serves env (api_calls s + length firsts) last_doc ->
    Page "results" last_doc last_rs None ->
    exists s' evs,
      search_loop fuel env object_name since_iso properties limit after out s
      = Val (out ++ records_of firsts ++ last_rs) s' /\
      trace s' = trace s ++ evs /\
      bodies_sent evs
      = map (fun c => Some (search_body since_iso properties limit c))
            (after :: cursors_of firsts) /\
      params_sent evs = repeat None (S (length firsts)) /\
      methods_sent evs = repeat POST (S (length firsts)).
Proof.
  induction firsts as [|[[doc rs] c] rest IH];
    intros last_doc last_rs fuel after out s Hfuel Hserved Hlast Hpage;
    (destruct fuel as [|fuel]; [simpl in Hfuel; lia|]);
    destruct (tokens_ok (token_calls s)) as [tok Htok];
    cbn [search_loop]; unfold bind at 1.
  - simpl in Hlast. rewrite Nat.add_0_r in Hlast.
    rewrite (hs_request_ok env POST _ None _ s tok last_doc Htok Hlast).
    set (s1 := bump_api _).
    destruct (page_records "results" last_doc last_rs None s1 Hpage)
      as (o & -> & Hrec).
    unfold bind at 1 2 3. unfold bind in Hrec.
    destruct (py_get_list (JObj o) (Some "results") s1) as [pg sa|e sa|] eqn:Hg;
      try discriminate.
    destruct (py_iter pg sa) as [items sb|e sb|] eqn:Hi; try discriminate.
    injection Hrec as -> ->.
    destruct Hpage as (o' & [= <-] & _ & Hno).
    destruct (next_after_no_cursor o s1 Hno) as (c & Hc & Hf).
    rewrite Hc, Hf. cbn [negb].
    eexists. eexists. split; [unfold records_of; simpl; reflexivity|].
    split; [unfold s1; simpl; rewrite <- app_assoc; reflexivity|].
    repeat split.
  - destruct Hserved as (Hdoc & Hpg & Hrest).
    rewrite (hs_request_ok env POST _ None _ s tok doc Htok Hdoc).
    set (s1 := bump_api _).
    destruct (page_records "results" doc rs (Some c) s1 Hpg) as (o & -> & Hrec).
    unfold bind at 1 2 3. unfold bind in Hrec.
    destruct (py_get_list (JObj o) (Some "results") s1) as [pg sa|e sa|] eqn:Hg;
      try discriminate.
    destruct (py_iter pg sa) as [items sb|e sb|] eqn:Hi; try discriminate.
    injection Hrec as -> ->.
    destruct Hpg as (o' & [= <-] & _ & Hcur).
    pose proof Hcur as (_ & _ & _ & _ & _ & Htruthy).
    rewrite (next_after_has_cursor o c s1 Hcur), Htruthy. cbn [negb].
    assert (Hs1 : api_calls s1 = S (api_calls s)) by reflexivity.
    destruct (IH last_doc last_rs fuel c (out ++ rs) s1)
      as (s' & evs & Hrun & Htrace & Hbodies & Hparams & Hmethods).
    { simpl in Hfuel. lia. }
    { rewrite Hs1. exact Hrest. }
    { rewrite Hs1. simpl in Hlast.
      replace (S (api_calls s) + length rest)%nat
        with (api_calls s + S (length rest))%nat by lia.
      exact Hlast. }
    { exact Hpage. }
    exists s'. eexists.
    split.
    { rewrite Hrun. unfold records_of. simpl.
      rewrite <- !app_assoc. reflexivity. }
    split.
    { rewrite Htrace. unfold s1. simpl. rewrite <- !app_assoc. simpl.
      reflexivity. }
    split; [simpl; rewrite Hbodies; reflexivity|].
    split; [simpl; rewrite Hparams; reflexivity|].
    simpl; rewrite Hmethods; reflexivity.
Qed.
End SearchPages.

(** X11. When the search endpoint serves [k - 1] pages with a cursor and then
    one without, [crm_search_since] returns the records of the [k] pages in
    order after [k] POST requests without query parameters; the cursor
    travels in the body: the first body has no ["after"] key, each later one
    has the cursor of the page before it there, and every body filters on
    [hs_lastmodifieddate GTE since], sorts on that field, and asks for the
    whole list of properties when the list is not empty (and has no
    ["properties"] key otherwise). *)
Theorem crm_search_since_pages (env : Env) (object_name : string)
    (since_iso : option string) (properties : option (list string))
    (limit : Z) (firsts : list (json * list json * json))
    (last_doc : json) (last_rs : list json) (fuel : nat) (s : State) :
  (forall n, exists tok, TokenOk (token_response env n) tok) ->
  PagesServed env "results" (api_calls s) firsts ->
  Serves env (api_calls s + length firsts) last_doc ->
  Page "results" last_doc last_rs None ->
  (length firsts < fuel)%nat ->
  exists s' evs,
    crm_search_since fuel env object_name since_iso properties limit s
    = Val (records_of firsts ++ last_rs) s' /\
    trace s' = trace s ++ evs /\
    methods_sent evs = repeat POST (S (length firsts)) /\
    params_sent evs = repeat None (S (length firsts)) /\
    bodies_sent evs
    = map (fun c => Some (search_body since_iso properties limit c))
          (JNull :: cursors_of firsts) /\
    forall c, exists o,
      search_body since_iso properties limit c = JObj o /\
      items_get "after" o = (if truthy c then Some c else None) /\
      items_get "limit" o = Some (JNum limit) /\
      items_get "filterGroups" o
      = Some (JArr [ JObj [ ("filters",
                     JArr [ JObj [ ("propertyName", JStr "hs_lastmodifieddate");
                                   ("operator", JStr "GTE");
                                   ("value", json_of_option_string since_iso) ] ]) ] ]) /\
      items_get "sorts" o = Some (JArr [ JStr "hs_lastmodifieddate" ]) /\
      items_get "properties" o
      = match properties with
        | Some (p :: ps) => Some (JArr (map JStr (p :: ps)))
        | _ => None
        end.
Proof.
  intros Htok Hserved Hlast Hpage Hfuel.
  destruct (search_loop_pages env object_name since_iso properties limit Htok
              firsts last_doc last_rs fuel JNull [] s Hfuel Hserved Hlast Hpage)
    as (s' & evs & Hrun & Htrace & Hbodies & Hparams & Hmethods).
  exists s', evs. split; [exact Hrun|]. split; [exact Htrace|].
  split; [exact Hmethods|]. split; [exact Hparams|]. split; [exact Hbodies|].
  intros c. apply search_body_fields.
Qed.

Lemma crm_search_since_pages_witness :
  let env := account api_three_pages no_faults in
  let firsts :=
    [ (page1, [crm_record "1" "2024-05-01T10:00:00.000Z"], JStr "a");
      (page2, [crm_record "2" "2024-05-03T10:00:00.000Z";
               crm_record "3" "2024-05-02T10:00:00.000Z"], JStr "b") ] in
  let last_rs := [crm_record "4" "2024-05-02T12:00:00.000Z"] in
  let since := Some watermark_before in
  let properties := Some ["hs_lastmodifieddate"; "hs_content"] in
  (forall n, exists tok, TokenOk (token_response env n) tok) /\
  PagesServed env "results" (api_calls init_state) firsts /\
  Serves env (api_calls init_state + length firsts) page3 /\
  Page "results" page3 last_rs None /\
  (length firsts < 3)%nat /\
  exists s' evs,
    crm_search_since 3 env "feedback_submissions" since properties 100 init_state
    = Val (records_of firsts ++ last_rs) s' /\
    trace s' = trace init_state ++ evs /\
    methods_sent evs = repeat POST (S (length firsts)) /\
    params_sent evs = repeat None (S (length firsts)) /\
    bodies_sent evs
    = map (fun c => Some (search_body since properties 100 c))
          (JNull :: cursors_of firsts) /\
    forall c, exists o,
      search_body since properties 100 c = JObj o /\
      items_get "after" o = (if truthy c then Some c else None) /\
      items_get "limit" o = Some (JNum 100) /\
      items_get "filterGroups" o
      = Some (JArr [ JObj [ ("filters",
                     JArr [ JObj [ ("propertyName", JStr "hs_lastmodifieddate");
                                   ("operator", JStr "GTE");
                                   ("value", json_of_option_string since) ] ]) ] ]) /\
      items_get "sorts" o = Some (JArr [ JStr "hs_lastmodifieddate" ]) /\
      items_get "properties" o
      = Some (JArr [ JStr "hs_lastmodifieddate"; JStr "hs_content" ]).
Proof.
  intros env firsts last_rs since properties.
  pose proof (account_tokens_ok api_three_pages no_faults) as Htok.
  assert (H1 : Serves env 0 page1).
  { split; [simpl; lia|]. right. split; [discriminate|reflexivity]. }
  assert (H2 : Serves env 1 page2).
  { split; [simpl; lia|]. right. split; [discriminate|reflexivity]. }
  assert (H3 : Serves env 2 page3).
  { split; [simpl; lia|]. right. split; [discriminate|reflexivity]. }
  assert (Hserved : PagesServed env "results" (api_calls init_state) firsts).
  { simpl. split; [exact H1|]. split; [exact page1_is_page|].
    split; [exact H2|]. split; [|exact I].
    eexists. split; [reflexivity|]. split; [left; reflexivity|].
    do 2 eexists. repeat split; reflexivity. }
  assert (Hpage : Page "results" page3 last_rs None).
  { eexists. split; [reflexivity|]. split; [left; reflexivity|].
    left. exact I. }
  assert (Hfuel : (length firsts < 3)%nat) by (simpl; lia).
  split; [exact Htok|]. split; [exact Hserved|]. split; [exact H3|].
  split; [exact Hpage|]. split; [exact Hfuel|].
  exact (crm_search_since_pages env "feedback_submissions" since properties 100
           firsts page3 last_rs 3 init_state Htok Hserved H3 Hpage Hfuel).
Defined.

(** ** The incremental run: failures, empty windows, other entities *)

Lemma crm_search_since_frame (fuel : nat) (env : Env) (object_name : string)
    (since_iso : option string) (properties : option (list string)) (limit : Z) :
  Frame ApiOnly (crm_search_since fuel env object_name since_iso properties limit).
Proof. apply search_loop_api_only. Qed.

(** X12. When the search of an incremental run raises, the run raises with it
    before any write: up to there it was network traffic only, so no Spark
    job was started and the control table was not used. *)
Theorem incremental_object_search_failure (fuel : nat) (env : Env)
    (object_name ent : string) (since : option string) (e : Exn)
    (s s1 : State) :
  get_watermark_default ent s = Val since s ->
  crm_search_since fuel env object_name since None 100 s = Exc e s1 ->
  incremental_object fuel env object_name ent s = Exc e s1 /\
  ApiOnly s s1.
Proof.
  intros Hget Hsearch. split.
  - unfold incremental_object, bind. rewrite Hget, Hsearch. reflexivity.
  - eapply crm_search_since_frame. rewrite Hsearch. reflexivity.
Qed.

Lemma incremental_object_search_failure_witness :
  let env := account api_page_then_404 no_faults in
  let s := with_watermarks control_table init_state in
  let since := Some watermark_before in
  let search := crm_search_since 3 env "feedback_submissions" since None 100 s in
  let e := HubSpotApiError 404 "/crm/v3/objects/feedback_submissions/search" "" in
  get_watermark_default "crm_feedback_submissions" s = Val since s /\
  search = Exc e (state_after search) /\
  incremental_object 3 env "feedback_submissions" "crm_feedback_submissions" s
  = Exc e (state_after search) /\
  ApiOnly s (state_after search).
Proof.
  intros env s since search e.
  assert (H1 : get_watermark_default "crm_feedback_submissions" s = Val since s)
    by (vm_compute; reflexivity).
  assert (H2 : search = Exc e (state_after search)) by (vm_compute; reflexivity).
  split; [exact H1|]. split; [exact H2|].
  exact (incremental_object_search_failure 3 env "feedback_submissions"
           "crm_feedback_submissions" since e s (state_after search) H1 H2).
Defined.

(** X13. When the search of an incremental run returns no record, the run
    returns after printing that there is nothing to write and nothing new
    since the watermark: no Spark job was started, and the control table was
    not used. *)
Theorem incremental_object_no_rows (fuel : nat) (env : Env)
    (object_name ent : string) (since : option string) (s s1 : State) :
  get_watermark_default ent s = Val since s ->
  crm_search_since fuel env object_name since None 100 s = Val [] s1 ->
  incremental_object fuel env object_name ent s
  = Val tt (log_event (EvPrint (LogNoNewRows ent since))
              (log_event (EvPrint (LogNoRecords ent)) s1)) /\
  ApiOnly s s1.
Proof.
  intros Hget Hsearch. split.
  - unfold incremental_object, bind. rewrite Hget, Hsearch. reflexivity.
  - eapply crm_search_since_frame. rewrite Hsearch. reflexivity.
Qed.

Lemma incremental_object_no_rows_witness :
  let env := account (script [] (ok_with (page [] None))) no_faults in
  let s := with_watermarks control_table init_state in
  let since := Some watermark_before in
  let ent := "crm_feedback_submissions" in
  let search := crm_search_since 3 env "feedback_submissions" since None 100 s in
  get_watermark_default ent s = Val since s /\
  search = Val [] (state_after search) /\
  incremental_object 3 env "feedback_submissions" ent s
  = Val tt (log_event (EvPrint (LogNoNewRows ent since))
              (log_event (EvPrint (LogNoRecords ent)) (state_after search))) /\
  ApiOnly s (state_after search).
Proof.
  intros env s since ent search.
  assert (H1 : get_watermark_default ent s = Val since s)
    by (vm_compute; reflexivity).
  assert (H2 : search = Val [] (state_after search)) by (vm_compute; reflexivity).
  split; [exact H1|]. split; [exact H2|].
  exact (incremental_object_no_rows 3 env "feedback_submissions" ent since s
           (state_after search) H1 H2).
Defined.

Lemma SameRows_refl (ent : string) (s : State) : SameRows ent s s.
Proof. reflexivity. Qed.

Lemma SameRows_trans (ent : string) (s1 s2 s3 : State) :
  SameRows ent s1 s2 -> SameRows ent s2 s3 -> SameRows ent s1 s3.
Proof. unfold SameRows. congruence. Qed.

Lemma Untouched_SameRows (ent : string) (s s' : State) :
  Untouched s s' -> SameRows ent s s'.
Proof. intros [Hw _]. unfold SameRows. rewrite Hw. reflexivity. Qed.

Lemma write_bronze_delta_frame (env : Env) (records : json) (ent : string)
    (mode : Mode) :
  Frame Untouched (write_bronze_delta env records ent mode).
Proof.
  intros s s' Hfin.
  destruct (write_bronze_delta_untouched env records ent mode s)
    as (s'' & Hfin' & Hun).
  rewrite Hfin in Hfin'. injection Hfin' as <-. exact Hun.
Qed.

Lemma Pure_max_wm_step (max_wm : option json) (r : json) :
  Pure (max_wm_step max_wm r).
Proof.
  unfold max_wm_step.
  apply Pure_bind; [apply Pure_py_get|intros props].
  apply Pure_bind; [apply Pure_py_get|intros v].
  destruct (negb (truthy v)); [apply Pure_ret|].
  destruct max_wm as [m|]; [|apply Pure_ret].
  destruct (py_gt v m) as [[|]|];
    first [apply Pure_ret|apply Pure_raise].
Qed.

Lemma Pure_max_wm_loop (rows : list json) :
  forall max_wm, Pure (max_wm_loop rows max_wm).
Proof.
  induction rows as [|r rows IH]; intros max_wm; [apply Pure_ret|].
  cbn [max_wm_loop]. apply Pure_bind; [apply Pure_max_wm_step|exact IH].
Qed.

(** [set_watermark] for one entity keeps the rows of every other one,
    whatever the value is. *)
Lemma set_watermark_same_rows (env : Env) (ent ent' wtype : string)
    (value : json) :
  ent' <> ent -> Frame (SameRows ent') (set_watermark env ent wtype value).
Proof.
  intros Hne s s' Hfin.
  unfold set_watermark, bind at 1, now in Hfin.
  injection Hfin as <-. unfold SameRows.
  cbn [watermarks log_event with_watermarks bump_ticks].
  apply rows_of_upsert_other; exact Hne.
Qed.

Lemma incremental_object_same_rows (fuel : nat) (env : Env)
    (object_name ent ent' : string) :
  ent' <> ent ->
  Frame (SameRows ent') (incremental_object fuel env object_name ent).
Proof.
  intros Hne. unfold incremental_object.
  pose proof (SameRows_refl ent') as Hrefl.
  pose proof (SameRows_trans ent') as Htrans.
  apply (Frame_bind _ Htrans).
  { apply (Frame_pure _ Hrefl). intros s. reflexivity. }
  intros since. apply (Frame_bind _ Htrans).
  { eapply Frame_weaken; [|apply crm_search_since_frame].
    intros s s' H. apply Untouched_SameRows, ApiOnly_Untouched, H. }
  intros rows. apply (Frame_bind _ Htrans).
  { eapply Frame_weaken; [|apply write_bronze_delta_frame].
    intros s s' H. apply Untouched_SameRows, H. }
  intros _. destruct rows as [|r rows].
  { intros s s' [= <-]. reflexivity. }
  apply (Frame_bind _ Htrans).
  { apply (Frame_pure _ Hrefl), Pure_max_wm_loop. }
  intros [m|]; [|apply (Frame_pure _ Hrefl), Pure_ret].
  destruct (truthy m); [|apply (Frame_pure _ Hrefl), Pure_ret].
  apply (Frame_bind _ Htrans).
  { apply set_watermark_same_rows. exact Hne. }
  intros _ s s' [= <-]. reflexivity.
Qed.

(** X14. An incremental run of one entity never changes the watermark rows of
    another: however the run ends, returning or raising at any point, the
    rows of every other entity in the control table are the rows it had. *)
Theorem incremental_object_keeps_other_entities (fuel : nat) (env : Env)
    (object_name ent ent' : string) (s s' : State) :
  ent' <> ent ->
  final (incremental_object fuel env object_name ent s) = Some s' ->
  rows_of ent' (watermarks s') = rows_of ent' (watermarks s).
Proof.
  intros Hne Hfin.
  exact (incremental_object_same_rows fuel env object_name ent ent' Hne s s' Hfin).
Qed.

Lemma incremental_object_keeps_other_entities_witness :
  let env := account api_three_pages no_faults in
  let s := with_watermarks control_table init_state in
  let run := incremental_object 3 env "feedback_submissions"
                                "crm_feedback_submissions" s in
  "crm_contacts" <> "crm_feedback_submissions" /\
  final run = Some (state_after run) /\
  rows_of "crm_contacts" (watermarks (state_after run))
  = rows_of "crm_contacts" (watermarks s).
Proof.
  intros env s run.
  assert (H1 : "crm_contacts" <> "crm_feedback_submissions") by discriminate.
  assert (H2 : final run = Some (state_after run)) by (vm_compute; reflexivity).
  split; [exact H1|]. split; [exact H2|].
  exact (incremental_object_keeps_other_entities 3 env "feedback_submissions"
           "crm_feedback_submissions" "crm_contacts" s (state_after run) H1 H2).
Defined.

(** ** The guard of the watermark update *)

(** X23. Records without a value do not move the watermark: when the search
    of an incremental run returned records, the sink write succeeded, and no
    record carries a value in [hs_lastmodifieddate] (no or empty
    [properties], no field, or a null or empty field), the run ends where
    the write ended: [set_watermark] is not called, the control table is
    what it was, and the next run starts from the same watermark. *)
Theorem incremental_object_no_value_keeps_watermark (fuel : nat) (env : Env)
    (object_name ent : string) (since : option string) (r : json)
    (rows : list json) (vals : list (option string)) (s s1 s2 : State) :
  get_watermark_default ent s = Val since s ->
  crm_search_since fuel env object_name since None 100 s = Val (r :: rows) s1 ->
  write_bronze_delta env (JArr (r :: rows)) ent Append s1 = Val tt s2 ->
  Forall2 Modified (r :: rows) vals ->
  present vals = [] ->
  incremental_object fuel env object_name ent s = Val tt s2 /\
  watermark_sets (trace s2) = watermark_sets (trace s) /\
  watermarks s2 = watermarks s /\
  get_watermark_default ent s2 = Val since s2.
Proof.
  intros Hget Hsearch Hwrite Hshape Hnone.
  destruct (incremental_object_run fuel env object_name ent since r rows vals
              s s1 s2 Hget Hsearch Hwrite Hshape) as [Hun Hrun].
  rewrite Hnone in Hrun.
  split; [exact Hrun|]. split; [apply Untouched_sets; exact Hun|].
  destruct Hun as [Hw _]. split; [exact Hw|].
  unfold get_watermark_default, get_watermark in *. rewrite Hw.
  injection Hget as Hget. rewrite Hget. reflexivity.
Qed.

Lemma incremental_object_no_value_keeps_watermark_witness :
  let env := account api_record_without_properties no_faults in
  let ent := "crm_feedback_submissions" in
  let s := with_watermarks control_table init_state in
  let since := Some watermark_before in
  let r := JObj [("id", JStr "1")] in
  let s1 := state_after (crm_search_since 3 env "feedback_submissions" since None 100 s) in
  let s2 := state_after (write_bronze_delta env (JArr [r]) ent Append s1) in
  get_watermark_default ent s = Val since s /\
  crm_search_since 3 env "feedback_submissions" since None 100 s = Val [r] s1 /\
  write_bronze_delta env (JArr [r]) ent Append s1 = Val tt s2 /\
  Forall2 Modified [r] [None] /\
  present [None] = [] /\
  incremental_object 3 env "feedback_submissions" ent s = Val tt s2 /\
  watermark_sets (trace s2) = watermark_sets (trace s) /\
  watermarks s2 = watermarks s /\
  get_watermark_default ent s2 = Val since s2.
Proof.
  intros env ent s since r s1 s2.
  assert (H1 : get_watermark_default ent s = Val since s) by (vm_compute; reflexivity).
  assert (H2 : crm_search_since 3 env "feedback_submissions" since None 100 s
               = Val [r] s1) by (vm_compute; reflexivity).
  assert (H3 : write_bronze_delta env (JArr [r]) ent Append s1 = Val tt s2)
    by (vm_compute; reflexivity).
  assert (H4 : Forall2 Modified [r] [None]).
  { repeat constructor. eexists. split; [reflexivity|]. left.
    split; [exact I|reflexivity]. }
  assert (H5 : present [None] = []) by reflexivity.
  split; [exact H1|]. split; [exact H2|]. split; [exact H3|]. split; [exact H4|].
  split; [exact H5|].
  exact (incremental_object_no_value_keeps_watermark 3 env "feedback_submissions"
           ent since r [] [None] s s1 s2 H1 H2 H3 H4 H5).
Defined.

(** The run of the witness has written the record and has not called
    [set_watermark]. *)
Example incremental_run_without_value :
  let env := account api_record_without_properties no_faults in
  let run := incremental_object 3 env "feedback_submissions"
                                "crm_feedback_submissions" init_state in
  (exists s', run = Val tt s') /\
  saves (events_of run)
  = [("dbfs:/mnt/datalake/bronze/hubspot/crm_feedback_submissions", Append,
      [JObj [("id", JStr "1")]])] /\
  watermark_sets (events_of run) = [] /\
  watermarks (state_after run) = [].
Proof.
  intros env run.
  split; [eexists; vm_compute; reflexivity|].
  repeat split; vm_compute; reflexivity.
Qed.

(** X24. The scan skips the records without a value: when at least one of
    the records of a successful run carries a value in
    [hs_lastmodifieddate], [set_watermark] is called once, with the greatest
    of the values that are there, and the next [get_watermark] returns it. *)
Theorem incremental_object_skips_missing_values (fuel : nat) (env : Env)
    (object_name ent : string) (since : option string) (r : json)
    (rows : list json) (vals : list (option string)) (s s1 s2 : State) :
  get_watermark_default ent s = Val since s ->
  crm_search_since fuel env object_name since None 100 s = Val (r :: rows) s1 ->
  write_bronze_delta env (JArr (r :: rows)) ent Append s1 = Val tt s2 ->
  Forall2 Modified (r :: rows) vals ->
  present vals <> [] ->
  exists m s3,
    incremental_object fuel env object_name ent s = Val tt s3 /\
    In m (present vals) /\
    (forall v, In v (present vals) -> String.leb v m = true) /\
    watermark_sets (trace s3)
    = watermark_sets (trace s) ++ [(ent, "hs_lastmodifieddate", Some m)] /\
    forall default_iso, get_watermark ent default_iso s3 = Val (Some m) s3.
Proof.
  intros Hget Hsearch Hwrite Hshape Hsome.
  destruct (incremental_object_run fuel env object_name ent since r rows vals
              s s1 s2 Hget Hsearch Hwrite Hshape) as [Hun Hrun].
  destruct (present vals) as [|v0 present_vals]; [contradiction|].
  destruct Hrun as (m & s3 & Hrun & Hin & Hmax & Htrace & Hnext).
  exists m, s3. split; [exact Hrun|]. split; [exact Hin|]. split; [exact Hmax|].
  split; [|exact Hnext].
  rewrite Htrace, watermark_sets_app. cbn [watermark_sets].
  f_equal. apply Untouched_sets; exact Hun.
Qed.

Lemma incremental_object_skips_missing_values_witness :
  let env := account api_record_among_others no_faults in
  let ent := "crm_feedback_submissions" in
  let s := with_watermarks control_table init_state in
  let since := Some watermark_before in
  let r := crm_record "1" "2024-05-02T10:00:00.000Z" in
  let rows := [JObj [("id", JStr "2")];
               crm_record "3" "2024-05-01T10:00:00.000Z"] in
  let vals := [Some "2024-05-02T10:00:00.000Z"; None;
               Some "2024-05-01T10:00:00.000Z"] in
  let s1 := state_after (crm_search_since 3 env "feedback_submissions" since None 100 s) in
  let s2 := state_after (write_bronze_delta env (JArr (r :: rows)) ent Append s1) in
  get_watermark_default ent s = Val since s /\
  crm_search_since 3 env "feedback_submissions" since None 100 s
  = Val (r :: rows) s1 /\
  write_bronze_delta env (JArr (r :: rows)) ent Append s1 = Val tt s2 /\
  Forall2 Modified (r :: rows) vals /\
  present vals <> [] /\
  exists m s3,
    incremental_object 3 env "feedback_submissions" ent s = Val tt s3 /\
    In m (present vals) /\
    (forall v, In v (present vals) -> String.leb v m = true) /\
    watermark_sets (trace s3)
    = watermark_sets (trace s) ++ [(ent, "hs_lastmodifieddate", Some m)] /\
    forall default_iso, get_watermark ent default_iso s3 = Val (Some m) s3.
Proof.
  intros env ent s since r rows vals s1 s2.
  assert (H1 : get_watermark_default ent s = Val since s) by (vm_compute; reflexivity).
  assert (H2 : crm_search_since 3 env "feedback_submissions" since None 100 s
               = Val (r :: rows) s1) by (vm_compute; reflexivity).
  assert (H3 : write_bronze_delta env (JArr (r :: rows)) ent Append s1 = Val tt s2)
    by (vm_compute; reflexivity).
  assert (H4 : Forall2 Modified (r :: rows) vals).
  { constructor.
    { eexists. split; [reflexivity|]. right. eexists. split; [reflexivity|].
      split; [reflexivity|discriminate]. }
    constructor.
    { eexists. split; [reflexivity|]. left. split; [exact I|reflexivity]. }
    constructor; [|constructor].
    eexists. split; [reflexivity|]. right. eexists. split; [reflexivity|].
    split; [reflexivity|discriminate]. }
  assert (H5 : present vals <> []) by discriminate.
  split; [exact H1|]. split; [exact H2|]. split; [exact H3|]. split; [exact H4|].
  split; [exact H5|].
  exact (incremental_object_skips_missing_values 3 env "feedback_submissions"
           ent since r rows vals s s1 s2 H1 H2 H3 H4 H5).
Defined.

(** ** The full load and the control table *)

Lemma hs_request_default_frame (env : Env) (method : Method) (path : string)
    (params : option (gmap string json)) (json_body : option json) :
  Frame ApiOnly (hs_request_default env method path params json_body).
Proof. apply hs_request_api_only. Qed.

Lemma Pure_py_setitem (d : json) (k : string) (v : json) :
  Pure (py_setitem d k v).
Proof. destruct d; simpl; first [apply Pure_ret|apply Pure_raise]. Qed.

Lemma print_frame (l : Log) : Frame Untouched (print l).
Proof. intros s s' [= <-]. apply Untouched_print. Qed.

Lemma paginate_get_untouched (fuel : nat) (env : Env) (path : string)
    (params : option (gmap string json)) (page_key : option string) :
  Frame Untouched (paginate_get fuel env path params page_key).
Proof.
  eapply Frame_weaken; [|apply paginate_get_frame].
  intros s s' H. apply ApiOnly_Untouched, H.
Qed.

Lemma hs_request_default_untouched (env : Env) (method : Method) (path : string)
    (params : option (gmap string json)) (json_body : option json) :
  Frame Untouched (hs_request_default env method path params json_body).
Proof.
  eapply Frame_weaken; [|apply hs_request_default_frame].
  intros s s' H. apply ApiOnly_Untouched, H.
Qed.

Lemma revenue_loop_untouched (env : Env) (campaigns : list json) :
  forall out, Frame Untouched (revenue_loop env campaigns out).
Proof.
  induction campaigns as [|c campaigns IH]; intros out.
  { apply (Frame_pure _ Untouched_refl), Pure_ret. }
  cbn [revenue_loop].
  apply (Frame_bind _ Untouched_trans);
    [apply (Frame_pure _ Untouched_refl), Pure_py_get|intros guid].
  destruct (negb (truthy guid)); [apply IH|].
  apply (Frame_bind _ Untouched_trans); [|intros out'; apply IH].
  unfold fetch_revenue, revenue_try.
  apply (Frame_try_except _ Untouched_trans).
  - apply (Frame_bind _ Untouched_trans);
      [apply hs_request_default_untouched|intros rev].
    apply (Frame_bind _ Untouched_trans);
      [apply (Frame_pure _ Untouched_refl), Pure_py_setitem|intros rev'].
    apply (Frame_pure _ Untouched_refl), Pure_ret.
  - intros e. apply (Frame_bind _ Untouched_trans); [apply print_frame|].
    intros _. apply (Frame_pure _ Untouched_refl), Pure_ret.
Qed.

Lemma load_settings_untouched (env : Env) (path : string)
    (params : gmap string json) (ent : string) :
  Frame Untouched (load_settings env path params ent).
Proof.
  unfold load_settings.
  apply (Frame_bind _ Untouched_trans);
    [apply hs_request_default_untouched|intros data].
  apply write_bronze_delta_frame.
Qed.

Lemma paginated_load_untouched (fuel : nat) (env : Env) (path : string)
    (params : option (gmap string json)) (ent : string) :
  Frame Untouched
    (bind (paginate_get fuel env path params (Some "results"))
          (fun rows => write_bronze_delta env (JArr rows) ent Overwrite)).
Proof.
  apply (Frame_bind _ Untouched_trans);
    [apply paginate_get_untouched|intros rows; apply write_bronze_delta_frame].
Qed.

Lemma load_owners_untouched (fuel : nat) (env : Env) :
  Frame Untouched (load_owners fuel env).
Proof.
  unfold load_owners.
  apply (Frame_bind _ Untouched_trans);
    [|intros data; apply write_bronze_delta_frame].
  apply (Frame_try_except _ Untouched_trans);
    [|intros _]; apply paginate_get_untouched.
Qed.

Lemma campaign_loads_untouched (fuel : nat) (env : Env) :
  Frame Untouched
    (bind (load_campaigns fuel env) (load_campaign_revenue env)).
Proof.
  apply (Frame_bind _ Untouched_trans).
  - unfold load_campaigns.
    apply (Frame_bind _ Untouched_trans);
      [apply paginate_get_untouched|intros rows].
    apply (Frame_bind _ Untouched_trans);
      [apply write_bronze_delta_frame|intros _].
    apply (Frame_pure _ Untouched_refl), Pure_ret.
  - intros campaigns. unfold load_campaign_revenue.
    apply (Frame_bind _ Untouched_trans);
      [apply revenue_loop_untouched|intros out].
    apply write_bronze_delta_frame.
Qed.

Lemma full_load_untouched (fuel : nat) (env : Env) :
  Frame Untouched (full_load fuel env).
Proof.
  unfold full_load.
  apply (Frame_bind _ Untouched_trans); [|intros _; apply print_frame].
  apply (Frame_run_all _ Untouched_refl Untouched_trans).
  unfold loads_after_owners, load_crm_object, load_meeting_links,
    load_currencies, load_domains, load_tax_rates, load_comm_pref_definitions.
  repeat (apply List.Forall_cons;
          [first [ apply load_owners_untouched
                 | apply campaign_loads_untouched
                 | apply paginated_load_untouched
                 | apply load_settings_untouched ]|]).
  apply List.Forall_nil.
Qed.

(** X15. The full load never advances a watermark: however the run sequence
    ends, completed or stopped by an exception of any load, it has not
    called [set_watermark] and the control table is what it was, although it
    has overwritten the dataset of the incremental entity as well. *)
Theorem full_load_leaves_watermarks (fuel : nat) (env : Env) (s s' : State) :
  final (full_load fuel env s) = Some s' ->
  watermarks s' = watermarks s /\
  watermark_sets (trace s') = watermark_sets (trace s).
Proof.
  intros Hfin. pose proof (full_load_untouched fuel env s s' Hfin) as Hun.
  split; [apply Hun|apply Untouched_sets; exact Hun].
Qed.

Lemma full_load_leaves_watermarks_witness :
  let env := account api_owners_then_404 no_faults in
  let s := with_watermarks control_table init_state in
  let run := full_load 3 env s in
  final run = Some (state_after run) /\
  watermarks (state_after run) = watermarks s /\
  watermark_sets (trace (state_after run)) = watermark_sets (trace s).
Proof.
  intros env s run.
  assert (H : final run = Some (state_after run)) by (vm_compute; reflexivity).
  split; [exact H|].
  exact (full_load_leaves_watermarks 3 env s (state_after run) H).
Defined.

(** ** The control table under [set_watermark] *)

Lemma rows_not_of_In (ent : string) (df : list WatermarkRow) (r : WatermarkRow) :
  In r (rows_not_of ent df) <-> In r df /\ entity r <> ent.
Proof.
  unfold rows_not_of. rewrite filter_In, negb_true_iff.
  rewrite <- String.eqb_neq. reflexivity.
Qed.

Lemma rows_not_of_entities_NoDup (ent : string) (df : list WatermarkRow) :
  NoDup (map entity df) -> NoDup (map entity (rows_not_of ent df)).
Proof.
  unfold rows_not_of. induction df as [|r df IH]; simpl; intros Hnd.
  - constructor.
  - apply NoDup_cons in Hnd as [Hnotin Hnd].
    destruct (negb (String.eqb (entity r) ent)); simpl; [|apply IH; exact Hnd].
    apply NoDup_cons. split; [|apply IH; exact Hnd].
    intros Hin. apply Hnotin.
    apply list_elem_of_In, in_map_iff in Hin as (r' & He & Hin).
    apply filter_In in Hin as [Hin _].
    apply list_elem_of_In, in_map_iff. exists r'. auto.
Qed.

Lemma rows_not_of_length (ent : string) (df : list WatermarkRow) :
  (length (rows_not_of ent df) <= length df)%nat.
Proof.
  unfold rows_not_of. induction df as [|r df IH]; simpl; [lia|].
  destruct (negb (String.eqb (entity r) ent)); simpl; lia.
Qed.

(** X16. [set_watermark] is a replace, not an append: afterwards the control
    table holds exactly one row of the entity, the new one stamped with the
    current time, whatever rows the entity had; the table has grown by at
    most one row, and a table with one row per entity stays so. *)
Theorem set_watermark_one_row_per_entity (env : Env) (ent wtype value : string)
    (s : State) :
  exists s',
    set_watermark env ent wtype (JStr value) s = Val tt s' /\
    rows_of ent (watermarks s')
    = [mkRow ent wtype (Some value) (Some (clock env (ticks s)))] /\
    (length (watermarks s') <= S (length (watermarks s)))%nat /\
    (NoDup (map entity (watermarks s)) -> NoDup (map entity (watermarks s'))).
Proof.
  eexists. split; [reflexivity|].
  cbn [watermarks log_event with_watermarks bump_ticks].
  split; [apply rows_of_upsert_same|].
  split.
  - rewrite length_app. simpl. pose proof (rows_not_of_length ent (watermarks s)).
    lia.
  - intros Hnd. rewrite map_app. simpl.
    apply NoDup_app. split; [apply rows_not_of_entities_NoDup; exact Hnd|].
    split; [|apply NoDup_singleton].
    intros e Hin Hin'. apply list_elem_of_In in Hin'. destruct Hin' as [<-|[]].
    apply list_elem_of_In, in_map_iff in Hin as (r & He & Hin).
    apply rows_not_of_In in Hin as [_ Hne]. contradiction.
Qed.

Lemma rows_not_of_upsert (ent : string) (df : list WatermarkRow)
    (r : WatermarkRow) :
  entity r = ent ->
  rows_not_of ent (rows_not_of ent df ++ [r]) = rows_not_of ent df.
Proof.
  intros He. unfold rows_not_of at 1. rewrite List.filter_app. simpl.
  rewrite He, String.eqb_refl. simpl. rewrite app_nil_r.
  unfold rows_not_of. induction df as [|r0 df IH]; [reflexivity|]. simpl.
  destruct (negb (String.eqb (entity r0) ent)) eqn:E; simpl; [|exact IH].
  rewrite E, IH. reflexivity.
Qed.

(** X17. [set_watermark] keeps no history: after two calls for one entity the
    control table is what the second call alone would have left, stamped with
    the time of the second call, and [get_watermark] returns the second
    value. *)
Theorem set_watermark_twice (env : Env) (ent wtype value1 value2 : string)
    (default_iso : string) (s : State) :
  exists s1 s2,
    set_watermark env ent wtype (JStr value1) s = Val tt s1 /\
    set_watermark env ent wtype (JStr value2) s1 = Val tt s2 /\
    watermarks s2
    = rows_not_of ent (watermarks s) ++
      [mkRow ent wtype (Some value2) (Some (clock env (S (ticks s))))] /\
    get_watermark ent default_iso s2 = Val (Some value2) s2.
Proof.
  eexists. eexists. split; [reflexivity|]. split; [reflexivity|].
  cbn [watermarks log_event with_watermarks bump_ticks ticks].
  split.
  - rewrite rows_not_of_upsert by reflexivity. reflexivity.
  - unfold get_watermark, latest_watermark.
    cbn [watermarks log_event with_watermarks bump_ticks ticks].
    rewrite rows_of_upsert_same. reflexivity.
Qed.

(** ** The sink *)

(** X18. A write of a non-empty batch that meets no Spark fault commits one
    row per record, each tagged with the entity and with the one timestamp
    read at the start of the write: in overwrite mode the dataset of the
    entity is exactly these rows, in append mode they follow the rows that
    were there; no other dataset changes, and the row count is printed. *)
Theorem write_bronze_delta_commits (env : Env) (r : json) (rs : list json)
    (ent : string) (mode : Mode) (s : State) :
  sink_fault env (sink_calls s) = None ->
  let target := BRONZE_BASE_PATH env +:+ "/" +:+ ent in
  let rows := map (fun x => mkBronze x (clock env (ticks s)) ent) (r :: rs) in
  exists s',
    write_bronze_delta env (JArr (r :: rs)) ent mode s = Val tt s' /\
    bronze s' !! target
    = Some (match mode with
            | Overwrite => rows
            | Append => default [] (bronze s !! target) ++ rows
            end) /\
    (forall p, p <> target -> bronze s' !! p = bronze s !! p) /\
    trace s' = trace s ++ [EvSave target mode (r :: rs);
                           EvPrint (LogWrote ent (S (length rs)) target)] /\
    watermarks s' = watermarks s.
Proof. exact (write_bronze_delta_run env r rs ent mode s). Qed.

Lemma write_bronze_delta_commits_witness :
  let env := account api_three_pages no_faults in
  let r := crm_record "1" "2024-05-01T10:00:00.000Z" in
  let rs := [crm_record "2" "2024-05-03T10:00:00.000Z"] in
  let ent := "crm_feedback_submissions" in
  let target := BRONZE_BASE_PATH env +:+ "/" +:+ ent in
  let rows := map (fun x => mkBronze x (clock env (ticks init_state)) ent) (r :: rs) in
  sink_fault env (sink_calls init_state) = None /\
  exists s',
    write_bronze_delta env (JArr (r :: rs)) ent Append init_state = Val tt s' /\
    bronze s' !! target
    = Some (default [] (bronze init_state !! target) ++ rows) /\
    (forall p, p <> target -> bronze s' !! p = bronze init_state !! p) /\
    trace s' = trace init_state ++ [EvSave target Append (r :: rs);
                                    EvPrint (LogWrote ent (S (length rs)) target)] /\
    watermarks s' = watermarks init_state.
Proof.
  intros env r rs ent target rows.
  assert (H : sink_fault env (sink_calls init_state) = None) by reflexivity.
  split; [exact H|].
  exact (write_bronze_delta_commits env r rs ent Append init_state H).
Defined.

(** X19. A full load that fetches no record keeps the old snapshot: when the
    listing answers with one page that has no records and no cursor,
    [load_crm_object] returns after printing that there is nothing to write;
    although the mode is overwrite, no Spark job was started and the dataset
    of the entity is what it was. *)
Theorem load_crm_object_empty_keeps_snapshot (fuel : nat) (env : Env)
    (object_name ent : string) (doc : json) (s : State) :
  (forall n, exists tok, TokenOk (token_response env n) tok) ->
  Serves env (api_calls s) doc ->
  Page "results" doc [] None ->
  exists s' evs,
    load_crm_object (S fuel) env object_name ent s = Val tt s' /\
    trace s' = trace s ++ evs /\
    printed evs = [LogNoRecords ent] /\ saves evs = [] /\
    bronze s' = bronze s /\ sink_calls s' = sink_calls s.
Proof.
  intros Htok Hserves Hpage.
  destruct (paginate_loop_pages env ("/crm/v3/objects/" +:+ object_name)
              "results" Htok [] doc [] (S fuel) []
              (default ∅ (Some (<[ "limit" := JNum 100 ]>
                                  {[ "archived" := JStr "false" ]}))) s)
    as (s1 & evs & Hrun & Htrace & _ & _ & _ & _).
  { simpl. lia. }
  { exact I. }
  { simpl. rewrite Nat.add_0_r. exact Hserves. }
  { exact Hpage. }
  assert (Hframe : ApiOnly s s1).
  { eapply paginate_get_frame. unfold paginate_get. rewrite Hrun. reflexivity. }
  destruct Hframe as ((evs' & Htrace' & Hev) & _ & Hb & Hk & _).
  unfold load_crm_object, bind, paginate_get. rewrite Hrun.
  cbn. eexists. eexists. split; [reflexivity|].
  cbn [trace log_event]. rewrite Htrace', <- app_assoc.
  split; [reflexivity|].
  rewrite printed_app, saves_app, (api_events_no_saves _ Hev).
  assert (Hp : printed evs' = []).
  { clear -Hev. induction Hev as [|e evs He _ IH]; [reflexivity|].
    destruct e; simpl in *; try discriminate; exact IH. }
  rewrite Hp. cbn [bronze sink_calls log_event].
  repeat split; assumption.
Qed.

Lemma load_crm_object_empty_keeps_snapshot_witness :
  let env := account (script [] (ok_with (page [] None))) no_faults in
  let doc := page [] None in
  (forall n, exists tok, TokenOk (token_response env n) tok) /\
  Serves env (api_calls init_state) doc /\
  Page "results" doc [] None /\
  exists s' evs,
    load_crm_object 1 env "partner-clients" "crm_partner_clients" init_state
    = Val tt s' /\
    trace s' = trace init_state ++ evs /\
    printed evs = [LogNoRecords "crm_partner_clients"] /\ saves evs = [] /\
    bronze s' = bronze init_state /\ sink_calls s' = sink_calls init_state.
Proof.
  intros env doc.
  pose proof (account_tokens_ok (script [] (ok_with (page [] None))) no_faults)
    as H1.
  assert (H2 : Serves env (api_calls init_state) doc).
  { split; [simpl; lia|]. right. split; [discriminate|reflexivity]. }
  assert (H3 : Page "results" doc [] None).
  { eexists. split; [reflexivity|]. split; [left; reflexivity|].
    left. exact I. }
  split; [exact H1|]. split; [exact H2|]. split; [exact H3|].
  exact (load_crm_object_empty_keeps_snapshot 0 env "partner-clients"
           "crm_partner_clients" doc init_state H1 H2 H3).
Defined.

(** ** Campaign revenue: campaigns without an id, and the tag *)

(** X20. Campaigns whose [id] is missing, null or empty are skipped without
    a request: over such campaigns alone [load_campaign_revenue] refreshes no
    token, sends nothing and only prints that there is nothing to write. *)
Theorem load_campaign_revenue_skips_without_id (env : Env)
    (campaigns : list json) (s : State) :
  Forall (fun c => exists o, c = JObj o /\ absent (items_get "id" o)) campaigns ->
  load_campaign_revenue env campaigns s
  = Val tt (log_event (EvPrint (LogNoRecords "marketing_campaign_revenue")) s).
Proof.
  intros Hall.
  assert (Hloop : forall out, revenue_loop env campaigns out s = Val out s).
  { induction Hall as [|c campaigns (o & -> & Habs) _ IH]; intros out;
      [reflexivity|].
    cbn [revenue_loop]. unfold bind at 1, py_get, ret.
    destruct (items_get "id" o) as [guid|]; cbn [from_option id].
    - simpl in Habs. rewrite Habs. apply IH.
    - apply IH. }
  unfold load_campaign_revenue, bind. rewrite Hloop. reflexivity.
Qed.

Lemma load_campaign_revenue_skips_without_id_witness :
  let env := account api_always_503 no_faults in
  let campaigns := [JObj [("name", JStr "launch")];
                    JObj [("id", JNull)]; JObj [("id", JStr "")]] in
  Forall (fun c => exists o, c = JObj o /\ absent (items_get "id" o)) campaigns /\
  load_campaign_revenue env campaigns init_state
  = Val tt (log_event (EvPrint (LogNoRecords "marketing_campaign_revenue"))
                      init_state).
Proof.
  intros env campaigns.
  assert (H : Forall (fun c => exists o, c = JObj o /\ absent (items_get "id" o))
                     campaigns).
  { repeat constructor; eexists; (split; [reflexivity|]); simpl; auto. }
  split; [exact H|].
  exact (load_campaign_revenue_skips_without_id env campaigns init_state H).
Defined.

(** X27. Whatever the report request of a campaign raises (the token
    refresh, the API error of a fatal status or of an exhausted retry
    budget, a body that does not decode, a [Retry-After] the code cannot
    sleep), [load_campaign_revenue] catches it: the rest of the call is the
    call for the remaining campaigns, from the state the request left plus
    the printed failure; nothing was added to the batch. *)
Theorem load_campaign_revenue_catches (env : Env) (c : json)
    (rest : list json) (guid : json) (e : Exn) (s s1 : State) :
  HasId c guid ->
  hs_request_default env GET (revenue_path env guid) (Some ∅) None s = Exc e s1 ->
  load_campaign_revenue env (c :: rest) s
  = load_campaign_revenue env rest
      (log_event (EvPrint (LogRevenueFailed guid e)) s1).
Proof.
  intros (o & -> & Hid & Htruthy) Hfail.
  assert (Hloop : forall out,
            revenue_loop env (JObj o :: rest) out s
            = revenue_loop env rest out
                (log_event (EvPrint (LogRevenueFailed guid e)) s1)).
  { intros out. cbn [revenue_loop].
    unfold bind at 1, py_get, ret. rewrite Hid. cbn [from_option id].
    rewrite Htruthy. cbn [negb].
    unfold bind at 1, fetch_revenue, try_except, revenue_try, bind at 1.
    rewrite Hfail. reflexivity. }
  unfold load_campaign_revenue, bind. rewrite Hloop. reflexivity.
Qed.

Lemma load_campaign_revenue_catches_witness :
  let env := account api_always_503 no_faults in
  let c := JObj (campaign "c1") in
  let rest := [JObj (campaign "c2")] in
  let guid := JStr "c1" in
  let e := HubSpotApiError 503 "/marketing/v3/campaigns/c1/reports/revenue" "" in
  let s1 := state_after (hs_request_default env GET (revenue_path env guid)
                                            (Some ∅) None init_state) in
  HasId c guid /\
  hs_request_default env GET (revenue_path env guid) (Some ∅) None init_state
  = Exc e s1 /\
  http_attempts (trace s1) = 7%nat /\
  load_campaign_revenue env (c :: rest) init_state
  = load_campaign_revenue env rest
      (log_event (EvPrint (LogRevenueFailed guid e)) s1).
Proof.
  intros env c rest guid e s1.
  assert (H1 : HasId c guid).
  { eexists. split; [reflexivity|]. split; reflexivity. }
  assert (H2 : hs_request_default env GET (revenue_path env guid) (Some ∅) None
                                  init_state = Exc e s1)
    by (vm_compute; reflexivity).
  split; [exact H1|]. split; [exact H2|]. split; [vm_compute; reflexivity|].
  exact (load_campaign_revenue_catches env c rest guid e init_state s1 H1 H2).
Defined.





(** ** The settings loaders *)

(** X22. A settings loader writes the list it finds: when the answer decodes
    to a non-empty list, or to a dict with a non-empty list under
    ["results"], and the write meets no fault, the loader sends one request
    and commits exactly that list, in overwrite mode, to the dataset of the
    entity. *)
Theorem load_settings_writes_list (env : Env) (path : string)
    (params : gmap string json) (ent : string) (doc r : json)
    (rs : list json) (tok : json) (s : State) :
  TokenOk (token_response env (token_calls s)) tok ->
  Serves env (api_calls s) doc ->
  (doc = JArr (r :: rs) \/
   exists o, doc = JObj o /\ items_get "results" o = Some (JArr (r :: rs))) ->
  sink_fault env (sink_calls s) = None ->
  exists s' evs,
    load_settings env path params ent s = Val tt s' /\
    trace s' = trace s ++ evs /\
    http_attempts evs = 1%nat /\
    saves evs = [(BRONZE_BASE_PATH env +:+ "/" +:+ ent, Overwrite, r :: rs)] /\
    bronze s' !! (BRONZE_BASE_PATH env +:+ "/" +:+ ent)
    = Some (map (fun x => mkBronze x (clock env (ticks s)) ent) (r :: rs)).
Proof.
  intros Htok Hserves Hdoc Hfault.
  unfold load_settings, bind.
  rewrite (hs_request_ok env GET path (Some params) None s tok doc Htok Hserves).
  set (s1 := bump_api _).
  assert (Hres : results_or_self doc = JArr (r :: rs)).
  { destruct Hdoc as [->|(o & -> & Ho)]; [reflexivity|].
    unfold results_or_self. rewrite Ho. reflexivity. }
  rewrite Hres.
  destruct (write_bronze_delta_run env r rs ent Overwrite s1 Hfault)
    as (s' & Hrun & Hb & _ & Htrace & _).
  exists s'. eexists. split; [exact Hrun|].
  split; [rewrite Htrace; unfold s1; cbn [trace bump_api bump_token log_event];
          rewrite <- !app_assoc; reflexivity|].
  split; [reflexivity|]. split; [reflexivity|]. exact Hb.
Qed.

Lemma load_settings_writes_list_witness :
  let env := account api_currency_list no_faults in
  let r := JObj [("code", JStr "EUR")] in
  let rs := [JObj [("code", JStr "USD")]] in
  let doc := JArr (r :: rs) in
  TokenOk (token_response env (token_calls init_state)) (JStr "tok") /\
  Serves env (api_calls init_state) doc /\
  (doc = JArr (r :: rs) \/
   exists o, doc = JObj o /\ items_get "results" o = Some (JArr (r :: rs))) /\
  sink_fault env (sink_calls init_state) = None /\
  exists s' evs,
    load_settings env "/settings/v3/currencies" ∅ "settings_currencies" init_state
    = Val tt s' /\
    trace s' = trace init_state ++ evs /\
    http_attempts evs = 1%nat /\
    saves evs = [(BRONZE_BASE_PATH env +:+ "/" +:+ "settings_currencies",
                  Overwrite, r :: rs)] /\
    bronze s' !! (BRONZE_BASE_PATH env +:+ "/" +:+ "settings_currencies")
    = Some (map (fun x => mkBronze x (clock env (ticks init_state))
                                   "settings_currencies") (r :: rs)).
Proof.
  intros env r rs doc.
  assert (H1 : TokenOk (token_response env (token_calls init_state)) (JStr "tok")).
  { split; [simpl; lia|]. eexists. split; reflexivity. }
  assert (H2 : Serves env (api_calls init_state) doc).
  { split; [simpl; lia|]. right. split; [discriminate|reflexivity]. }
  assert (H3 : doc = JArr (r :: rs) \/
               exists o, doc = JObj o /\
                         items_get "results" o = Some (JArr (r :: rs)))
    by (left; reflexivity).
  assert (H4 : sink_fault env (sink_calls init_state) = None) by reflexivity.
  split; [exact H1|]. split; [exact H2|]. split; [exact H3|]. split; [exact H4|].
  exact (load_settings_writes_list env "/settings/v3/currencies" ∅
           "settings_currencies" doc r rs (JStr "tok") init_state H1 H2 H3 H4).
Defined.
